(** * SmartSwing: swing segmentation, key positions, biomechanical checks and scoring

    A shallow embedding of the analysis core of the SmartSwing golf-swing
    analyser (swing_detector.py, biomechanical_analyzer.py, swing_scorer.py,
    pose_estimator.py, smartswing_pipeline.py, config.py), together with the
    properties its specification states.

    Conventions of the embedding.
    - Python [int] is [Z]; Python/NumPy [float] is a real number [R]
      (arithmetic is exact: rounding error of binary64 is not modelled).
    - A landmark frame is a list of 3-D points, or [None] when pose detection
      failed; a landmark sequence is a list of optional frames.
    - Python exceptions (IndexError on a row that does not exist, a shape
      mismatch in an array subtraction) are the [None] of an [option] result.
    - Python dictionaries with string keys are [gmap string _]. *)

From Stdlib Require Import ZArith List Reals Lra Lia Bool String.
From Stdlib Require QArith.
From stdpp Require Import gmap strings pretty.
Import ListNotations.

Open Scope Z_scope.

(** ** Python list primitives *)

Module Py.

(** [seq[i]] for a Python list: a negative index counts from the end, an index
    outside [-len, len) raises IndexError. *)
Definition getitem {A : Type} (l : list A) (i : Z) : option A :=
  let n := Z.of_nat (length l) in
  if (0 <=? i) && (i <? n) then nth_error l (Z.to_nat i)
  else if (i <? 0) && (- n <=? i) then nth_error l (Z.to_nat (i + n))
  else None.

(** Bound normalisation of a slice [seq[a:b]] (step 1): a negative bound is
    taken from the end, then the bound is clamped into [0, len]. *)
Definition slice_bound (n i : Z) : Z :=
  if i <? 0 then Z.max (i + n) 0 else Z.min i n.

(** [seq[a:b]]. *)
Definition slice {A : Type} (l : list A) (a b : Z) : list A :=
  let n := Z.of_nat (length l) in
  let lo := slice_bound n a in
  let hi := slice_bound n b in
  firstn (Z.to_nat (hi - lo)) (skipn (Z.to_nat lo) l).

(** [range(a, b)] as the list of its values. *)
Definition range (a b : Z) : list Z :=
  map (fun k => a + Z.of_nat k) (seq 0 (Z.to_nat (b - a))).

End Py.

(** ** config.py *)

Module Config.

#[local] Open Scope R_scope.

(** SWING_DETECTION *)
Definition motion_threshold : R := 5.
Definition stillness_frames : Z := 15%Z.
Definition min_swing_duration : Z := 30%Z.
Definition max_swing_duration : Z := 120%Z.
Definition velocity_smoothing_window : Z := 5%Z.

(** BIOMECHANICS *)
Definition ideal_swing_plane_angle : R := 45.
Definition swing_plane_tolerance : R := 15.
Definition ideal_hip_rotation : R := 45.
Definition ideal_shoulder_rotation : R := 90.
Definition rotation_tolerance : R := 10.
Definition ideal_wrist_hinge_backswing : R := 90.
Definition ideal_wrist_hinge_impact : R := 45.
Definition wrist_tolerance : R := 15.
Definition weight_shift_threshold : R := 15 / 100.

(** SCORING_WEIGHTS *)
Definition w_swing_plane_consistency : R := 25 / 100.
Definition w_rotation_quality : R := 20 / 100.
Definition w_downswing_alignment : R := 20 / 100.
Definition w_wrist_hinge : R := 15 / 100.
Definition w_weight_transfer : R := 10 / 100.
Definition w_tempo : R := 10 / 100.

(** KEYPOINTS (the rows the analysis reads) *)
Definition left_shoulder : Z := 11%Z.
Definition right_shoulder : Z := 12%Z.
Definition left_elbow : Z := 13%Z.
Definition right_elbow : Z := 14%Z.
Definition left_wrist : Z := 15%Z.
Definition right_wrist : Z := 16%Z.
Definition left_hip : Z := 23%Z.
Definition right_hip : Z := 24%Z.
Definition left_knee : Z := 25%Z.
Definition right_knee : Z := 26%Z.
Definition left_ankle : Z := 27%Z.
Definition right_ankle : Z := 28%Z.

End Config.

(** ** Energies

    The segmenter only ever compares an energy with the threshold, by [>] and
    by [<].  It is written once, over any type of energies with a strict
    comparison, so that it applies to the real-valued output of the
    motion-energy estimator and also runs on rationals.  [energy_eq] is the
    numeric equality of two energies: equal energies are not ordered. *)

Class Energy (E : Type) := {
  energy_lt : E -> E -> bool;
  energy_eq : E -> E -> Prop;
  energy_eq_refl : forall x, energy_eq x x;
  energy_eq_not_lt :
    forall x y, energy_eq x y -> energy_lt x y = false /\ energy_lt y x = false
}.

(** Python's [a > b]. *)
Definition energy_gt {E} `{Energy E} (a b : E) : bool := energy_lt b a.

Definition Rltb (x y : R) : bool := if Rlt_dec x y then true else false.

#[export] Instance Energy_R : Energy R :=
  {| energy_lt := Rltb;
     energy_eq := @eq R;
     energy_eq_refl := @eq_refl R;
     energy_eq_not_lt :=
       ltac:(intros x y ->; unfold Rltb;
             destruct (Rlt_dec y y); [lra | split; reflexivity]) |}.

Definition Qltb (x y : QArith_base.Q) : bool :=
  (QArith_base.Qnum x * Z.pos (QArith_base.Qden y)
   <? QArith_base.Qnum y * Z.pos (QArith_base.Qden x))%Z.

#[export] Instance Energy_Q : Energy QArith_base.Q :=
  {| energy_lt := Qltb;
     energy_eq := QArith_base.Qeq;
     energy_eq_refl := fun x => eq_refl;
     energy_eq_not_lt :=
       ltac:(intros x y Heq; unfold QArith_base.Qeq in Heq; unfold Qltb;
             rewrite Heq; split; apply Z.ltb_irrefl) |}.

(** ** swing_detector.py: the segmenter *)

Module Segmenter.

(** The constructor arguments of [SwingDetector]. *)
Record SwingDetector (E : Type) := {
  motion_threshold : E;
  stillness_frames : Z;
  min_swing_duration : Z;
  max_swing_duration : Z
}.
Arguments motion_threshold {E} _.
Arguments stillness_frames {E} _.
Arguments min_swing_duration {E} _.
Arguments max_swing_duration {E} _.

(** [SwingDetector()] with the defaults of its constructor, from config.py. *)
Definition default_detector : SwingDetector R :=
  {| motion_threshold := Config.motion_threshold;
     stillness_frames := Config.stillness_frames;
     min_swing_duration := Config.min_swing_duration;
     max_swing_duration := Config.max_swing_duration |}.

(** A detected swing [(start_frame, end_frame, phase_label)]. *)
Definition segment : Type := Z * Z * string.
Definition seg_start (s : segment) : Z := fst (fst s).
Definition seg_end (s : segment) : Z := snd (fst s).

(** The local variables of [detect_swing_phases]. *)
Record state := {
  in_swing : bool;
  swing_start : Z;
  stillness_counter : Z;
  swings : list segment
}.

Definition init : state :=
  {| in_swing := false; swing_start := 0; stillness_counter := 0; swings := [] |}.

Section Scan.
Context {E : Type} `{Energy E}.
Variable self : SwingDetector E.

(** One iteration of the loop body, at frame [i] with energy [energy]. *)
Definition step (st : state) (i : Z) (energy : E) : state :=
  if negb (in_swing st) then
    if energy_gt energy (motion_threshold self) then
      {| in_swing := true; swing_start := i; stillness_counter := 0;
         swings := swings st |}
    else st
  else
    if energy_lt energy (motion_threshold self) then
      let counter := stillness_counter st + 1 in
      if stillness_frames self <=? counter then
        let swing_end := i - stillness_frames self in
        let swing_duration := swing_end - swing_start st in
        let swings' :=
          if (min_swing_duration self <=? swing_duration)
             && (swing_duration <=? max_swing_duration self)
          then swings st ++ [(swing_start st, swing_end, "full_swing"%string)]
          else swings st in
        {| in_swing := false; swing_start := swing_start st;
           stillness_counter := 0; swings := swings' |}
      else
        {| in_swing := true; swing_start := swing_start st;
           stillness_counter := counter; swings := swings st |}
    else
      {| in_swing := true; swing_start := swing_start st;
         stillness_counter := 0; swings := swings st |}.

(** [for i, energy in enumerate(motion_energy)], entered at index [i]. *)
Fixpoint scan (i : Z) (st : state) (motion_energy : list E) : state :=
  match motion_energy with
  | [] => st
  | energy :: rest => scan (i + 1) (step st i energy) rest
  end.

(** The state of the loop when the sequence is exhausted. *)
Definition final_state (motion_energy : list E) : state :=
  scan 0 init motion_energy.

Definition detect_swing_phases (motion_energy : list E) : list segment :=
  swings (final_state motion_energy).

End Scan.

End Segmenter.

(** ** Landmark data *)

Definition point : Type := R * R * R.
Definition px (p : point) : R := fst (fst p).
Definition py (p : point) : R := snd (fst p).
Definition pz (p : point) : R := snd p.

(** A (rows x 3) landmark array. *)
Definition frame : Type := list point.

(** One entry per video frame; [None] is a frame without detected pose. *)
Definition landmarks : Type := list (option frame).

Definition Rleb (x y : R) : bool := if Rle_dec x y then true else false.

(** [sum(l)], [max(l)] and [min(l)] of a list of floats ([max] and [min] raise
    on an empty list). *)
Definition Rsum (l : list R) : R := fold_right Rplus 0%R l.

Definition list_max (l : list R) : option R :=
  match l with
  | [] => None
  | x :: rest => Some (fold_left Rmax rest x)
  end.

Definition list_min (l : list R) : option R :=
  match l with
  | [] => None
  | x :: rest => Some (fold_left Rmin rest x)
  end.

(** [np.clip(x, lo, hi)]. *)
Definition clip (x lo hi : R) : R := Rmin (Rmax x lo) hi.

(** ** swing_detector.py: motion energy and key positions *)

Module Detector.

#[local] Open Scope R_scope.

(** [np.linalg.norm(., axis=1)] on one row. *)
Definition row_norm (p : point) : R :=
  sqrt (px p * px p + py p * py p + pz p * pz p).

Definition point_sub (p q : point) : point :=
  (px p - px q, py p - py q, pz p - pz q).

(** [a - b] on two (rows x 3) arrays, with NumPy broadcasting of a one-row
    operand; other row counts that differ raise. *)
Definition frame_sub (a b : frame) : option frame :=
  if (length a =? length b)%nat then
    Some (map (fun ab => point_sub (fst ab) (snd ab)) (combine a b))
  else match a, b with
       | [p], _ => Some (map (fun q => point_sub p q) b)
       | _, [q] => Some (map (fun p => point_sub p q) a)
       | _, _ => None
       end.

(** Shoulders, elbows, wrists and hips. *)
Definition key_joints : list nat := [11; 12; 13; 14; 15; 16; 23; 24]%nat.

(** [displacement[key_joints]]: raises when a joint row does not exist. *)
Fixpoint take_rows (d : list R) (idx : list nat) : option (list R) :=
  match idx with
  | [] => Some []
  | j :: idx' =>
      match nth_error d j, take_rows d idx' with
      | Some x, Some xs => Some (x :: xs)
      | _, _ => None
      end
  end.

(** [np.mean] of a non-empty selection. *)
Definition mean (l : list R) : R := Rsum l / INR (length l).

(** The value stored in [motion_energy[i]] given frames [i-1] and [i]; it stays
    0 when either frame is missing. *)
Definition energy_at (prev cur : option frame) : option R :=
  match cur, prev with
  | Some c, Some p =>
      match frame_sub c p with
      | Some diff =>
          match take_rows (map row_norm diff) key_joints with
          | Some sel => Some (mean sel * 100)
          | None => None
          end
      | None => None
      end
  | _, _ => Some 0
  end.

(** The loop [for i in range(1, len(landmarks_sequence))]. *)
Fixpoint energies_after (prev : option frame) (rest : landmarks)
  : option (list R) :=
  match rest with
  | [] => Some []
  | cur :: rest' =>
      match energy_at prev cur, energies_after cur rest' with
      | Some e, Some es => Some (e :: es)
      | _, _ => None
      end
  end.

(** Modelled from the spec: the fixed-window polynomial smoothing filter
    (window 5, polynomial order 2), which the source takes from the SciPy
    library as [savgol_filter(motion_energy, 5, 2)] with the default
    [mode='interp'].  Every interior sample is the value at the centre of the
    least-squares parabola through the five samples around it (weights
    -3, 12, 17, 12, -3 over 35); the first and last two samples are read off
    the parabola fitted to the first, respectively last, five samples. *)
Fixpoint savgol_interior (x : list R) : list R :=
  match x with
  | a :: (b :: c :: d :: e :: _) as tl =>
      ((-3) * a + 12 * b + 17 * c + 12 * d + (-3) * e) / 35
      :: savgol_interior tl
  | _ => []
  end.

Definition savgol_head (x : list R) : list R :=
  match x with
  | a :: b :: c :: d :: e :: _ =>
      [ (31 * a + 9 * b + (-3) * c + (-5) * d + 3 * e) / 35;
        (9 * a + 13 * b + 12 * c + 6 * d + (-5) * e) / 35 ]
  | _ => []
  end.

Definition savgol_tail (x : list R) : list R :=
  match skipn (length x - 5) x with
  | a :: b :: c :: d :: e :: _ =>
      [ ((-5) * a + 6 * b + 12 * c + 13 * d + 9 * e) / 35;
        (3 * a + (-5) * b + (-3) * c + 9 * d + 31 * e) / 35 ]
  | _ => []
  end.

Definition savgol_filter_5_2 (x : list R) : list R :=
  savgol_head x ++ savgol_interior x ++ savgol_tail x.

(** The energies before the smoothing step. *)
Definition raw_motion_energy (landmarks_sequence : landmarks)
  : option (list R) :=
  if (length landmarks_sequence <? 2)%nat then
    Some (repeat 0 (length landmarks_sequence))
  else
    match landmarks_sequence with
    | [] => Some []
    | first :: rest =>
        match energies_after first rest with
        | Some es => Some (0 :: es)
        | None => None
        end
    end.

Definition calculate_motion_energy (landmarks_sequence : landmarks)
  : option (list R) :=
  match raw_motion_energy landmarks_sequence with
  | Some motion_energy =>
      if (Config.velocity_smoothing_window <? Z.of_nat (length motion_energy))%Z
      then Some (savgol_filter_5_2 motion_energy)
      else Some motion_energy
  | None => None
  end.

(** [np.argmin]: the first index holding the smallest value. [best] and
    [best_i] are the smallest value seen so far and its index, [i] the index
    of the head of the list. *)
Fixpoint argmin_from (best : R) (best_i i : nat) (l : list R) : nat :=
  match l with
  | [] => best_i
  | x :: rest =>
      if Rltb x best then argmin_from x i (S i) rest
      else argmin_from best best_i (S i) rest
  end.

Definition argmin (l : list R) : nat :=
  match l with
  | [] => 0%nat
  | x :: rest => argmin_from x 0 1 rest
  end.

(** The right-wrist height recorded for one frame of the segment. *)
Definition wrist_height (lm : option frame) : R :=
  match lm with
  | Some rows =>
      if (16 <? length rows)%nat then
        match nth_error rows 16 with
        | Some p => py p
        | None => 0
        end
      else 0
  | None => 0
  end.

(** [int(n * 0.8)] for a list length [n]: the product of a frame count with
    the binary64 constant 0.8 truncates to the integer part of 8n/10. *)
Definition impact_index (n : Z) : Z := (n * 8 / 10)%Z.

Definition identify_swing_positions (landmarks_sequence : landmarks)
    (swing_range : Z * Z) : gmap string Z :=
  let '(start, end_) := swing_range in
  let swing_landmarks := Py.slice landmarks_sequence start (end_ + 1) in
  if (length swing_landmarks =? 0)%nat then ∅
  else
    let wrist_heights := map wrist_height swing_landmarks in
    let address_idx := 0%Z in
    let backswing_end := (length wrist_heights / 2)%nat in
    let top_idx :=
      if (0 <? backswing_end)%nat
      then Z.of_nat (argmin (firstn backswing_end wrist_heights))
      else 0%Z in
    let impact_idx := impact_index (Z.of_nat (length wrist_heights)) in
    let finish_idx := (Z.of_nat (length wrist_heights) - 1)%Z in
    <["address" := (start + address_idx)%Z]>
      (<["top" := (start + top_idx)%Z]>
         (<["impact" := (start + impact_idx)%Z]>
            (<["finish" := (start + finish_idx)%Z]> ∅))).

End Detector.

(** ** Metric dictionaries *)

(** A value stored in a metric dictionary: a number or a series of numbers. *)
Inductive pyval : Type :=
| Num (r : R)
| Series (l : list R).

(** [d.get(k, default)] read as a number; using a series where a number is
    needed raises TypeError. *)
Definition get_num (d : gmap string pyval) (k : string) (default : R)
  : option R :=
  match d !! k with
  | None => Some default
  | Some (Num r) => Some r
  | Some (Series _) => None
  end.

(** [key_positions.get(k, default)]. *)
Definition get_pos (key_positions : gmap string Z) (k : string) (default : Z)
  : Z :=
  match key_positions !! k with
  | Some v => v
  | None => default
  end.

(** ** biomechanical_analyzer.py *)

Module Analyzer.

#[local] Open Scope R_scope.

Definition vec2 : Type := R * R.

(** [p[:2]]. *)
Definition xy (p : point) : vec2 := (px p, py p).

Definition vsub (a b : vec2) : vec2 := (fst a - fst b, snd a - snd b).

(** [np.linalg.norm] of a 2-vector. *)
Definition norm2 (v : vec2) : R := sqrt (fst v * fst v + snd v * snd v).

Definition eps : R := 1 / 1000000.

(** [np.degrees]. *)
Definition degrees (x : R) : R := x * (180 / PI).

Definition _calculate_rotation_angle (ref_vector current_vector : vec2) : R :=
  let ref_norm := (fst ref_vector / (norm2 ref_vector + eps),
                   snd ref_vector / (norm2 ref_vector + eps)) in
  let curr_norm := (fst current_vector / (norm2 current_vector + eps),
                    snd current_vector / (norm2 current_vector + eps)) in
  let dot_product :=
    clip (fst ref_norm * fst curr_norm + snd ref_norm * snd curr_norm) (-1) 1 in
  let angle := degrees (acos dot_product) in
  let cross := fst ref_norm * snd curr_norm - snd ref_norm * fst curr_norm in
  if Rltb cross 0 then - angle else angle.

(** The frames visited by [range(start, min(end + 1, len(seq)))], each read
    with [seq[i]]. *)
Definition frames_in_range (landmarks_sequence : landmarks) (start end_ : Z)
  : option (list (option frame)) :=
  mapM (Py.getitem landmarks_sequence)
       (Py.range start (Z.min (end_ + 1) (Z.of_nat (length landmarks_sequence)))).

(** The results dictionary [calculate_rotation_metrics] starts from. *)
Definition rotation_defaults : gmap string pyval :=
  <["hip_rotation" := Series []]>
    (<["shoulder_rotation" := Series []]>
       (<["max_hip_rotation" := Num 0]>
          (<["max_shoulder_rotation" := Num 0]>
             (<["rotation_sequence_score" := Num 0]> ∅)))).

(** The pair (hip rotation, shoulder rotation) appended for one frame. *)
Definition frame_rotations (hip_ref shoulder_ref : vec2) (lm : option frame)
  : option (R * R) :=
  match lm with
  | None => Some (0, 0)
  | Some rows =>
      left_hip ← Py.getitem rows Config.left_hip;
      right_hip ← Py.getitem rows Config.right_hip;
      left_shoulder ← Py.getitem rows Config.left_shoulder;
      right_shoulder ← Py.getitem rows Config.right_shoulder;
      Some (_calculate_rotation_angle hip_ref (vsub (xy right_hip) (xy left_hip)),
            _calculate_rotation_angle shoulder_ref
              (vsub (xy right_shoulder) (xy left_shoulder)))
  end.

Definition rotation_sequence_score (max_shoulder max_hip : R) : R :=
  if Rltb max_hip max_shoulder then
    let ratio := max_shoulder / (max_hip + 1) in
    Rmax 0 (100 - Rabs (ratio - 2) * 30)
  else 50.

Definition calculate_rotation_metrics (landmarks_sequence : landmarks)
    (key_positions : gmap string Z) : option (gmap string pyval) :=
  let n := Z.of_nat (length landmarks_sequence) in
  let address_frame := get_pos key_positions "address" 0%Z in
  if (n <=? address_frame)%Z then Some rotation_defaults
  else
    address ← Py.getitem landmarks_sequence address_frame;
    match address with
    | None => Some rotation_defaults
    | Some address_landmarks =>
        left_hip_addr ← Py.getitem address_landmarks Config.left_hip;
        right_hip_addr ← Py.getitem address_landmarks Config.right_hip;
        let hip_ref_vector := vsub (xy right_hip_addr) (xy left_hip_addr) in
        left_shoulder_addr ← Py.getitem address_landmarks Config.left_shoulder;
        right_shoulder_addr ← Py.getitem address_landmarks Config.right_shoulder;
        let shoulder_ref_vector :=
          vsub (xy right_shoulder_addr) (xy left_shoulder_addr) in
        let start := get_pos key_positions "address" 0%Z in
        let end_ := get_pos key_positions "finish" (n - 1)%Z in
        frames ← frames_in_range landmarks_sequence start end_;
        rotations ← mapM (frame_rotations hip_ref_vector shoulder_ref_vector) frames;
        let hip_rotations := map fst rotations in
        let shoulder_rotations := map snd rotations in
        match list_max (map Rabs hip_rotations),
              list_max (map Rabs shoulder_rotations) with
        | Some max_hip, Some max_shoulder =>
            Some (<["hip_rotation" := Series hip_rotations]>
                    (<["shoulder_rotation" := Series shoulder_rotations]>
                       (<["max_hip_rotation" := Num max_hip]>
                          (<["max_shoulder_rotation" := Num max_shoulder]>
                             (<["rotation_sequence_score" :=
                                  Num (rotation_sequence_score max_shoulder max_hip)]>
                                rotation_defaults)))))
        | _, _ => Some rotation_defaults
        end
    end.

(** The results dictionary [calculate_weight_transfer] starts from. *)
Definition weight_defaults : gmap string pyval :=
  <["weight_distribution" := Series []]>
    (<["max_weight_shift" := Num 0]>
       (<["weight_transfer_score" := Num 0]> ∅)).

(** The weight ratio appended for one frame. *)
Definition frame_weight_ratio (lm : option frame) : option R :=
  match lm with
  | None => Some (1 / 2)
  | Some rows =>
      left_hip ← Py.getitem rows Config.left_hip;
      right_hip ← Py.getitem rows Config.right_hip;
      left_ankle ← Py.getitem rows Config.left_ankle;
      right_ankle ← Py.getitem rows Config.right_ankle;
      let hip_center_x := (px left_hip + px right_hip) / 2 in
      let left_foot_x := px left_ankle in
      let right_foot_x := px right_ankle in
      let foot_width := Rabs (right_foot_x - left_foot_x) in
      if Rltb foot_width (1 / 100) then Some (1 / 2)
      else Some (clip ((hip_center_x - left_foot_x) / foot_width) 0 1)
  end.

Definition weight_transfer_score (max_weight_shift : R) : R :=
  if Rleb Config.weight_shift_threshold max_weight_shift then
    Rmin 100 (max_weight_shift / Config.weight_shift_threshold * 100)
  else max_weight_shift / Config.weight_shift_threshold * 100.

Definition calculate_weight_transfer (landmarks_sequence : landmarks)
    (key_positions : gmap string Z) : option (gmap string pyval) :=
  let n := Z.of_nat (length landmarks_sequence) in
  let start := get_pos key_positions "address" 0%Z in
  let end_ := get_pos key_positions "finish" (n - 1)%Z in
  frames ← frames_in_range landmarks_sequence start end_;
  weight_ratios ← mapM frame_weight_ratio frames;
  match list_max weight_ratios, list_min weight_ratios with
  | Some hi, Some lo =>
      let max_weight_shift := hi - lo in
      Some (<["weight_distribution" := Series weight_ratios]>
              (<["max_weight_shift" := Num max_weight_shift]>
                 (<["weight_transfer_score" :=
                      Num (weight_transfer_score max_weight_shift)]>
                    weight_defaults)))
  | _, _ => Some weight_defaults
  end.

Definition _check_early_extension (landmarks_sequence : landmarks)
    (key_positions : gmap string Z) : option bool :=
  let n := Z.of_nat (length landmarks_sequence) in
  let top_frame := get_pos key_positions "top" 0%Z in
  let impact_frame := get_pos key_positions "impact" (n - 1)%Z in
  if (n <=? top_frame)%Z || (n <=? impact_frame)%Z then Some false
  else
    top ← Py.getitem landmarks_sequence top_frame;
    match top with
    | None => Some false
    | Some top_rows =>
        impact ← Py.getitem landmarks_sequence impact_frame;
        match impact with
        | None => Some false
        | Some impact_rows =>
            top_left ← Py.getitem top_rows Config.left_hip;
            top_right ← Py.getitem top_rows Config.right_hip;
            let top_hip := (py top_left + py top_right) / 2 in
            impact_left ← Py.getitem impact_rows Config.left_hip;
            impact_right ← Py.getitem impact_rows Config.right_hip;
            let impact_hip := (py impact_left + py impact_right) / 2 in
            let hip_rise := top_hip - impact_hip in
            Some (Rltb (5 / 100) hip_rise)
        end
    end.

(** [np.diff]. *)
Fixpoint np_diff (l : list R) : list R :=
  match l with
  | a :: (b :: _) as tl => (b - a) :: np_diff tl
  | _ => []
  end.

(** The entries appended to [wrist_path_x] for one frame (one or none). *)
Definition wrist_offset (lm : option frame) : option (list R) :=
  match lm with
  | Some rows =>
      if (Config.right_wrist <? Z.of_nat (length rows))%Z then
        wrist ← Py.getitem rows Config.right_wrist;
        shoulder ← Py.getitem rows Config.right_shoulder;
        Some [px wrist - px shoulder]
      else Some []
  | None => Some []
  end.

Definition _check_over_the_top (landmarks_sequence : landmarks)
    (key_positions : gmap string Z) : option bool :=
  let n := Z.of_nat (length landmarks_sequence) in
  let top_frame := get_pos key_positions "top" 0%Z in
  let impact_frame := get_pos key_positions "impact" (n - 1)%Z in
  if (n <=? top_frame)%Z || (n <=? impact_frame)%Z then Some false
  else
    frames ← frames_in_range landmarks_sequence top_frame impact_frame;
    offsets ← mapM wrist_offset frames;
    let wrist_path_x := concat offsets in
    if (2 <? length wrist_path_x)%nat then
      let early := np_diff (firstn (length wrist_path_x / 2) wrist_path_x) in
      (* the mean of an empty array is nan, which compares false *)
      match early with
      | [] => Some false
      | _ => Some (Rltb (1 / 100) (Rsum early / INR (length early)))
      end
    else Some false.

(** [if cond: errors.append(name)]. *)
Definition append_if (cond : bool) (errors : list string) (name : string)
  : list string :=
  if cond then errors ++ [name] else errors.

Definition detect_common_errors (landmarks_sequence : landmarks)
    (key_positions : gmap string Z)
    (rotation_metrics weight_metrics : gmap string pyval)
  : option (list string) :=
  let errors := [] in
  early_extension ← _check_early_extension landmarks_sequence key_positions;
  let errors := append_if early_extension errors "early_extension" in
  over_the_top ← _check_over_the_top landmarks_sequence key_positions;
  let errors := append_if over_the_top errors "over_the_top" in
  max_weight_shift ← get_num weight_metrics "max_weight_shift" 0;
  let errors :=
    append_if (Rltb max_weight_shift (Config.weight_shift_threshold / 2))
              errors "reverse_pivot" in
  rotation_sequence ← get_num rotation_metrics "rotation_sequence_score" 0;
  let errors := append_if (Rltb rotation_sequence 50) errors "flat_shoulder" in
  weight_score ← get_num weight_metrics "weight_transfer_score" 0;
  let errors := append_if (Rltb weight_score 60) errors "sway" in
  Some errors.

Definition _get_angle (p1 p2 p3 : point) : R :=
  let v1 := vsub (xy p1) (xy p2) in
  let v2 := vsub (xy p3) (xy p2) in
  let cos_angle :=
    (fst v1 * fst v2 + snd v1 * snd v2) / (norm2 v1 * norm2 v2 + eps) in
  degrees (acos (clip cos_angle (-1) 1)).

(** The wrist angle measured at one key frame: [None] when the frame index is
    past the end of the sequence or the frame is missing, in which case the
    entry of the results dictionary keeps its initial 0. *)
Definition wrist_angle_at (landmarks_sequence : landmarks) (frame_idx : Z)
  : option (option R) :=
  if (frame_idx <? Z.of_nat (length landmarks_sequence))%Z then
    lm ← Py.getitem landmarks_sequence frame_idx;
    match lm with
    | None => Some None
    | Some rows =>
        shoulder ← Py.getitem rows Config.right_shoulder;
        elbow ← Py.getitem rows Config.right_elbow;
        wrist ← Py.getitem rows Config.right_wrist;
        Some (Some (_get_angle shoulder elbow wrist))
    end
  else Some None.

(** [max(0, 100 - (error / tolerance) * 50)] for one wrist angle. *)
Definition wrist_position_score (angle ideal : R) : R :=
  Rmax 0 (100 - Rabs (angle - ideal) / Config.wrist_tolerance * 50).

Definition calculate_wrist_angles (landmarks_sequence : landmarks)
    (key_positions : gmap string Z) : option (gmap string pyval) :=
  let n := Z.of_nat (length landmarks_sequence) in
  let top_frame := get_pos key_positions "top" 0%Z in
  let impact_frame := get_pos key_positions "impact" (n - 1)%Z in
  at_top ← wrist_angle_at landmarks_sequence top_frame;
  let backswing_wrist_angle := default 0 at_top in
  at_impact ← wrist_angle_at landmarks_sequence impact_frame;
  let impact_wrist_angle := default 0 at_impact in
  let backswing_score :=
    wrist_position_score backswing_wrist_angle
                         Config.ideal_wrist_hinge_backswing in
  let impact_score :=
    wrist_position_score impact_wrist_angle Config.ideal_wrist_hinge_impact in
  Some (<["wrist_angles" := Series []]>
          (<["backswing_wrist_angle" := Num backswing_wrist_angle]>
             (<["impact_wrist_angle" := Num impact_wrist_angle]>
                (<["wrist_hinge_score" :=
                     Num ((backswing_score + impact_score) / 2)]> ∅)))).

(** [np.std]: the square root of the mean squared deviation from the mean. *)
Definition np_std (l : list R) : R :=
  let m := Rsum l / INR (length l) in
  sqrt (Rsum (map (fun x => Rabs (x - m) * Rabs (x - m)) l) / INR (length l)).

(** [np.mean(positions, axis=0)]. *)
Definition centroid (positions : list point) : point :=
  (Rsum (map px positions) / INR (length positions),
   Rsum (map py positions) / INR (length positions),
   Rsum (map pz positions) / INR (length positions)).

(** [np.dot] of two 3-vectors. *)
Definition dot3 (a b : point) : R := px a * px b + py a * py b + pz a * pz b.

(** The entries appended to [wrist_positions] for one frame (one or none). *)
Definition wrist_position (lm : option frame) : option (list point) :=
  match lm with
  | Some rows =>
      if (Config.right_wrist <? Z.of_nat (length rows))%Z then
        wrist ← Py.getitem rows Config.right_wrist;
        Some [wrist]
      else Some []
  | None => Some []
  end.

(** The dictionary returned when fewer than three wrist positions exist. *)
Definition swing_plane_zero : gmap string pyval :=
  <["swing_plane_angle" := Num 0]>
    (<["plane_consistency" := Num 0]> (<["plane_deviation" := Num 0]> ∅)).

Section SwingPlane.

(** The plane fit is delegated to NumPy: [svd_normal centered] stands for
    [vh[2]], the last row of the third factor of [np.linalg.svd(centered)].
    (The list [shoulder_positions] the method also fills is never read.) *)
Variable svd_normal : list point -> point.

Definition calculate_swing_plane (landmarks_sequence : landmarks)
    (key_positions : gmap string Z) : option (gmap string pyval) :=
  let n := Z.of_nat (length landmarks_sequence) in
  let address_frame := get_pos key_positions "address" 0%Z in
  let finish_frame := get_pos key_positions "finish" (n - 1)%Z in
  frames ← frames_in_range landmarks_sequence address_frame finish_frame;
  found ← mapM wrist_position frames;
  let wrist_positions := concat found in
  if (length wrist_positions <? 3)%nat then Some swing_plane_zero
  else
    let c := centroid wrist_positions in
    let centered := map (fun p => Detector.point_sub p c) wrist_positions in
    let normal := svd_normal centered in
    let horizontal : point := (1, 0, 0) in
    let plane_angle :=
      degrees (acos (Rabs (dot3 normal horizontal)
                     / (Detector.row_norm normal + eps))) in
    let distances := map (fun p => Rabs (dot3 p normal)) centered in
    let plane_deviation := np_std distances in
    let plane_consistency := Rmax 0 (100 - plane_deviation * 1000) in
    Some (<["swing_plane_angle" := Num plane_angle]>
            (<["plane_consistency" := Num plane_consistency]>
               (<["plane_deviation" := Num plane_deviation]>
                  (<["ideal_angle" := Num Config.ideal_swing_plane_angle]>
                     (<["angle_error" :=
                          Num (Rabs (plane_angle
                                     - Config.ideal_swing_plane_angle))]> ∅))))).

End SwingPlane.

End Analyzer.

(** ** swing_scorer.py *)

Module Scorer.

#[local] Open Scope R_scope.

(** [not metrics]: the dictionary is empty. *)
Definition is_empty (metrics : gmap string pyval) : bool :=
  (size metrics =? 0)%nat.

Definition _score_swing_plane (metrics : gmap string pyval) : option R :=
  if is_empty metrics then Some 0
  else
    consistency_score ← get_num metrics "plane_consistency" 0;
    angle_error ← get_num metrics "angle_error" 90;
    let angle_score :=
      Rmax 0 (100 - angle_error / Config.swing_plane_tolerance * 50) in
    Some (consistency_score * (6 / 10) + angle_score * (4 / 10)).

Definition _score_in_range (value ideal tolerance : R) : R :=
  let error := Rabs (value - ideal) in
  if Rleb error tolerance then 100 - error / tolerance * 30
  else Rmax 0 (70 - (error - tolerance) / tolerance * 70).

Definition _score_rotation (metrics : gmap string pyval) : option R :=
  if is_empty metrics then Some 0
  else
    sequence_score ← get_num metrics "rotation_sequence_score" 0;
    max_shoulder ← get_num metrics "max_shoulder_rotation" 0;
    max_hip ← get_num metrics "max_hip_rotation" 0;
    let shoulder_score :=
      _score_in_range max_shoulder Config.ideal_shoulder_rotation
                      Config.rotation_tolerance in
    let hip_score :=
      _score_in_range max_hip Config.ideal_hip_rotation
                      Config.rotation_tolerance in
    Some (sequence_score * (4 / 10) + shoulder_score * (3 / 10)
          + hip_score * (3 / 10)).

Definition _score_downswing_alignment
    (rotation_metrics weight_metrics : gmap string pyval) : option R :=
  rotation_score ← get_num rotation_metrics "rotation_sequence_score" 0;
  weight_score ← get_num weight_metrics "weight_transfer_score" 0;
  Some (rotation_score * (6 / 10) + weight_score * (4 / 10)).

Definition _get_grade (score : R) : string :=
  if Rleb 90 score then "A"
  else if Rleb 80 score then "B"
  else if Rleb 70 score then "C"
  else if Rleb 60 score then "D"
  else "F".

(** Rounding to the nearest integer, a tie going to the even neighbour. *)
Definition round_half_even (y : R) : Z :=
  let f := Int_part y in
  let r := y - IZR f in
  if Rltb r (1 / 2) then f
  else if Rltb (1 / 2) r then (f + 1)%Z
  else if Z.even f then f else (f + 1)%Z.

(** [round(x, 2)]. *)
Definition round2 (x : R) : R := IZR (round_half_even (x * 100)) / 100.

(** The weighted sum of the six component scores. *)
Definition weighted_sum
    (plane_score rotation_score downswing_score wrist_score weight_score
     tempo_score : R) : R :=
  plane_score * Config.w_swing_plane_consistency
  + rotation_score * Config.w_rotation_quality
  + downswing_score * Config.w_downswing_alignment
  + wrist_score * Config.w_wrist_hinge
  + weight_score * Config.w_weight_transfer
  + tempo_score * Config.w_tempo.

(** The six component scores, in the order the method computes them. *)
Definition component_scores_of
    (swing_plane_metrics rotation_metrics weight_transfer_metrics
     wrist_metrics tempo_metrics : gmap string pyval)
  : option (R * R * R * R * R * R) :=
  plane_score ← _score_swing_plane swing_plane_metrics;
  rotation_score ← _score_rotation rotation_metrics;
  downswing_score ←
    _score_downswing_alignment rotation_metrics weight_transfer_metrics;
  wrist_score ← get_num wrist_metrics "wrist_hinge_score" 0;
  weight_score ← get_num weight_transfer_metrics "weight_transfer_score" 0;
  tempo_score ← get_num tempo_metrics "tempo_score" 0;
  Some (plane_score, rotation_score, downswing_score, wrist_score,
        weight_score, tempo_score).

(** The numeric part of the dictionary returned by [calculate_swing_score]
    (the two lists of feedback sentences are texts derived from the component
    scores and are left out). *)
Record ScoreResult := {
  overall_score : R;
  component_scores : gmap string R;
  grade : string
}.

Definition calculate_swing_score
    (swing_plane_metrics rotation_metrics weight_transfer_metrics
     wrist_metrics tempo_metrics : gmap string pyval) : option ScoreResult :=
  scores ← component_scores_of swing_plane_metrics rotation_metrics
              weight_transfer_metrics wrist_metrics tempo_metrics;
  let '(plane_score, rotation_score, downswing_score, wrist_score,
        weight_score, tempo_score) := scores in
  let overall :=
    weighted_sum plane_score rotation_score downswing_score wrist_score
                 weight_score tempo_score in
  Some {| overall_score := round2 overall;
          component_scores :=
            <["swing_plane_consistency" := round2 plane_score]>
              (<["rotation_quality" := round2 rotation_score]>
                 (<["downswing_alignment" := round2 downswing_score]>
                    (<["wrist_hinge" := round2 wrist_score]>
                       (<["weight_transfer" := round2 weight_score]>
                          (<["tempo" := round2 tempo_score]> ∅)))));
          grade := _get_grade overall |}.

End Scorer.

(** ** swing_detector.py: tempo *)

Module Tempo.

#[local] Open Scope R_scope.

Definition _score_tempo (ratio : R) : R :=
  let ideal_ratio := 3 in
  let deviation := Rabs (ratio - ideal_ratio) in
  Rmax 0 (100 - deviation * 20).

(** [backswing_frames / max(downswing_frames, 1)]. *)
Definition tempo_ratio_of (backswing_frames downswing_frames : Z) : R :=
  IZR backswing_frames / IZR (Z.max downswing_frames 1).

Definition analyze_tempo (landmarks_sequence : landmarks)
    (swing_range : Z * Z) (key_positions : gmap string Z)
  : gmap string pyval :=
  let '(start, end_) := swing_range in
  let total_frames := (end_ - start)%Z in
  let backswing_frames :=
    (get_pos key_positions "top" start
     - get_pos key_positions "address" start)%Z in
  let downswing_frames :=
    (get_pos key_positions "impact" end_
     - get_pos key_positions "top" start)%Z in
  let tempo_ratio := tempo_ratio_of backswing_frames downswing_frames in
  <["total_frames" := Num (IZR total_frames)]>
    (<["backswing_frames" := Num (IZR backswing_frames)]>
       (<["downswing_frames" := Num (IZR downswing_frames)]>
          (<["tempo_ratio" := Num tempo_ratio]>
             (<["tempo_score" := Num (_score_tempo tempo_ratio)]> ∅)))).

End Tempo.

(** ** swing_scorer.py: the feedback sentences *)

Module Feedback.

#[local] Open Scope R_scope.

(** [f"{score:.0f}"]: the nearest integer, a tie going to the even neighbour,
    in decimal; a negative score that rounds to zero prints as [-0]. *)
Definition format_0f (score : R) : string :=
  let z := Scorer.round_half_even score in
  if Rltb score 0 && (z =? 0)%Z then "-0" else pretty z.

(** [sorted(items, key=lambda x: x[1])] on the items of a dictionary, kept in
    insertion order: a stable sort by score.  [before a b] tells that an
    entry of score [a] stays ahead of an entry of score [b] that preceded it
    in the input; entries of equal score keep their order, also with
    [reverse=True]. *)
Fixpoint insert_by (before : R -> R -> bool) (x : string * R)
    (l : list (string * R)) : list (string * R) :=
  match l with
  | [] => [x]
  | y :: l' =>
      if before (snd y) (snd x) then y :: insert_by before x l' else x :: l
  end.

Definition sorted_by (before : R -> R -> bool) (items : list (string * R))
  : list (string * R) :=
  fold_right (insert_by before) [] items.

(** [messages.get(component, "")]. *)
Definition lookup_message (messages : list (string * string))
    (component : string) : string :=
  match List.find (fun kv => String.eqb (fst kv) component) messages with
  | Some kv => snd kv
  | None => ""
  end.

Definition _get_strength_message (component : string) (score : R) : string :=
  let shown := " (" +:+ format_0f score +:+ "/100)" in
  lookup_message
    [ ("swing_plane_consistency",
       "Excellent swing plane consistency" +:+ shown);
      ("rotation_quality", "Strong body rotation mechanics" +:+ shown);
      ("downswing_alignment", "Well-aligned downswing path" +:+ shown);
      ("wrist_hinge", "Good wrist hinge timing" +:+ shown);
      ("weight_transfer", "Effective weight transfer" +:+ shown);
      ("tempo", "Smooth swing tempo" +:+ shown) ]
    component.

Definition _get_weakness_message (component : string) (score : R) : string :=
  let shown := " (" +:+ format_0f score +:+ "/100)" in
  lookup_message
    [ ("swing_plane_consistency",
       "Work on maintaining consistent swing plane - try half swings" +:+ shown);
      ("rotation_quality",
       "Improve body rotation - focus on shoulder turn over hip turn" +:+ shown);
      ("downswing_alignment",
       "Improve downswing path - practice inside-out swing path drills"
       +:+ shown);
      ("wrist_hinge",
       "Better wrist hinge needed - practice wrist cock drills" +:+ shown);
      ("weight_transfer",
       "Increase weight transfer - practice shift drills from back to front foot"
       +:+ shown);
      ("tempo",
       "Adjust swing tempo - aim for 3:1 backswing to downswing ratio"
       +:+ shown) ]
    component.

(** [if msg: out.append(msg)]. *)
Definition append_message (msg : string) : list string :=
  if String.eqb msg "" then [] else [msg].

Definition _identify_strengths (component_scores : list (string * R))
  : list string :=
  let sorted_components :=
    sorted_by (fun a b => Rltb b a) component_scores in
  let strengths :=
    flat_map (fun cs =>
                if Rleb 80 (snd cs)
                then append_message (_get_strength_message (fst cs) (snd cs))
                else [])
             (firstn 3 sorted_components) in
  match strengths with
  | [] => ["Continue practicing to develop strengths"]
  | _ => strengths
  end.

Definition _identify_weaknesses (component_scores : list (string * R))
  : list string :=
  let sorted_components := sorted_by Rltb component_scores in
  let weaknesses :=
    flat_map (fun cs =>
                if Rltb (snd cs) 70
                then append_message (_get_weakness_message (fst cs) (snd cs))
                else [])
             (firstn 3 sorted_components) in
  match weaknesses with
  | [] => ["Great swing! Keep maintaining your form"]
  | _ => weaknesses
  end.

(** The dictionary of unrounded component scores that [calculate_swing_score]
    hands to [_identify_strengths] and [_identify_weaknesses], in insertion
    order. *)
Definition component_items (scores : R * R * R * R * R * R)
  : list (string * R) :=
  let '(plane_score, rotation_score, downswing_score, wrist_score,
        weight_score, tempo_score) := scores in
  [ ("swing_plane_consistency", plane_score);
    ("rotation_quality", rotation_score);
    ("downswing_alignment", downswing_score);
    ("wrist_hinge", wrist_score);
    ("weight_transfer", weight_score);
    ("tempo", tempo_score) ].

(** The entries [strengths] and [areas_for_improvement] of the dictionary
    returned by [calculate_swing_score]. *)
Definition feedback_of
    (swing_plane_metrics rotation_metrics weight_transfer_metrics
     wrist_metrics tempo_metrics : gmap string pyval)
  : option (list string * list string) :=
  scores ← Scorer.component_scores_of swing_plane_metrics rotation_metrics
              weight_transfer_metrics wrist_metrics tempo_metrics;
  Some (_identify_strengths (component_items scores),
        _identify_weaknesses (component_items scores)).

End Feedback.

(** ** pose_estimator.py: joint angles *)

Module PoseEstimator.

#[local] Open Scope R_scope.

Definition get_joint_angle (landmarks : option frame)
    (point1_idx point2_idx point3_idx : Z) : option R :=
  match landmarks with
  | None => Some 0
  | Some rows =>
      if (Z.of_nat (length rows)
          <=? Z.max (Z.max point1_idx point2_idx) point3_idx)%Z
      then Some 0
      else
        p1 ← Py.getitem rows point1_idx;
        p2 ← Py.getitem rows point2_idx;
        p3 ← Py.getitem rows point3_idx;
        let v1 := Analyzer.vsub (Analyzer.xy p1) (Analyzer.xy p2) in
        let v2 := Analyzer.vsub (Analyzer.xy p3) (Analyzer.xy p2) in
        let cos_angle :=
          (fst v1 * fst v2 + snd v1 * snd v2)
          / (Analyzer.norm2 v1 * Analyzer.norm2 v2 + Analyzer.eps) in
        let angle := acos (clip cos_angle (-1) 1) in
        Some (Analyzer.degrees angle)
  end.

Definition calculate_body_angles (landmarks : option frame)
  : option (gmap string R) :=
  match landmarks with
  | None => Some ∅
  | Some rows =>
      right_elbow ← get_joint_angle landmarks Config.right_shoulder
                       Config.right_elbow Config.right_wrist;
      left_elbow ← get_joint_angle landmarks Config.left_shoulder
                      Config.left_elbow Config.left_wrist;
      right_knee ← get_joint_angle landmarks Config.right_hip
                      Config.right_knee Config.right_ankle;
      left_knee ← get_joint_angle landmarks Config.left_hip
                     Config.left_knee Config.left_ankle;
      let angles : gmap string R :=
        <["left_knee" := left_knee]>
          (<["right_knee" := right_knee]>
             (<["left_elbow" := left_elbow]>
                (<["right_elbow" := right_elbow]> ∅))) in
      if (Z.max Config.left_hip Config.left_shoulder
          <? Z.of_nat (length rows))%Z
      then
        left_hip ← Py.getitem rows Config.left_hip;
        right_hip ← Py.getitem rows Config.right_hip;
        let hip_center :=
          ((px left_hip + px right_hip) / 2, (py left_hip + py right_hip) / 2) in
        left_shoulder ← Py.getitem rows Config.left_shoulder;
        right_shoulder ← Py.getitem rows Config.right_shoulder;
        let shoulder_center :=
          ((px left_shoulder + px right_shoulder) / 2,
           (py left_shoulder + py right_shoulder) / 2) in
        let spine_vector := Analyzer.vsub shoulder_center hip_center in
        let cos_angle :=
          (fst spine_vector * 0 + snd spine_vector * 1)
          / (Analyzer.norm2 spine_vector + Analyzer.eps) in
        Some (<["spine_angle" :=
                  90 - Analyzer.degrees (acos (clip cos_angle (-1) 1))]> angles)
      else Some angles
  end.

End PoseEstimator.

(** ** smartswing_pipeline.py: the analysis steps of [analyze_video] *)

Module Pipeline.

(** What steps 2 to 5 of [analyze_video] compute from the landmark sequence
    (video decoding, printing, rendering and the session store are left
    out). *)
Record analysis := {
  swing_segment : Z * Z;
  key_positions : gmap string Z;
  swing_plane : gmap string pyval;
  rotation : gmap string pyval;
  weight_transfer : gmap string pyval;
  wrist : gmap string pyval;
  tempo : gmap string pyval;
  errors : list string;
  motion_energy : list R;
  score_results : Scorer.ScoreResult
}.

(** The two ways [analyze_video] returns: [{'error': 'No swing detected'}] or
    the analysis results. *)
Inductive outcome : Type :=
| NoSwingDetected
| Analysed (results : analysis).

Section Analyze.

Variable svd_normal : list point -> point.

Definition analyze_landmarks (landmarks_sequence : landmarks)
  : option outcome :=
  energy ← Detector.calculate_motion_energy landmarks_sequence;
  let swing_segments :=
    Segmenter.detect_swing_phases Segmenter.default_detector energy in
  match swing_segments with
  | [] => Some NoSwingDetected
  | (swing_start, swing_end, _) :: _ =>
      let kp :=
        Detector.identify_swing_positions landmarks_sequence
                                          (swing_start, swing_end) in
      plane ← Analyzer.calculate_swing_plane svd_normal landmarks_sequence kp;
      rot ← Analyzer.calculate_rotation_metrics landmarks_sequence kp;
      weight ← Analyzer.calculate_weight_transfer landmarks_sequence kp;
      wr ← Analyzer.calculate_wrist_angles landmarks_sequence kp;
      let tp :=
        Tempo.analyze_tempo landmarks_sequence (swing_start, swing_end) kp in
      errs ← Analyzer.detect_common_errors landmarks_sequence kp rot weight;
      scores ← Scorer.calculate_swing_score plane rot weight wr tp;
      Some (Analysed {| swing_segment := (swing_start, swing_end);
                        key_positions := kp;
                        swing_plane := plane;
                        rotation := rot;
                        weight_transfer := weight;
                        wrist := wr;
                        tempo := tp;
                        errors := errs;
                        motion_energy := energy;
                        score_results := scores |})
  end.

End Analyze.

End Pipeline.

(** ** Predicates used to state the properties *)

Module Props.

Import Segmenter.

(** The duration window of a detector. *)
Definition valid_duration {E} (self : SwingDetector E) (seg : segment) : Prop :=
  min_swing_duration self <= seg_end seg - seg_start seg
  /\ seg_end seg - seg_start seg <= max_swing_duration self.

(** Frame [f] lies in the closed range of a segment. *)
Definition covers (seg : segment) (f : Z) : Prop :=
  seg_start seg <= f /\ f <= seg_end seg.

(** The frame at which the bound of a segment list is measured: the start of
    the swing in progress, or else the frame about to be read. *)
Definition horizon (i : Z) (st : state) : Z :=
  if in_swing st then swing_start st else i.

(** What the scan maintains about the order of the emitted segments. *)
Definition ordered {E} (self : SwingDetector E) (i : Z) (st : state) : Prop :=
  (in_swing st = true -> swing_start st < i)
  /\ Forall (fun seg =>
               seg_start seg < seg_end seg + stillness_frames self
               /\ seg_end seg + stillness_frames self + 1 <= horizon i st)
            (swings st)
  /\ (forall (a b : nat) (s1 s2 : segment),
        (a < b)%nat -> swings st !! a = Some s1 -> swings st !! b = Some s2 ->
        seg_end s1 + stillness_frames self + 1 <= seg_start s2).

(** A small detector over rational energies, used to run the scan. *)
Definition demo_detector : SwingDetector QArith_base.Q :=
  {| motion_threshold := QArith_base.Qmake 5 1;
     stillness_frames := 2;
     min_swing_duration := 2;
     max_swing_duration := 10 |}.

Definition demo_energy : list QArith_base.Q :=
  map (fun z => QArith_base.Qmake z 1) [0; 6; 6; 6; 0; 0; 0; 6; 6; 6; 6; 0; 0; 7; 5; 1].

(** Every detected frame of the sequence is an array of [rows] landmarks, as
    the pose estimator delivers them (33 rows). *)
Definition frames_have_rows (rows : nat) (landmarks_sequence : landmarks) : Prop :=
  Forall (fun lm => match lm with
                    | Some f => length f = rows
                    | None => True
                    end) landmarks_sequence.

(** A body whose 33 landmarks all sit at the same point. *)
Definition body_at (p : point) : option frame := Some (repeat p 33).

(** Four frames at rest, one step of one unit along x, then at rest again. *)
Definition one_step_sequence : landmarks :=
  map body_at [ (0, 0, 0); (0, 0, 0); (0, 0, 0); (0, 0, 0);
                (1, 0, 0); (1, 0, 0); (1, 0, 0) ]%R.

(** Degrees to radians. *)
Definition radians (deg : R) : R := (deg * (PI / 180))%R.

(** The vector [v] turned counter-clockwise by the angle [theta] (radians), in
    the usual orientation of the plane: (1, 0) turned by a quarter turn is
    (0, 1). *)
Definition rotate (theta : R) (v : Analyzer.vec2) : Analyzer.vec2 :=
  (cos theta * fst v - sin theta * snd v,
   sin theta * fst v + cos theta * snd v)%R.

(** The factor by which the epsilon-guarded normalisation of [v] (twice)
    scales a product with [v]: (|v| / (|v| + eps))^2. *)
Definition shrink (v : Analyzer.vec2) : R :=
  (Analyzer.norm2 v / (Analyzer.norm2 v + Analyzer.eps)
   * (Analyzer.norm2 v / (Analyzer.norm2 v + Analyzer.eps)))%R.

(** No frame of the sequence has a detected pose. *)
Definition all_missing (landmarks_sequence : landmarks) : Prop :=
  Forall (fun lm => lm = None) landmarks_sequence.

(** Reading a list of energies at an integer frame index. *)
Definition energy_at_frame {E} (motion_energy : list E) (j : Z) : option E :=
  if (0 <=? j)%Z then nth_error motion_energy (Z.to_nat j) else None.

(** What the scan knows about the frames around a segment: it starts at a
    frame above the threshold, ends at a frame that is not a still frame, and
    the [stillness_frames] frames after its end are all below the threshold
    and inside the sequence. *)
Definition well_delimited {E} `{Energy E} (self : SwingDetector E)
    (motion_energy : list E) (seg : segment) : Prop :=
  0 <= seg_start seg <= seg_end seg
  /\ seg_end seg + stillness_frames self < Z.of_nat (length motion_energy)
  /\ (exists x, energy_at_frame motion_energy (seg_start seg) = Some x
                /\ energy_gt x (motion_threshold self) = true)
  /\ (exists x, energy_at_frame motion_energy (seg_end seg) = Some x
                /\ (energy_gt x (motion_threshold self) = true
                    \/ energy_lt x (motion_threshold self) = false))
  /\ (forall j, seg_end seg < j <= seg_end seg + stillness_frames self ->
        exists x, energy_at_frame motion_energy j = Some x
                  /\ energy_lt x (motion_threshold self) = true).

(** The state of the scan about to read frame [i], as far as the frames read
    so far determine it. *)
Definition tracking {E} `{Energy E} (self : SwingDetector E)
    (motion_energy : list E) (i : Z) (st : state) : Prop :=
  0 <= i <= Z.of_nat (length motion_energy)
  /\ Forall (fun seg => well_delimited self motion_energy seg
                        /\ seg_end seg + stillness_frames self < i)
            (swings st)
  /\ (in_swing st = true ->
      0 <= stillness_counter st < stillness_frames self
      /\ 0 <= swing_start st
      /\ swing_start st + stillness_counter st < i
      /\ (exists x, energy_at_frame motion_energy (swing_start st) = Some x
                    /\ energy_gt x (motion_threshold self) = true)
      /\ (exists x, energy_at_frame motion_energy
                      (i - stillness_counter st - 1) = Some x
                    /\ (energy_gt x (motion_threshold self) = true
                        \/ energy_lt x (motion_threshold self) = false))
      /\ (forall j, i - stillness_counter st <= j < i ->
            exists x, energy_at_frame motion_energy j = Some x
                      /\ energy_lt x (motion_threshold self) = true)).

(** The list [wrist_path_x] that [_check_over_the_top] builds from the
    frames between top and impact. *)
Definition wrist_path_x (landmarks_sequence : landmarks)
    (key_positions : gmap string Z) : option (list R) :=
  let n := Z.of_nat (length landmarks_sequence) in
  frames ← Analyzer.frames_in_range landmarks_sequence
             (get_pos key_positions "top" 0%Z)
             (get_pos key_positions "impact" (n - 1)%Z);
  offsets ← mapM Analyzer.wrist_offset frames;
  Some (concat offsets).

(** The five labels in the order [detect_common_errors] appends them. *)
Definition error_labels : list string :=
  ["early_extension"; "over_the_top"; "reverse_pivot"; "flat_shoulder";
   "sway"]%string.

(** A 17-row frame with the right wrist (row 16) at [x] on the x axis and
    every other landmark at the origin. *)
Definition wrist_at (x : R) : option frame :=
  Some (repeat (0, 0, 0)%R 16 ++ [(x, 0, 0)%R]).

(** Two energies lie on the same side of their thresholds: they compare alike
    by [<] and by [>]. *)
Definition same_side {E F} `{Energy E} `{Energy F} (t : E) (u : F)
    (x : E) (y : F) : Prop :=
  energy_lt x t = energy_lt y u /\ energy_gt x t = energy_gt y u.

(** The default detector with its threshold read as a rational. *)
Definition rational_detector : SwingDetector QArith_base.Q :=
  {| motion_threshold := QArith_base.Qmake 5 1;
     stillness_frames := Config.stillness_frames;
     min_swing_duration := Config.min_swing_duration;
     max_swing_duration := Config.max_swing_duration |}.

(** A body at rest for 5 frames, then stepping one unit back and forth along
    x for 35 frames, then at rest for 20 frames. *)
Definition swing_points : list point :=
  (repeat (0, 0, 0) 5 ++ concat (repeat [(1, 0, 0); (0, 0, 0)] 17)
   ++ repeat (1, 0, 0) 21)%R.

Definition swing_sequence : landmarks := map body_at swing_points.

(** The energies of [swing_sequence] before smoothing. *)
Definition swing_raw_energy : list R :=
  (repeat 0 5 ++ repeat 100 35 ++ repeat 0 20)%R.

(** The six components that [calculate_swing_score] scores. *)
Definition known_components : list string :=
  ["swing_plane_consistency"; "rotation_quality"; "downswing_alignment";
   "wrist_hinge"; "weight_transfer"; "tempo"]%string.

(** The components whose strength, respectively weakness, sentence is
    reported: among the three highest scores those of at least 80, among the
    three lowest those below 70. *)
Definition reported_strong (component_scores : list (string * R))
  : list (string * R) :=
  List.filter (fun cs => Rleb 80 (snd cs))
    (firstn 3 (Feedback.sorted_by (fun a b => Rltb b a) component_scores)).

Definition reported_weak (component_scores : list (string * R))
  : list (string * R) :=
  List.filter (fun cs => Rltb (snd cs) 70)
    (firstn 3 (Feedback.sorted_by Rltb component_scores)).

(** [out if out else [fallback]]. *)
Definition or_fallback (fallback : string) (out : list string) : list string :=
  match out with
  | [] => [fallback]
  | _ => out
  end.

(** Every detected frame of the sequence shows the same pose [f] (frames
    without a detected pose may lie in between). *)
Definition frozen (f : frame) (landmarks_sequence : landmarks) : Prop :=
  Forall (fun lm => lm = Some f \/ lm = None) landmarks_sequence.

End Props.

(** * Properties *)

(** ** The segmenter *)

Module SegmenterFacts.

Import Segmenter Props.

Section Facts.
Context {E : Type} `{Energy E}.
Variable self : SwingDetector E.

(** Any property of (index, state) kept by one iteration is kept by the loop. *)
Lemma scan_preserves (P : Z -> state -> Prop) :
  (forall i st e, P i st -> P (i + 1) (step self st i e)) ->
  forall l i st, P i st -> P (i + Z.of_nat (length l)) (scan self i st l).
Proof.
  intros Hstep l. induction l as [|e l IH]; intros i st HP; simpl.
  - now rewrite Z.add_0_r.
  - replace (i + Z.of_nat (S (length l))) with (i + 1 + Z.of_nat (length l)) by lia.
    apply IH, Hstep, HP.
Qed.

Lemma step_valid_duration st i e :
  Forall (valid_duration self) (swings st) ->
  Forall (valid_duration self) (swings (step self st i e)).
Proof.
  intros Hall. unfold step.
  repeat case_match; simpl; try assumption.
  apply Forall_app; split; [assumption|].
  constructor; [|constructor].
  unfold valid_duration, seg_start, seg_end; simpl.
  match goal with Hc : _ && _ = true |- _ => apply andb_prop in Hc; destruct Hc end.
  lia.
Qed.

Lemma step_ordered st i e :
  ordered self i st -> ordered self (i + 1) (step self st i e).
Proof.
  intros (Hstart & Hall & Hpair). unfold ordered, step, horizon in *.
  destruct (in_swing st) eqn:Hin; simpl.
  - specialize (Hstart eq_refl).
    destruct (energy_lt e (motion_threshold self));
      [destruct (stillness_frames self <=? stillness_counter st + 1)|];
      simpl; try (split; [intros _; lia | split; assumption]).
    split; [discriminate|].
    destruct ((min_swing_duration self <=? _) && _).
    + split.
      * apply Forall_app; split.
        -- eapply Forall_impl; [exact Hall|]. simpl; intros; lia.
        -- constructor; [|constructor]. unfold seg_start, seg_end; simpl. lia.
      * intros a b s1 s2 Hab Ha Hb.
        apply lookup_snoc_Some in Hb as [[Hlen Hb]|[Hlen <-]];
          apply lookup_snoc_Some in Ha as [[Hlen' Ha]|[Hlen' <-]]; try lia.
        -- exact (Hpair a b s1 s2 Hab Ha Hb).
        -- rewrite Forall_forall in Hall.
           apply list_elem_of_lookup_2, Hall in Ha.
           unfold seg_start at 1; simpl. lia.
    + split; [|assumption].
      eapply Forall_impl; [exact Hall|]. simpl; intros; lia.
  - destruct (energy_gt e (motion_threshold self)); simpl; rewrite ?Hin.
    + split; [intros _; lia|]. split; [|assumption].
      eapply Forall_impl; [exact Hall|]. simpl; intros; lia.
    + split; [discriminate|]. split; [|assumption].
      eapply Forall_impl; [exact Hall|]. simpl; intros; lia.
Qed.

Lemma init_ordered : ordered self 0 init.
Proof.
  unfold ordered, init; simpl.
  split; [discriminate|]. split; [constructor|].
  intros a b s1 s2 _ Hl. rewrite lookup_nil in Hl. discriminate.
Qed.

Lemma final_ordered (motion_energy : list E) :
  ordered self (Z.of_nat (length motion_energy)) (final_state self motion_energy).
Proof.
  unfold final_state.
  apply (scan_preserves (ordered self) (fun i st e => step_ordered st i e)
           motion_energy 0 init init_ordered).
Qed.

Lemma step_stays_in_swing st i e :
  in_swing (step self st i e) = true ->
  swings (step self st i e) = swings st
  /\ ((in_swing st = true /\ swing_start (step self st i e) = swing_start st)
      \/ (in_swing st = false /\ swing_start (step self st i e) = i)).
Proof.
  unfold step. destruct (in_swing st) eqn:Hin; simpl.
  - destruct (energy_lt e (motion_threshold self));
      [destruct (stillness_frames self <=? stillness_counter st + 1)|];
      simpl; intros Hs; try discriminate; split; auto.
  - destruct (energy_gt e (motion_threshold self)); simpl; intros Hs.
    + split; auto.
    + congruence.
Qed.

(** A scan that ends inside a swing either was inside that swing all along, or
    entered it at some frame of the list and closed nothing afterwards. *)
Lemma scan_open_swing l : forall i st,
  (in_swing st = true -> swing_start st < i) ->
  in_swing (scan self i st l) = true ->
  (in_swing st = true
   /\ swing_start (scan self i st l) = swing_start st
   /\ swings (scan self i st l) = swings st)
  \/ (exists l1 e l2,
        l = l1 ++ e :: l2
        /\ swing_start (scan self i st l) = i + Z.of_nat (length l1)
        /\ in_swing (scan self i st l1) = false
        /\ swings (scan self i st l1) = swings (scan self i st l)).
Proof.
  induction l as [|e l IH]; intros i st Hlt Hfin; simpl in *.
  - left. auto.
  - destruct (IH (i + 1) (step self st i e)) as [(Hin & Hs & Hsw)|Hsplit].
    + intros Hin. apply step_stays_in_swing in Hin as [_ [[Hin ->]|[_ ->]]]; [|lia].
      specialize (Hlt Hin). lia.
    + exact Hfin.
    + apply step_stays_in_swing in Hin as [Hsw' [[Hin Hs']|[Hin Hs']]].
      * left. repeat split; congruence.
      * right. exists [], e, l. simpl. rewrite Z.add_0_r.
        repeat split; congruence.
    + destruct Hsplit as (l1 & e' & l2 & -> & Hs & Hidle & Hsw).
      right. exists (e :: l1), e', l2. simpl.
      repeat split; try assumption. rewrite Hs. lia.
Qed.

(** C5. Every segment emitted by [detect_swing_phases] has a duration
    [end - start] inside the window [min_swing_duration, max_swing_duration];
    and when a swing is closed (the stillness counter reaches
    [stillness_frames]) with a duration outside the window, nothing is
    appended to the list of swings and the scan is back in the idle state. *)
Theorem detect_swing_phases_duration (motion_energy : list E) :
  Forall (valid_duration self) (detect_swing_phases self motion_energy)
  /\ (forall st i e,
        in_swing st = true ->
        energy_lt e (motion_threshold self) = true ->
        stillness_frames self <= stillness_counter st + 1 ->
        ~ valid_duration self
            (swing_start st, i - stillness_frames self, "full_swing"%string) ->
        swings (step self st i e) = swings st
        /\ in_swing (step self st i e) = false).
Proof.
  split.
  - unfold detect_swing_phases, final_state.
    apply (scan_preserves (fun _ st => Forall (valid_duration self) (swings st))
             (fun i st e => step_valid_duration st i e) motion_energy 0 init).
    constructor.
  - intros st i e Hin Hlt Hk Hbad. unfold step. rewrite Hin, Hlt. simpl.
    apply Z.leb_le in Hk. rewrite Hk.
    destruct ((min_swing_duration self <=? _) && _) eqn:Hv; simpl; [|auto].
    exfalso. apply Hbad. apply andb_prop in Hv as [Hlo Hhi].
    unfold valid_duration, seg_start, seg_end; simpl. lia.
Qed.

(** C6. When the sequence ends while the scan is still inside a swing, that
    swing leaves no segment: it started at a frame [s] of the sequence, the
    result is the one obtained from the frames before [s] alone, and every
    emitted segment starts before [s] and ends at least
    [stillness_frames + 1] frames before it. *)
Theorem unfinished_swing_dropped (motion_energy : list E) :
  in_swing (final_state self motion_energy) = true ->
  let s := swing_start (final_state self motion_energy) in
  0 <= s < Z.of_nat (length motion_energy)
  /\ detect_swing_phases self motion_energy
     = detect_swing_phases self (firstn (Z.to_nat s) motion_energy)
  /\ Forall (fun seg => seg_start seg < s
                        /\ seg_end seg + stillness_frames self + 1 <= s)
            (detect_swing_phases self motion_energy).
Proof.
  intros Hfin s. subst s. split; [|split].
  - destruct (scan_open_swing motion_energy 0 init) as [(Hin & _)|Hsplit];
      [discriminate | exact Hfin | discriminate |].
    destruct Hsplit as (l1 & e & l2 & -> & Hs & _).
    unfold final_state. rewrite Hs, length_app. simpl. lia.
  - destruct (scan_open_swing motion_energy 0 init) as [(Hin & _)|Hsplit];
      [discriminate | exact Hfin | discriminate |].
    destruct Hsplit as (l1 & e & l2 & -> & Hs & _ & Hsw).
    unfold detect_swing_phases, final_state. rewrite Hs, <- Hsw.
    replace (Z.to_nat (0 + Z.of_nat (length l1))) with (length l1) by lia.
    now rewrite firstn_app, Nat.sub_diag, firstn_all, firstn_O, app_nil_r.
  - destruct (final_ordered motion_energy) as (_ & Hall & _).
    unfold horizon in Hall. rewrite Hfin in Hall.
    unfold detect_swing_phases.
    eapply Forall_impl; [exact Hall|]. simpl. intros seg [? ?]. lia.
Qed.

(** C9. The segments returned by [detect_swing_phases] come in increasing
    order with a gap: a later segment starts at least [stillness_frames + 1]
    frames after the end of any earlier one; hence, for a non-negative
    [stillness_frames], it starts after that end and no frame lies in both. *)
Theorem detect_swing_phases_disjoint (motion_energy : list E)
    (a b : nat) (s1 s2 : segment) :
  (a < b)%nat ->
  detect_swing_phases self motion_energy !! a = Some s1 ->
  detect_swing_phases self motion_energy !! b = Some s2 ->
  seg_end s1 + stillness_frames self + 1 <= seg_start s2
  /\ (0 <= stillness_frames self ->
      seg_end s1 < seg_start s2 /\ forall f, ~ (covers s1 f /\ covers s2 f)).
Proof.
  intros Hab Ha Hb.
  destruct (final_ordered motion_energy) as (_ & _ & Hpair).
  pose proof (Hpair a b s1 s2 Hab Ha Hb) as Hgap.
  split; [exact Hgap|]. intros Hk. split; [lia|].
  unfold covers. intros f [[_ H1] [H2 _]]. lia.
Qed.

(** C10. A frame whose energy equals the motion threshold neither starts a
    swing nor counts as stillness: in the idle state the step changes
    nothing, and inside a swing it sets the stillness counter back to 0 and
    changes nothing else. *)
Theorem threshold_energy_is_neutral (st : state) (i : Z) (e : E) :
  energy_eq e (motion_threshold self) ->
  step self st i e
  = if in_swing st
    then {| in_swing := true; swing_start := swing_start st;
            stillness_counter := 0; swings := swings st |}
    else st.
Proof.
  intros Heq. apply energy_eq_not_lt in Heq as [Hlt Hgt].
  unfold step, energy_gt. rewrite Hlt, Hgt.
  destruct (in_swing st); reflexivity.
Qed.

End Facts.

End SegmenterFacts.

(** *** The scan on a concrete signal *)

Module SegmenterRuns.

Import Segmenter Props.

(** Two swings are emitted, the one still open at the end is not. *)
Example demo_segments :
  detect_swing_phases demo_detector demo_energy
  = [(1, 3, "full_swing"%string); (7, 10, "full_swing"%string)]
  /\ in_swing (final_state demo_detector demo_energy) = true
  /\ swing_start (final_state demo_detector demo_energy) = 13.
Proof. repeat split. Qed.

(** A burst shorter than [min_swing_duration] is closed without a segment. *)
Example short_swing_discarded :
  detect_swing_phases demo_detector
    (map (fun z => QArith_base.Qmake z 1) [0; 6; 0; 0; 0]) = [].
Proof. reflexivity. Qed.

Lemma detect_swing_phases_duration_witness :
  Forall (valid_duration demo_detector)
         (detect_swing_phases demo_detector demo_energy)
  /\ (let st := {| in_swing := true; swing_start := 4;
                   stillness_counter := 1; swings := [] |} in
      let e := QArith_base.Qmake 0 1 in
      swings (step demo_detector st 5 e) = swings st
      /\ in_swing (step demo_detector st 5 e) = false).
Proof.
  destruct (SegmenterFacts.detect_swing_phases_duration demo_detector demo_energy)
    as [Hall Hdrop].
  split; [exact Hall|].
  apply Hdrop; [reflexivity | reflexivity | simpl; lia |].
  unfold valid_duration, seg_start, seg_end; simpl. lia.
Defined.

Lemma unfinished_swing_dropped_witness :
  0 <= 13 < Z.of_nat (length demo_energy)
  /\ detect_swing_phases demo_detector demo_energy
     = detect_swing_phases demo_detector (firstn (Z.to_nat 13) demo_energy)
  /\ Forall (fun seg => seg_start seg < 13
                        /\ seg_end seg + stillness_frames demo_detector + 1 <= 13)
            (detect_swing_phases demo_detector demo_energy).
Proof.
  exact (SegmenterFacts.unfinished_swing_dropped demo_detector demo_energy
           eq_refl).
Defined.

Lemma detect_swing_phases_disjoint_witness :
  3 + 2 + 1 <= 7
  /\ (0 <= 2 ->
      3 < 7
      /\ forall f, ~ (covers (1, 3, "full_swing"%string) f
                      /\ covers (7, 10, "full_swing"%string) f)).
Proof.
  apply (SegmenterFacts.detect_swing_phases_disjoint demo_detector demo_energy
           0 1 (1, 3, "full_swing"%string) (7, 10, "full_swing"%string));
    [lia | reflexivity | reflexivity].
Defined.

Lemma threshold_energy_is_neutral_witness :
  let st := {| in_swing := true; swing_start := 4;
               stillness_counter := 1; swings := [] |} in
  step demo_detector st 9 (QArith_base.Qmake 10 2)
  = {| in_swing := true; swing_start := 4; stillness_counter := 0; swings := [] |}.
Proof.
  apply (SegmenterFacts.threshold_energy_is_neutral demo_detector
           {| in_swing := true; swing_start := 4;
              stillness_counter := 1; swings := [] |} 9 (QArith_base.Qmake 10 2)).
  reflexivity.
Defined.

End SegmenterRuns.

(** ** Key positions *)

Module KeyPositionFacts.

Import Detector.

Lemma argmin_from_bound (l : list R) : forall best (best_i i : nat),
  (best_i < i)%nat -> (argmin_from best best_i i l < i + length l)%nat.
Proof.
  induction l as [|x l IH]; intros best best_i i Hlt; simpl.
  - lia.
  - destruct (Rltb x best).
    + specialize (IH x i (S i)). lia.
    + specialize (IH best best_i (S i)). lia.
Qed.

Lemma argmin_bound (l : list R) : l <> [] -> (argmin l < length l)%nat.
Proof.
  destruct l as [|x l]; [congruence|]. intros _. simpl.
  pose proof (argmin_from_bound l x 0%nat 1%nat). lia.
Qed.

Lemma argmin_from_constant (l : list R) : forall best (best_i i : nat),
  Forall (fun x => x = best) l -> argmin_from best best_i i l = best_i.
Proof.
  induction l as [|x l IH]; intros best best_i i Hall; simpl; [reflexivity|].
  apply Forall_cons in Hall as [-> Hrest].
  unfold Rltb at 1. destruct (Rlt_dec best best) as [Hlt|_]; [lra|].
  now apply IH.
Qed.

Lemma argmin_constant (c : R) (l : list R) :
  Forall (fun x => x = c) l -> argmin l = 0%nat.
Proof.
  destruct l as [|x l]; [reflexivity|]. intros Hall; simpl.
  apply Forall_cons in Hall as [-> Hrest].
  now apply argmin_from_constant.
Qed.

(** The integer used for the impact frame is the integer part of 0.8 n. *)
Lemma impact_index_floor (n : Z) :
  (IZR (impact_index n) <= 8 / 10 * IZR n < IZR (impact_index n) + 1)%R.
Proof.
  unfold impact_index.
  pose proof (Z.div_mod (n * 8) 10 ltac:(lia)) as Hdm.
  pose proof (Z.mod_pos_bound (n * 8) 10 ltac:(lia)) as Hb.
  assert (Hn : (IZR n * 8 = 10 * IZR (n * 8 / 10) + IZR ((n * 8) mod 10))%R).
  { rewrite <- !mult_IZR, <- plus_IZR. f_equal. exact Hdm. }
  assert (H0 : (0 <= IZR ((n * 8) mod 10))%R) by (apply IZR_le; lia).
  assert (H9 : (IZR ((n * 8) mod 10) <= 9)%R) by (apply IZR_le; lia).
  lra.
Qed.

(** The dictionary returned for a non-empty segment. *)
Lemma identify_swing_positions_nonempty (seq : landmarks) (start end_ : Z) :
  let sl := Py.slice seq start (end_ + 1) in
  let n := Z.of_nat (length sl) in
  sl <> [] ->
  identify_swing_positions seq (start, end_)
  = <["address" := start + 0]>
      (<["top" := start
                  + (if (0 <? length sl / 2)%nat
                     then Z.of_nat (argmin (firstn (length sl / 2)
                                              (map wrist_height sl)))
                     else 0)]>
         (<["impact" := start + impact_index n]>
            (<["finish" := start + (n - 1)]> ∅))).
Proof.
  intros sl n Hne. unfold identify_swing_positions. fold sl.
  destruct (length sl =? 0)%nat eqn:Hlen.
  - apply Nat.eqb_eq in Hlen. destruct sl; [congruence|discriminate].
  - rewrite length_map. reflexivity.
Qed.

(** C3, as stated, fails: a segment of two frames that are both missing
    yields all four key positions, not the empty mapping. *)
Lemma all_missing_segment_counterexample :
  let seq : landmarks := [None; None] in
  Forall (fun lm => lm = None) (Py.slice seq 0 (1 + 1))
  /\ Py.slice seq 0 (1 + 1) <> []
  /\ identify_swing_positions seq (0, 1) !! "address" = Some 0
  /\ identify_swing_positions seq (0, 1) !! "top" = Some 0
  /\ identify_swing_positions seq (0, 1) !! "impact" = Some 1
  /\ identify_swing_positions seq (0, 1) !! "finish" = Some 1
  /\ identify_swing_positions seq (0, 1) <> ∅.
Proof.
  cbv zeta. repeat split; try reflexivity.
  - repeat constructor.
  - discriminate.
  - intros Hempty.
    assert (Hl : identify_swing_positions [None; None] (0, 1) !! "address"
                 = Some 0) by reflexivity.
    rewrite Hempty, lookup_empty in Hl. discriminate.
Qed.

(** C3 (amended). [identify_swing_positions] returns the empty mapping exactly
    when the slice [start .. end] of the sequence holds no frame at all.  A
    non-empty segment whose frames are all missing gets all four key
    positions, computed from a wrist height of 0 at every frame:
    address = top = start, impact = start + floor(0.8 n) and
    finish = start + n - 1 for a slice of n frames. *)
Theorem all_missing_segment (seq : landmarks) (start end_ : Z) :
  let sl := Py.slice seq start (end_ + 1) in
  let n := Z.of_nat (length sl) in
  (identify_swing_positions seq (start, end_) = ∅ <-> sl = [])
  /\ (Forall (fun lm => lm = None) sl -> sl <> [] ->
      identify_swing_positions seq (start, end_)
      = <["address" := start]>
          (<["top" := start]>
             (<["impact" := start + impact_index n]>
                (<["finish" := start + (n - 1)]> ∅)))).
Proof.
  intros sl n. split; [split|].
  - intros Hempty. destruct sl as [|lm rest] eqn:Hsl; [reflexivity|].
    assert (Hne : Py.slice seq start (end_ + 1) <> []) by (fold sl; congruence).
    pose proof (identify_swing_positions_nonempty seq start end_ Hne) as Heq.
    rewrite Hempty in Heq.
    apply (f_equal (fun m => m !! "address")) in Heq.
    rewrite lookup_empty, lookup_insert_eq in Heq. discriminate.
  - intros Hsl. unfold identify_swing_positions. fold sl. rewrite Hsl.
    reflexivity.
  - intros Hall Hne.
    rewrite (identify_swing_positions_nonempty seq start end_ Hne).
    fold sl. fold n. rewrite Z.add_0_r.
    assert (Hzero : Forall (fun h => h = 0%R) (map wrist_height sl)).
    { apply Forall_fmap. eapply Forall_impl; [exact Hall|].
      intros lm ->. reflexivity. }
    destruct (0 <? length sl / 2)%nat; [|now rewrite Z.add_0_r].
    rewrite (argmin_constant 0%R).
    + now rewrite Z.add_0_r.
    + now apply Forall_take.
Qed.

Lemma all_missing_segment_witness :
  let seq : landmarks := [None; None; None; None; None] in
  identify_swing_positions seq (1, 3)
  = <["address" := 1]>
      (<["top" := 1]> (<["impact" := 1 + 2]> (<["finish" := 1 + 2]> ∅))).
Proof.
  apply (all_missing_segment [None; None; None; None; None] 1 3).
  - repeat constructor.
  - discriminate.
Defined.

(** A segment with detected frames: the top is the frame of the first half in
    which the right wrist is highest (smallest y). *)
Example top_is_highest_wrist :
  let at_height (h : R) : option frame := Some (repeat (0, h, 0)%R 17) in
  let seq : landmarks :=
    [at_height (5 / 10); at_height (2 / 10); at_height (9 / 10);
     at_height (1 / 10)]%R in
  identify_swing_positions seq (0, 3)
  = <["address" := 0]>
      (<["top" := 1]> (<["impact" := 3]> (<["finish" := 3]> ∅))).
Proof.
  intros at_height seq.
  assert (Hsl : Py.slice seq 0 (3 + 1) = seq) by reflexivity.
  assert (Hh : map wrist_height seq = [5 / 10; 2 / 10; 9 / 10; 1 / 10]%R)
    by reflexivity.
  assert (Hne : Py.slice seq 0 (3 + 1) <> []) by (rewrite Hsl; discriminate).
  rewrite (identify_swing_positions_nonempty seq 0 3 Hne), Hsl, Hh.
  change (length seq) with 4%nat.
  change (0 <? 4 / 2)%nat with true.
  change (firstn (4 / 2) [5 / 10; 2 / 10; 9 / 10; 1 / 10]%R)
    with [5 / 10; 2 / 10]%R.
  unfold argmin, argmin_from, Rltb.
  destruct (Rlt_dec (2 / 10) (5 / 10)) as [_|Hn]; [|exfalso; lra].
  reflexivity.
Qed.

(** C4, as stated, fails: for the three-frame segment (0, 2) the impact index
    is 2 and so is the finish index, so impact is not strictly below finish;
    finish is n - 1 = 2 for n = 3 frames, not n; and impact is not
    floor(0.8 * (end - start)) = 1 either. *)
Lemma key_positions_counterexample :
  let seq : landmarks := [None; None; None] in
  let kp := identify_swing_positions seq (0, 2) in
  Z.of_nat (length (Py.slice seq 0 (2 + 1))) = 3
  /\ kp !! "impact" = Some 2
  /\ kp !! "finish" = Some 2
  /\ kp !! "finish" <> Some (0 + 3)
  /\ kp !! "impact" <> Some (0 + impact_index (2 - 0)).
Proof.
  cbv zeta. repeat split; try reflexivity.
  - intros Hf.
    assert (Hl : identify_swing_positions [None; None; None] (0, 2) !! "finish"
                 = Some 2) by reflexivity.
    rewrite Hl in Hf. discriminate.
  - intros Hf.
    assert (Hl : identify_swing_positions [None; None; None] (0, 2) !! "impact"
                 = Some 2) by reflexivity.
    rewrite Hl in Hf. discriminate.
Qed.

(** C4 (amended). For a segment whose slice holds n >= 2 frames, the key
    positions are, relative to [start]: address = 0, top in [0, n/2),
    impact = floor(0.8 n) and finish = n - 1, and they satisfy
    address <= top <= impact <= finish (impact < n, and impact may equal
    finish). *)
Theorem key_positions_ordered (seq : landmarks) (start end_ : Z) :
  let n := Z.of_nat (length (Py.slice seq start (end_ + 1))) in
  let kp := identify_swing_positions seq (start, end_) in
  2 <= n ->
  exists top,
    kp !! "address" = Some (start + 0)
    /\ kp !! "top" = Some (start + top)
    /\ kp !! "impact" = Some (start + impact_index n)
    /\ kp !! "finish" = Some (start + (n - 1))
    /\ 0 <= top /\ top < n / 2
    /\ top <= impact_index n /\ impact_index n <= n - 1
    /\ (IZR (impact_index n) <= 8 / 10 * IZR n < IZR (impact_index n) + 1)%R.
Proof.
  intros n kp Hn. subst kp.
  set (sl := Py.slice seq start (end_ + 1)) in *.
  assert (Hne : sl <> []).
  { intros Hnil. subst n. rewrite Hnil in Hn. simpl in Hn. lia. }
  rewrite (identify_swing_positions_nonempty seq start end_ Hne).
  fold sl. fold n.
  assert (Hlen_n : n = Z.of_nat (length sl)) by reflexivity.
  clearbody n sl.
  assert (Hhalf : Z.of_nat (length sl / 2) = n / 2).
  { subst n. now rewrite Nat2Z.inj_div. }
  destruct (0 <? length sl / 2)%nat eqn:Hpos.
  2:{ apply Nat.ltb_ge in Hpos. exfalso.
      assert (1 <= n / 2) by (apply Z.div_le_lower_bound; lia). lia. }
  set (t := argmin (firstn (length sl / 2) (map wrist_height sl))).
  assert (Ht : (t < length sl / 2)%nat).
  { subst t.
    assert (Hlen : length (firstn (length sl / 2) (map wrist_height sl))
                   = (length sl / 2)%nat).
    { rewrite length_take, length_map.
      pose proof (Nat.Div0.div_le_upper_bound (length sl) 2 (length sl)). lia. }
    rewrite <- Hlen at 2. apply argmin_bound.
    intros Hnil. apply Nat.ltb_lt in Hpos.
    rewrite <- Hlen, Hnil in Hpos. simpl in Hpos. lia. }
  exists (Z.of_nat t).
  repeat split; try reflexivity; try apply impact_index_floor;
    unfold impact_index; Z.to_euclidean_division_equations; lia.
Qed.

Lemma key_positions_ordered_witness :
  let seq : landmarks := [None; None; None; None; None; None; None] in
  exists top,
    identify_swing_positions seq (1, 5) !! "address" = Some (1 + 0)
    /\ identify_swing_positions seq (1, 5) !! "top" = Some (1 + top)
    /\ identify_swing_positions seq (1, 5) !! "impact" = Some (1 + impact_index 5)
    /\ identify_swing_positions seq (1, 5) !! "finish" = Some (1 + (5 - 1))
    /\ 0 <= top /\ top < 5 / 2
    /\ top <= impact_index 5 /\ impact_index 5 <= 5 - 1
    /\ (IZR (impact_index 5) <= 8 / 10 * IZR 5 < IZR (impact_index 5) + 1)%R.
Proof.
  apply (key_positions_ordered [None; None; None; None; None; None; None] 1 5).
  simpl. lia.
Defined.

End KeyPositionFacts.

(** ** Motion energy *)

Module MotionEnergyFacts.

Import Detector Props.

#[local] Open Scope R_scope.

Lemma savgol_interior_length (x : list R) :
  length (savgol_interior x) = (length x - 4)%nat.
Proof.
  induction x as [|a tl IH]; [reflexivity|].
  destruct tl as [|b [|c [|d [|e r]]]]; try reflexivity.
  change (savgol_interior (a :: b :: c :: d :: e :: r))
    with (((-3) * a + 12 * b + 17 * c + 12 * d + (-3) * e) / 35
          :: savgol_interior (b :: c :: d :: e :: r)).
  simpl length in *. rewrite IH. lia.
Qed.

Lemma savgol_filter_length (x : list R) :
  (5 <= length x)%nat -> length (savgol_filter_5_2 x) = length x.
Proof.
  intros Hlen. unfold savgol_filter_5_2.
  rewrite !length_app, savgol_interior_length.
  assert (Hhead : length (savgol_head x) = 2%nat).
  { destruct x as [|a [|b [|c [|d [|e r]]]]]; simpl in Hlen; try lia.
    reflexivity. }
  assert (Htail : length (savgol_tail x) = 2%nat).
  { unfold savgol_tail.
    assert (Hs : length (skipn (length x - 5) x) = 5%nat)
      by (rewrite length_skipn; lia).
    destruct (skipn (length x - 5) x) as [|a [|b [|c [|d [|e r]]]]];
      simpl in Hs; try lia. reflexivity. }
  rewrite Hhead, Htail. lia.
Qed.

Lemma row_norm_nonneg (p : point) : 0 <= row_norm p.
Proof. apply sqrt_pos. Qed.

Lemma take_rows_spec (d : list R) (idx : list nat) (sel : list R) :
  take_rows d idx = Some sel ->
  length sel = length idx /\ Forall (fun x => x ∈ d) sel.
Proof.
  revert sel. induction idx as [|j idx IH]; intros sel Hsel; simpl in Hsel.
  - injection Hsel as <-. split; [reflexivity|constructor].
  - destruct (nth_error d j) as [x|] eqn:Hx; [|discriminate].
    destruct (take_rows d idx) as [xs|]; [|discriminate].
    injection Hsel as <-. destruct (IH xs eq_refl) as [Hlen Hall].
    split; [simpl; congruence|].
    constructor; [|exact Hall].
    apply list_elem_of_In. eapply nth_error_In; eassumption.
Qed.

Lemma Rsum_nonneg (l : list R) : Forall (fun x => 0 <= x) l -> 0 <= Rsum l.
Proof.
  unfold Rsum. induction 1 as [|x l Hx _ IH]; simpl; lra.
Qed.

Lemma energy_at_nonneg (prev cur : option frame) (e : R) :
  energy_at prev cur = Some e -> 0 <= e.
Proof.
  unfold energy_at.
  destruct cur as [c|]; [|intros [= <-]; lra].
  destruct prev as [p|]; [|intros [= <-]; lra].
  destruct (frame_sub c p) as [diff|]; [|discriminate].
  destruct (take_rows (map row_norm diff) key_joints) as [sel|] eqn:Hsel;
    [|discriminate].
  intros [= <-]. apply take_rows_spec in Hsel as [Hlen Hall].
  assert (Hsum : 0 <= Rsum sel).
  { apply Rsum_nonneg. eapply Forall_impl; [exact Hall|]. simpl.
    intros x Hx. apply list_elem_of_fmap in Hx as (q & -> & _).
    apply row_norm_nonneg. }
  unfold mean. rewrite Hlen. simpl length.
  replace (INR 8) with 8 by (simpl; lra). lra.
Qed.

Lemma energies_after_spec (rest : landmarks) : forall prev es,
  energies_after prev rest = Some es ->
  length es = length rest /\ Forall (fun x => 0 <= x) es.
Proof.
  induction rest as [|cur rest IH]; intros prev es Hes; simpl in Hes.
  - injection Hes as <-. split; [reflexivity|constructor].
  - destruct (energy_at prev cur) as [e|] eqn:He; [|discriminate].
    destruct (energies_after cur rest) as [es'|] eqn:Hes'; [|discriminate].
    injection Hes as <-. destruct (IH cur es' Hes') as [Hlen Hall].
    split; [simpl; congruence|].
    constructor; [eapply energy_at_nonneg; eassumption | exact Hall].
Qed.

(** Before smoothing there is one energy per frame and none is negative. *)
Lemma raw_motion_energy_spec (seq : landmarks) (raw : list R) :
  raw_motion_energy seq = Some raw ->
  length raw = length seq /\ Forall (fun x => 0 <= x) raw.
Proof.
  unfold raw_motion_energy.
  destruct (length seq <? 2)%nat.
  - intros [= <-]. rewrite repeat_length. split; [reflexivity|].
    apply Forall_forall. intros x Hx.
    apply list_elem_of_In, repeat_spec in Hx. lra.
  - destruct seq as [|first rest]; [intros [= <-]; split; [reflexivity|constructor]|].
    destruct (energies_after first rest) as [es|] eqn:Hes; [|discriminate].
    intros [= <-]. apply energies_after_spec in Hes as [Hlen Hall].
    split; [simpl; congruence|]. constructor; [lra|exact Hall].
Qed.

Lemma take_rows_total (d : list R) (idx : list nat) :
  Forall (fun j => (j < length d)%nat) idx -> is_Some (take_rows d idx).
Proof.
  induction 1 as [|j idx Hj _ IH]; simpl; [eexists; reflexivity|].
  apply nth_error_Some in Hj.
  destruct (nth_error d j); [|congruence].
  destruct IH as [xs ->]. eexists; reflexivity.
Qed.

Lemma energy_at_total (rows : nat) (prev cur : option frame) :
  (25 <= rows)%nat ->
  match prev with Some f => length f = rows | None => True end ->
  match cur with Some f => length f = rows | None => True end ->
  is_Some (energy_at prev cur).
Proof.
  intros Hrows Hp Hc. unfold energy_at.
  destruct cur as [c|]; [|eexists; reflexivity].
  destruct prev as [p|]; [|eexists; reflexivity].
  unfold frame_sub. rewrite Hp, Hc, Nat.eqb_refl.
  destruct (take_rows_total
              (map row_norm (map (fun ab => point_sub (fst ab) (snd ab))
                                 (combine c p))) key_joints) as [sel ->].
  - rewrite !length_map, length_combine, Hp, Hc, Nat.min_id.
    unfold key_joints. repeat constructor; lia.
  - eexists; reflexivity.
Qed.

Lemma energies_after_total (rows : nat) (rest : landmarks) : forall prev,
  (25 <= rows)%nat ->
  match prev with Some f => length f = rows | None => True end ->
  frames_have_rows rows rest ->
  is_Some (energies_after prev rest).
Proof.
  induction rest as [|cur rest IH]; intros prev Hrows Hp Hall; simpl.
  - eexists; reflexivity.
  - apply Forall_cons in Hall as [Hc Hall].
    destruct (energy_at_total rows prev cur Hrows Hp Hc) as [e ->].
    destruct (IH cur Hrows Hc Hall) as [es ->]. eexists; reflexivity.
Qed.

(** The energy between two frames in which all landmarks coincide. *)
Lemma energy_at_body (p q : point) :
  energy_at (body_at p) (body_at q) = Some (row_norm (point_sub q p) * 100).
Proof.
  unfold energy_at, body_at, frame_sub.
  rewrite !repeat_length, Nat.eqb_refl.
  assert (Hc : forall n, combine (repeat q n) (repeat p n) = repeat (q, p) n).
  { induction n as [|n IH]; simpl; congruence. }
  rewrite Hc.
  assert (Hm : forall (A B : Type) (f : A -> B) (a : A) n,
             map f (repeat a n) = repeat (f a) n).
  { intros A B f a n. induction n as [|n IH]; simpl; congruence. }
  rewrite !Hm. cbn [fst snd].
  set (x := row_norm (point_sub q p)).
  change (take_rows (repeat x 33) key_joints)
    with (Some [x; x; x; x; x; x; x; x]).
  unfold mean, Rsum. cbn [fold_right length].
  replace (INR 8) with 8 by (simpl; lra).
  f_equal. lra.
Qed.

Lemma row_norm_rest (p : point) : row_norm (point_sub p p) = 0.
Proof.
  unfold row_norm, point_sub, px, py, pz; simpl.
  replace (_ + _ + _) with 0 by ring. apply sqrt_0.
Qed.

Lemma row_norm_unit_step : row_norm (point_sub (1, 0, 0) (0, 0, 0)) = 1.
Proof.
  unfold row_norm, point_sub, px, py, pz; simpl.
  replace (_ + _ + _) with 1 by ring. apply sqrt_1.
Qed.

(** The energies of the one-step sequence before smoothing. *)
Lemma one_step_raw :
  raw_motion_energy one_step_sequence = Some [0; 0; 0; 0; 100; 0; 0].
Proof.
  unfold raw_motion_energy, one_step_sequence.
  cbn [map length Nat.ltb Nat.leb energies_after].
  rewrite !energy_at_body, !row_norm_rest, row_norm_unit_step.
  repeat f_equal; lra.
Qed.

(** C1, as stated, fails: a body at rest that takes one step and rests again
    gets a negative smoothed energy at frame 2 (the filter undershoots before
    the step). *)
Lemma motion_energy_counterexample :
  exists out x,
    calculate_motion_energy one_step_sequence = Some out
    /\ length out = length one_step_sequence
    /\ out !! 2%nat = Some x
    /\ x < 0.
Proof.
  exists (savgol_filter_5_2 [0; 0; 0; 0; 100; 0; 0]), (-60 / 7).
  split; [|split; [|split]].
  - unfold calculate_motion_energy. rewrite one_step_raw. reflexivity.
  - reflexivity.
  - unfold savgol_filter_5_2, savgol_head, savgol_interior.
    cbn [app lookup list_lookup]. f_equal. lra.
  - lra.
Qed.

(** C1 (amended). Whenever [calculate_motion_energy] returns, it returns one
    energy per input frame; it returns for every sequence whose detected
    frames are arrays of the same number (at least 25) of landmarks; the
    energies before smoothing are never negative, so the output is never
    negative for a sequence of at most 5 frames (which is not smoothed). *)
Theorem motion_energy_length (seq : landmarks) :
  (forall out, calculate_motion_energy seq = Some out ->
     length out = length seq
     /\ ((length seq <= 5)%nat -> Forall (fun x => 0 <= x) out))
  /\ (forall raw, raw_motion_energy seq = Some raw ->
        length raw = length seq /\ Forall (fun x => 0 <= x) raw)
  /\ (forall rows, (25 <= rows)%nat -> frames_have_rows rows seq ->
        is_Some (calculate_motion_energy seq)).
Proof.
  split; [|split].
  - intros out. unfold calculate_motion_energy.
    destruct (raw_motion_energy seq) as [raw|] eqn:Hraw; [|discriminate].
    apply raw_motion_energy_spec in Hraw as [Hlen Hall].
    unfold Config.velocity_smoothing_window.
    destruct (5 <? Z.of_nat (length raw))%Z eqn:Hw; intros [= <-].
    + apply Z.ltb_lt in Hw. rewrite savgol_filter_length by lia.
      split; [exact Hlen|]. intros Hshort. lia.
    + split; [exact Hlen|]. intros _. exact Hall.
  - apply raw_motion_energy_spec.
  - intros rows Hrows Hall. unfold calculate_motion_energy, raw_motion_energy.
    destruct (length seq <? 2)%nat.
    + destruct (_ <? _)%Z; eexists; reflexivity.
    + destruct seq as [|first rest].
      * destruct (_ <? _)%Z; eexists; reflexivity.
      * apply Forall_cons in Hall as [Hf Hall].
        destruct (energies_after_total rows rest first Hrows Hf Hall) as [es ->].
        destruct (_ <? _)%Z; eexists; reflexivity.
Qed.

Lemma motion_energy_length_witness :
  exists out,
    calculate_motion_energy [body_at (0, 0, 0); None; body_at (1, 0, 0)] = Some out
    /\ length out = 3%nat
    /\ Forall (fun x => 0 <= x) out.
Proof.
  destruct (motion_energy_length [body_at (0, 0, 0); None; body_at (1, 0, 0)])
    as (Hout & _ & Htotal).
  destruct (Htotal 33%nat) as [out Hsome].
  - lia.
  - repeat constructor.
  - exists out. split; [exact Hsome|].
    destruct (Hout out Hsome) as [Hlen Hpos].
    split; [exact Hlen|]. apply Hpos. simpl. lia.
Defined.

End MotionEnergyFacts.

(** ** Rotation angle *)

Module RotationFacts.

Import Analyzer Props.

#[local] Open Scope R_scope.

Lemma sin_half_lb x : 0 <= x <= 1 -> x / 2 <= sin x.
Proof.
  intros [H0 H1].
  assert (HPI : x <= PI) by (pose proof PI2_3_2; lra).
  destruct (SIN x H0 HPI) as [Hlb _].
  unfold sin_lb, sin_approx, sin_term in Hlb. cbn [sum_f_R0] in Hlb.
  rewrite !INR_IZR_INZ in Hlb. simpl in Hlb.
  assert (H2 : 0 <= x * x <= 1) by nra.
  assert (H3 : 0 <= x * (x * (x * 1)) <= x) by nra.
  assert (H5 : 0 <= x * (x * (x * (x * (x * 1))))) by nra.
  assert (H7 : 0 <= x * (x * (x * (x * (x * (x * (x * 1)))))) <= x).
  { assert (0 <= x * (x * 1) <= 1) by nra.
    assert (0 <= x * (x * (x * (x * 1))) <= 1) by nra.
    assert (0 <= x * (x * (x * (x * (x * (x * 1))))) <= 1) by nra.
    nra. }
  repeat match type of Hlb with
         | context [Z.of_nat ?n] =>
             let z := eval vm_compute in (Z.of_nat n) in
             change (Z.of_nat n) with z in Hlb
         end.
  lra.
Qed.

Lemma eps_pos : 0 < eps.
Proof. unfold eps. lra. Qed.

Lemma norm2_nonneg v : 0 <= norm2 v.
Proof. apply sqrt_pos. Qed.

Lemma norm2_sqr v : norm2 v * norm2 v = fst v * fst v + snd v * snd v.
Proof. unfold norm2. apply sqrt_sqrt. nra. Qed.

Lemma norm2_rotate theta v : norm2 (rotate theta v) = norm2 v.
Proof.
  unfold norm2, rotate; cbn [fst snd]. f_equal.
  pose proof (sin2_cos2 theta) as Hsc. unfold Rsqr in Hsc.
  destruct v as [x y]; cbn [fst snd].
  replace ((cos theta * x - sin theta * y) * (cos theta * x - sin theta * y)
           + (sin theta * x + cos theta * y) * (sin theta * x + cos theta * y))
    with ((sin theta * sin theta + cos theta * cos theta) * (x * x + y * y))
    by ring.
  rewrite Hsc. ring.
Qed.

Lemma norm2_pos v : v <> (0, 0) -> 0 < norm2 v.
Proof.
  intros Hv. destruct v as [x y].
  destruct (Rle_lt_or_eq_dec 0 _ (norm2_nonneg (x, y))) as [Hlt|Heq]; [exact Hlt|].
  exfalso. apply Hv.
  pose proof (norm2_sqr (x, y)) as Hs. rewrite <- Heq in Hs. cbn [fst snd] in Hs.
  assert (x = 0) by nra. assert (y = 0) by nra. subst. reflexivity.
Qed.

Lemma shrink_bounds v : 0 <= shrink v < 1.
Proof.
  unfold shrink. pose proof (norm2_nonneg v) as HN. pose proof eps_pos as He.
  assert (Hq : 0 <= norm2 v / (norm2 v + eps) < 1).
  { split.
    - apply Rle_mult_inv_pos; lra.
    - apply (Rmult_lt_reg_r (norm2 v + eps)); [lra|].
      unfold Rdiv. rewrite Rmult_assoc, Rinv_l by lra. lra. }
  nra.
Qed.

Lemma angle_rotate (v : vec2) (theta : R) :
  _calculate_rotation_angle v (rotate theta v)
  = if Rltb (sin theta * shrink v) 0
    then - degrees (acos (clip (cos theta * shrink v) (-1) 1))
    else degrees (acos (clip (cos theta * shrink v) (-1) 1)).
Proof.
  unfold _calculate_rotation_angle. rewrite norm2_rotate. cbn [fst snd].
  pose proof (norm2_nonneg v) as HN. pose proof eps_pos as He.
  pose proof (norm2_sqr v) as Hs.
  destruct v as [x y]. unfold rotate, shrink in *. cbn [fst snd] in *.
  set (N := norm2 (x, y)) in *.
  assert (Hdot : x / (N + eps) * ((cos theta * x - sin theta * y) / (N + eps))
                 + y / (N + eps) * ((sin theta * x + cos theta * y) / (N + eps))
                 = cos theta * (N / (N + eps) * (N / (N + eps)))).
  { replace (cos theta * (N / (N + eps) * (N / (N + eps))))
      with (cos theta * (N * N) / ((N + eps) * (N + eps))) by (field; lra).
    rewrite Hs. field. lra. }
  assert (Hcross : x / (N + eps) * ((sin theta * x + cos theta * y) / (N + eps))
                   - y / (N + eps) * ((cos theta * x - sin theta * y) / (N + eps))
                   = sin theta * (N / (N + eps) * (N / (N + eps)))).
  { replace (sin theta * (N / (N + eps) * (N / (N + eps))))
      with (sin theta * (N * N) / ((N + eps) * (N + eps))) by (field; lra).
    rewrite Hs. field. lra. }
  rewrite Hdot, Hcross. reflexivity.
Qed.

Lemma clip_id x : -1 <= x <= 1 -> clip x (-1) 1 = x.
Proof.
  intros [Hlo Hhi]. unfold clip.
  rewrite Rmax_left by lra. now rewrite Rmin_left by lra.
Qed.

Lemma acos_pos x : -1 <= x < 1 -> 0 < acos x.
Proof.
  intros [Hlo Hhi]. destruct (acos_bound x) as [H0 _].
  destruct (Rle_lt_or_eq_dec _ _ H0) as [Hlt|Heq]; [exact Hlt|].
  exfalso. pose proof (cos_acos x ltac:(lra)) as Hc.
  rewrite <- Heq, cos_0 in Hc. lra.
Qed.

Lemma degrees_pos x : 0 < x -> 0 < degrees x.
Proof.
  intros Hx. unfold degrees. pose proof PI_RGT_0.
  apply Rmult_lt_0_compat; [exact Hx|].
  apply Rdiv_lt_0_compat; lra.
Qed.

Lemma rotation_sign (v : vec2) (theta : R) :
  v <> (0, 0) -> 0 < theta < PI ->
  0 < _calculate_rotation_angle v (rotate theta v)
  /\ _calculate_rotation_angle v (rotate (- theta) v) < 0.
Proof.
  intros Hv [Ht0 Ht1].
  pose proof (shrink_bounds v) as [Hr0 Hr1].
  assert (Hrpos : 0 < shrink v).
  { unfold shrink. pose proof (norm2_pos v Hv). pose proof eps_pos.
    assert (0 < norm2 v / (norm2 v + eps)) by (apply Rdiv_lt_0_compat; lra).
    nra. }
  pose proof (sin_gt_0 theta Ht0 Ht1) as Hsin.
  pose proof (COS_bound theta) as [Hc0 Hc1].
  assert (Hclip : -1 <= cos theta * shrink v < 1) by nra.
  rewrite !angle_rotate, sin_neg, cos_neg.
  unfold Rltb.
  destruct (Rlt_dec (sin theta * shrink v) 0) as [Hneg|_]; [nra|].
  destruct (Rlt_dec (- sin theta * shrink v) 0) as [_|Hpos]; [|nra].
  rewrite clip_id by lra.
  pose proof (degrees_pos _ (acos_pos _ Hclip)). lra.
Qed.

Lemma norm2_unit : norm2 (1, 0) = 1.
Proof.
  unfold norm2; cbn [fst snd].
  replace (1 * 1 + 0 * 0) with 1 by ring. apply sqrt_1.
Qed.

Lemma shrink_unit : 1 - 1 / 1200 < shrink (1, 0) < 1.
Proof.
  unfold shrink. rewrite norm2_unit. unfold eps.
  assert (Hq : 1 / (1 + 1 / 1000000) = 1000000 / 1000001) by (field; lra).
  rewrite Hq. lra.
Qed.

Lemma degrees_quarter_turn : degrees (PI / 2) = 90.
Proof. unfold degrees. pose proof PI_RGT_0. field. lra. Qed.

Lemma quarter_turn_ccw :
  _calculate_rotation_angle (1, 0) (rotate (PI / 2) (1, 0)) = 90.
Proof.
  pose proof shrink_unit as [Hlo Hhi].
  rewrite angle_rotate, sin_PI2, cos_PI2, Rmult_0_l.
  unfold Rltb. destruct (Rlt_dec (1 * shrink (1, 0)) 0) as [Hneg|_]; [lra|].
  rewrite clip_id by lra. rewrite acos_0. apply degrees_quarter_turn.
Qed.

Lemma quarter_turn_cw :
  _calculate_rotation_angle (1, 0) (rotate (- (PI / 2)) (1, 0)) = -90.
Proof.
  pose proof shrink_unit as [Hlo Hhi].
  rewrite angle_rotate, sin_neg, cos_neg, sin_PI2, cos_PI2, Rmult_0_l.
  unfold Rltb. destruct (Rlt_dec (- (1) * shrink (1, 0)) 0) as [_|Hpos]; [|lra].
  rewrite clip_id by lra. rewrite acos_0, degrees_quarter_turn. reflexivity.
Qed.

Lemma eighth_turn_ccw :
  45 <= _calculate_rotation_angle (1, 0) (rotate (PI / 4) (1, 0)) <= 45 + 1 / 10.
Proof.
  pose proof shrink_unit as [Hlo Hhi]. pose proof PI_RGT_0 as Hpi.
  pose proof PI2_3_2 as Hpi3. pose proof PI_4 as Hpi4.
  set (rho := shrink (1, 0)) in *.
  assert (Hs2 : 0 < 1 / sqrt 2 <= 1).
  { pose proof (sqrt_lt_R0 2 ltac:(lra)) as Hpos.
    assert (1 <= sqrt 2).
    { rewrite <- sqrt_1 at 1. apply sqrt_le_1_alt. lra. }
    split; [apply Rdiv_lt_0_compat; lra|].
    apply (Rmult_le_reg_r (sqrt 2)); [lra|].
    unfold Rdiv. rewrite Rmult_assoc, Rinv_l by lra. lra. }
  rewrite angle_rotate, sin_PI4, cos_PI4. fold rho.
  unfold Rltb. destruct (Rlt_dec (1 / sqrt 2 * rho) 0) as [Hneg|_]; [nra|].
  assert (Hdot : -1 <= 1 / sqrt 2 * rho <= 1) by nra.
  rewrite clip_id by exact Hdot.
  set (a := acos (1 / sqrt 2 * rho)).
  pose proof (acos_bound (1 / sqrt 2 * rho)) as [Ha0 Ha1]. fold a in Ha0, Ha1.
  pose proof (cos_acos _ Hdot) as Hcos. fold a in Hcos.
  set (delta := PI / 1800).
  assert (Hlow : PI / 4 <= a).
  { destruct (Rle_lt_dec (PI / 4) a) as [Hle|Hlt]; [exact Hle|].
    exfalso.
    pose proof (cos_decreasing_1 a (PI / 4) Ha0 Ha1 ltac:(lra) ltac:(lra) Hlt) as Hd.
    rewrite cos_PI4, Hcos in Hd. nra. }
  assert (Hhigh : a <= PI / 4 + delta).
  { destruct (Rle_lt_dec a (PI / 4 + delta)) as [Hle|Hlt]; [exact Hle|].
    exfalso. unfold delta in *.
    pose proof (cos_decreasing_1 (PI / 4 + PI / 1800) a
                  ltac:(lra) ltac:(lra) Ha0 Ha1 Hlt) as Hd.
    rewrite cos_plus, cos_PI4, sin_PI4, Hcos in Hd.
    pose proof (sin_half_lb (PI / 1800) ltac:(lra)) as Hsin.
    pose proof (COS_bound (PI / 1800)) as [_ Hc1].
    assert (Hfac : rho < cos (PI / 1800) - sin (PI / 1800)) by nra.
    lra. }
  unfold degrees, delta in *.
  assert (H180 : 0 < 180 / PI) by (apply Rdiv_lt_0_compat; lra).
  replace 45 with (PI / 4 * (180 / PI)) by (field; lra).
  replace (1 / 10) with (PI / 1800 * (180 / PI)) by (field; lra).
  rewrite <- Rmult_plus_distr_r.
  split; apply Rmult_le_compat_r; lra.
Qed.

(** C7. [_calculate_rotation_angle] is positive for a counter-clockwise turn
    of the reference vector and negative for a clockwise one (any non-zero
    reference vector, any turn strictly between 0 and 180 degrees).  With the
    reference vector (1, 0): a turn of 45 degrees counter-clockwise gives 45
    within 0.1, a turn of 90 degrees counter-clockwise gives 90 within 0.5,
    and a turn of 90 degrees clockwise gives -90 within 0.5. *)
Theorem rotation_angle_sign :
  (forall (v : vec2) (theta : R),
     v <> (0, 0) -> 0 < theta < PI ->
     0 < _calculate_rotation_angle v (rotate theta v)
     /\ _calculate_rotation_angle v (rotate (- theta) v) < 0)
  /\ Rabs (_calculate_rotation_angle (1, 0) (rotate (radians 45) (1, 0)) - 45)
     <= 1 / 10
  /\ Rabs (_calculate_rotation_angle (1, 0) (rotate (radians 90) (1, 0)) - 90)
     <= 1 / 2
  /\ Rabs (_calculate_rotation_angle (1, 0) (rotate (- radians 90) (1, 0)) - (-90))
     <= 1 / 2.
Proof.
  pose proof PI_RGT_0 as Hpi.
  replace (radians 45) with (PI / 4) by (unfold radians; field).
  replace (radians 90) with (PI / 2) by (unfold radians; field).
  split; [exact rotation_sign|].
  rewrite quarter_turn_ccw, quarter_turn_cw.
  pose proof eighth_turn_ccw as [Hlo Hhi].
  repeat split.
  - apply Rabs_le. lra.
  - replace (90 - 90) with 0 by ring. rewrite Rabs_R0. lra.
  - replace (-90 - -90) with 0 by ring. rewrite Rabs_R0. lra.
Qed.

Lemma rotation_angle_sign_witness :
  0 < _calculate_rotation_angle (1, 0) (rotate (PI / 2) (1, 0))
  /\ _calculate_rotation_angle (1, 0) (rotate (- (PI / 2)) (1, 0)) < 0.
Proof.
  apply (proj1 rotation_angle_sign (1, 0) (PI / 2)).
  - intros [= H1]. lra.
  - pose proof PI_RGT_0. lra.
Defined.

End RotationFacts.

(** ** Overall score *)

Module ScorerFacts.

Import Scorer.

#[local] Open Scope R_scope.

Lemma weights_sum_to_one :
  Config.w_swing_plane_consistency + Config.w_rotation_quality
  + Config.w_downswing_alignment + Config.w_wrist_hinge
  + Config.w_weight_transfer + Config.w_tempo = 1.
Proof.
  unfold Config.w_swing_plane_consistency, Config.w_rotation_quality,
    Config.w_downswing_alignment, Config.w_wrist_hinge,
    Config.w_weight_transfer, Config.w_tempo.
  lra.
Qed.

Lemma weighted_sum_bounds (p r d w wt t : R) :
  0 <= p <= 100 -> 0 <= r <= 100 -> 0 <= d <= 100 ->
  0 <= w <= 100 -> 0 <= wt <= 100 -> 0 <= t <= 100 ->
  0 <= weighted_sum p r d w wt t <= 100.
Proof.
  intros Hp Hr Hd Hw Hwt Ht.
  unfold weighted_sum, Config.w_swing_plane_consistency,
    Config.w_rotation_quality, Config.w_downswing_alignment,
    Config.w_wrist_hinge, Config.w_weight_transfer, Config.w_tempo.
  lra.
Qed.

(** Rounding keeps a value between two integers between them. *)
Lemma round_half_even_bounds (y : R) (lo hi : Z) :
  IZR lo <= y <= IZR hi -> (lo <= round_half_even y <= hi)%Z.
Proof.
  intros [Hlo Hhi]. unfold round_half_even.
  destruct (base_Int_part y) as [Hf1 Hf2].
  set (f := Int_part y) in *.
  assert (Hflo : (lo <= f)%Z).
  { apply Z.lt_succ_r, lt_IZR. rewrite succ_IZR. lra. }
  assert (Hfhi : (f <= hi)%Z) by (apply le_IZR; lra).
  assert (Hup : IZR f < y -> (f + 1 <= hi)%Z).
  { intros Hlt. apply Z.lt_succ_r, lt_IZR.
    unfold Z.succ. rewrite !plus_IZR. lra. }
  unfold Rltb.
  destruct (Rlt_dec (y - IZR f) (1 / 2)) as [_|Hge]; [lia|].
  destruct (Rlt_dec (1 / 2) (y - IZR f)) as [Hgt|_].
  - specialize (Hup ltac:(lra)). lia.
  - destruct (Z.even f); [lia|]. specialize (Hup ltac:(lra)). lia.
Qed.

Lemma round2_bounds (x : R) : 0 <= x <= 100 -> 0 <= round2 x <= 100.
Proof.
  intros Hx. unfold round2.
  destruct (round_half_even_bounds (x * 100) 0 10000 ltac:(lra)) as [Hlo Hhi].
  apply IZR_le in Hlo, Hhi. lra.
Qed.

(** C8. For six component scores that each lie in [0, 100], the overall score
    of [calculate_swing_score], the weighted sum with the weights 0.25, 0.20,
    0.20, 0.15, 0.10 and 0.10 (which add up to 1) rounded to two decimals,
    lies in [0, 100]. *)
Theorem overall_score_in_range
    (swing_plane_metrics rotation_metrics weight_transfer_metrics
     wrist_metrics tempo_metrics : gmap string pyval) (p r d w wt t : R) :
  component_scores_of swing_plane_metrics rotation_metrics
    weight_transfer_metrics wrist_metrics tempo_metrics
  = Some (p, r, d, w, wt, t) ->
  0 <= p <= 100 -> 0 <= r <= 100 -> 0 <= d <= 100 ->
  0 <= w <= 100 -> 0 <= wt <= 100 -> 0 <= t <= 100 ->
  exists result,
    calculate_swing_score swing_plane_metrics rotation_metrics
      weight_transfer_metrics wrist_metrics tempo_metrics = Some result
    /\ overall_score result = round2 (weighted_sum p r d w wt t)
    /\ Config.w_swing_plane_consistency + Config.w_rotation_quality
       + Config.w_downswing_alignment + Config.w_wrist_hinge
       + Config.w_weight_transfer + Config.w_tempo = 1
    /\ 0 <= weighted_sum p r d w wt t <= 100
    /\ 0 <= overall_score result <= 100.
Proof.
  intros Hscores Hp Hr Hd Hw Hwt Ht.
  pose proof (weighted_sum_bounds p r d w wt t Hp Hr Hd Hw Hwt Ht) as Hsum.
  unfold calculate_swing_score. rewrite Hscores. simpl.
  eexists. split; [reflexivity|]. simpl.
  split; [reflexivity|]. split; [exact weights_sum_to_one|].
  split; [exact Hsum|].
  now apply round2_bounds.
Qed.

Lemma overall_score_in_range_witness :
  exists result,
    calculate_swing_score ∅ ∅ (<["weight_transfer_score" := Num 50]> ∅)
      (<["wrist_hinge_score" := Num 80]> ∅) (<["tempo_score" := Num 100]> ∅)
    = Some result
    /\ overall_score result
       = round2 (weighted_sum 0 0 (0 * (6 / 10) + 50 * (4 / 10)) 80 50 100)
    /\ Config.w_swing_plane_consistency + Config.w_rotation_quality
       + Config.w_downswing_alignment + Config.w_wrist_hinge
       + Config.w_weight_transfer + Config.w_tempo = 1
    /\ 0 <= weighted_sum 0 0 (0 * (6 / 10) + 50 * (4 / 10)) 80 50 100 <= 100
    /\ 0 <= overall_score result <= 100.
Proof.
  apply (overall_score_in_range ∅ ∅ (<["weight_transfer_score" := Num 50]> ∅)
           (<["wrist_hinge_score" := Num 80]> ∅) (<["tempo_score" := Num 100]> ∅)
           0 0 (0 * (6 / 10) + 50 * (4 / 10)) 80 50 100);
    [reflexivity | lra | lra | lra | lra | lra | lra].
Defined.

End ScorerFacts.

(** ** Error detection on missing frames *)

Module ErrorFacts.

Import Analyzer Props.

#[local] Open Scope R_scope.

Lemma getitem_in_range {A : Type} (l : list A) (i : Z) :
  (0 <= i < Z.of_nat (length l))%Z ->
  Py.getitem l i = nth_error l (Z.to_nat i).
Proof.
  intros [H0 H1]. unfold Py.getitem.
  apply Z.leb_le in H0. apply Z.ltb_lt in H1. now rewrite H0, H1.
Qed.

Lemma getitem_all_missing (seq : landmarks) (i : Z) :
  all_missing seq -> (0 <= i < Z.of_nat (length seq))%Z ->
  Py.getitem seq i = Some None.
Proof.
  intros Hall Hi. rewrite getitem_in_range by exact Hi.
  destruct (nth_error seq (Z.to_nat i)) as [lm|] eqn:Hnth.
  - apply nth_error_In in Hnth. unfold all_missing in Hall.
    rewrite Forall_forall in Hall.
    now rewrite (Hall lm (proj2 (list_elem_of_In _ _) Hnth)).
  - apply nth_error_None in Hnth. lia.
Qed.

Lemma mapM_constant {A B : Type} (f : A -> option B) (c : B) (l : list A) :
  (forall x, In x l -> f x = Some c) ->
  mapM f l = Some (repeat c (length l)).
Proof.
  induction l as [|x l IH]; intros Hf; simpl; [reflexivity|].
  rewrite (Hf x) by now left. simpl.
  rewrite IH by (intros y Hy; apply Hf; now right). reflexivity.
Qed.

Lemma range_bounds (a b i : Z) : In i (Py.range a b) -> (a <= i < b)%Z.
Proof.
  unfold Py.range. intros Hin. apply in_map_iff in Hin as (k & <- & Hk).
  apply in_seq in Hk. lia.
Qed.

(** The frames of a window that starts at a non-negative index. *)
Lemma frames_in_range_all_missing (seq : landmarks) (a b : Z) :
  all_missing seq -> (0 <= a)%Z ->
  exists k, frames_in_range seq a b = Some (repeat None k).
Proof.
  intros Hall Ha. unfold frames_in_range. eexists.
  apply mapM_constant. intros i Hi. apply range_bounds in Hi.
  apply getitem_all_missing; [exact Hall|lia].
Qed.

Lemma fold_left_Rmax_repeat (c : R) (k : nat) :
  fold_left Rmax (repeat c k) c = c.
Proof.
  induction k as [|k IH]; simpl; [reflexivity|].
  now rewrite Rmax_left by lra.
Qed.

Lemma fold_left_Rmin_repeat (c : R) (k : nat) :
  fold_left Rmin (repeat c k) c = c.
Proof.
  induction k as [|k IH]; simpl; [reflexivity|].
  now rewrite Rmin_left by lra.
Qed.

Lemma early_extension_all_missing (seq : landmarks) (kp : gmap string Z) :
  all_missing seq -> (0 <= get_pos kp "top" 0)%Z ->
  _check_early_extension seq kp = Some false.
Proof.
  intros Hall Htop. unfold _check_early_extension.
  destruct (_ || _) eqn:Hguard; [reflexivity|].
  apply orb_false_elim in Hguard as [Ht _]. apply Z.leb_gt in Ht.
  rewrite (getitem_all_missing seq (get_pos kp "top" 0) Hall) by lia.
  reflexivity.
Qed.

Lemma over_the_top_all_missing (seq : landmarks) (kp : gmap string Z) :
  all_missing seq -> (0 <= get_pos kp "top" 0)%Z ->
  _check_over_the_top seq kp = Some false.
Proof.
  intros Hall Htop. unfold _check_over_the_top.
  destruct (_ || _); [reflexivity|].
  destruct (frames_in_range_all_missing seq (get_pos kp "top" 0)
              (get_pos kp "impact" (Z.of_nat (length seq) - 1)) Hall Htop)
    as [k ->].
  simpl.
  rewrite (mapM_constant wrist_offset [] (repeat None k)).
  2:{ intros x Hx. apply repeat_spec in Hx. now subst. }
  simpl.
  assert (Hc : forall n, concat (repeat (@nil R) n) = []).
  { induction n as [|n IH]; simpl; [reflexivity|exact IH]. }
  rewrite Hc. reflexivity.
Qed.

Lemma rotation_metrics_all_missing (seq : landmarks) (kp : gmap string Z) :
  all_missing seq -> (0 <= get_pos kp "address" 0)%Z ->
  calculate_rotation_metrics seq kp = Some rotation_defaults.
Proof.
  intros Hall Haddr. unfold calculate_rotation_metrics.
  destruct (_ <=? _)%Z eqn:Hguard; [reflexivity|].
  apply Z.leb_gt in Hguard.
  rewrite (getitem_all_missing seq (get_pos kp "address" 0) Hall) by lia.
  reflexivity.
Qed.

(** The weight-transfer metrics of a window without any detected frame carry
    a weight shift of 0 and a score of 0. *)
Lemma weight_transfer_all_missing (seq : landmarks) (kp : gmap string Z) :
  all_missing seq -> (0 <= get_pos kp "address" 0)%Z ->
  exists wm,
    calculate_weight_transfer seq kp = Some wm
    /\ get_num wm "max_weight_shift" 0 = Some 0
    /\ get_num wm "weight_transfer_score" 0 = Some 0.
Proof.
  intros Hall Haddr. unfold calculate_weight_transfer.
  destruct (frames_in_range_all_missing seq (get_pos kp "address" 0)
              (get_pos kp "finish" (Z.of_nat (length seq) - 1)) Hall Haddr)
    as [k ->].
  simpl.
  rewrite (mapM_constant frame_weight_ratio (1 / 2) (repeat None k)).
  2:{ intros x Hx. apply repeat_spec in Hx. now subst. }
  simpl. rewrite repeat_length.
  destruct k as [|k]; simpl.
  - eexists. split; [reflexivity|]. split; reflexivity.
  - rewrite fold_left_Rmax_repeat, fold_left_Rmin_repeat.
    eexists. split; [reflexivity|]. split.
    + unfold get_num. rewrite lookup_insert_ne, lookup_insert_eq by discriminate.
      f_equal. lra.
    + unfold get_num.
      rewrite lookup_insert_ne, lookup_insert_ne, lookup_insert_eq by discriminate.
      f_equal. unfold weight_transfer_score, Rleb, Config.weight_shift_threshold.
      destruct (Rle_dec _ _) as [Hle|_]; [lra|]. lra.
Qed.

(** With no detected frame, the two checks that read frames do not fire and
    the three checks that read metrics all do. *)
Lemma errors_all_missing (seq : landmarks) (kp : gmap string Z) :
  all_missing seq ->
  (0 <= get_pos kp "address" 0)%Z -> (0 <= get_pos kp "top" 0)%Z ->
  exists rm wm,
    calculate_rotation_metrics seq kp = Some rm
    /\ calculate_weight_transfer seq kp = Some wm
    /\ _check_early_extension seq kp = Some false
    /\ _check_over_the_top seq kp = Some false
    /\ detect_common_errors seq kp rm wm
       = Some ["reverse_pivot"; "flat_shoulder"; "sway"]%string.
Proof.
  intros Hall Haddr Htop.
  destruct (weight_transfer_all_missing seq kp Hall Haddr)
    as (wm & Hwm & Hshift & Hscore).
  exists rotation_defaults, wm.
  pose proof (early_extension_all_missing seq kp Hall Htop) as Hee.
  pose proof (over_the_top_all_missing seq kp Hall Htop) as Hot.
  repeat split; try assumption.
  - now apply rotation_metrics_all_missing.
  - assert (Hrot : get_num rotation_defaults "rotation_sequence_score" 0
                   = Some 0) by reflexivity.
    unfold detect_common_errors. cbv zeta. rewrite Hee, Hot. simpl.
    rewrite Hshift. simpl. rewrite Hrot. simpl. rewrite Hscore. simpl.
    unfold append_if, Rltb, Config.weight_shift_threshold.
    destruct (Rlt_dec 0 (15 / 100 / 2)) as [_|Hn]; [|lra].
    destruct (Rlt_dec 0 50) as [_|Hn]; [|lra].
    destruct (Rlt_dec 0 60) as [_|Hn]; [|lra].
    reflexivity.
Qed.

Lemma in_append_if (cond : bool) (errors : list string) (name x : string) :
  In x (append_if cond errors name) <-> In x errors \/ (cond = true /\ x = name).
Proof.
  unfold append_if. destruct cond.
  - rewrite in_app_iff. simpl. split.
    + intros [Hin|[Heq|[]]];
        [left; exact Hin | right; split; [reflexivity | symmetry; exact Heq]].
    + intros [Hin|[_ Heq]]; [left; exact Hin | right; left; symmetry; exact Heq].
  - split; [intros Hin; left; exact Hin|].
    intros [Hin|[Hc _]]; [exact Hin | discriminate].
Qed.

Lemma Rltb_true (x y : R) : Rltb x y = true <-> x < y.
Proof.
  unfold Rltb. destruct (Rlt_dec x y) as [Hlt|Hge]; split; intros Hx;
    first [discriminate | assumption | reflexivity | contradiction].
Qed.

(** Which metric-based labels [detect_common_errors] reports is decided by the
    three metric values alone. *)
Lemma metric_errors_spec (seq : landmarks) (kp : gmap string Z)
    (rm wm : gmap string pyval) (errors : list string) (shift rot score : R) :
  detect_common_errors seq kp rm wm = Some errors ->
  get_num wm "max_weight_shift" 0 = Some shift ->
  get_num rm "rotation_sequence_score" 0 = Some rot ->
  get_num wm "weight_transfer_score" 0 = Some score ->
  (In "reverse_pivot"%string errors <-> shift < Config.weight_shift_threshold / 2)
  /\ (In "flat_shoulder"%string errors <-> rot < 50)
  /\ (In "sway"%string errors <-> score < 60).
Proof.
  intros Hdet Hshift Hrot Hscore. unfold detect_common_errors in Hdet.
  cbv zeta in Hdet.
  destruct (_check_early_extension seq kp) as [ee|]; [|discriminate].
  destruct (_check_over_the_top seq kp) as [ot|]; [|discriminate].
  simpl in Hdet. rewrite Hshift in Hdet. simpl in Hdet.
  rewrite Hrot in Hdet. simpl in Hdet. rewrite Hscore in Hdet. simpl in Hdet.
  injection Hdet as <-.
  rewrite <- !Rltb_true. rewrite !in_append_if. simpl.
  repeat split; intros Hx;
    repeat match goal with
           | Hor : _ \/ _ |- _ => destruct Hor
           | Hand : _ /\ _ |- _ => destruct Hand
           end;
    try discriminate; try contradiction; try assumption; auto 10.
Qed.

(** C2, as stated, fails: for two frames without pose and no key positions
    the metrics are computed from missing frames only, and three of the five
    labels are reported. *)
Lemma missing_frames_counterexample :
  exists rm wm,
    all_missing [None; None]
    /\ calculate_rotation_metrics [None; None] ∅ = Some rm
    /\ calculate_weight_transfer [None; None] ∅ = Some wm
    /\ detect_common_errors [None; None] ∅ rm wm
       = Some ["reverse_pivot"; "flat_shoulder"; "sway"]%string.
Proof.
  assert (Hall : all_missing [None; None]) by (repeat constructor).
  destruct (errors_all_missing [None; None] ∅ Hall)
    as (rm & wm & Hrm & Hwm & _ & _ & Hdet); [reflexivity | reflexivity |].
  exists rm, wm. auto.
Qed.

(** C2 (amended). When no frame of the sequence has a detected pose (and the
    address and top positions are not negative), the rotation and
    weight-transfer metrics are computed without error, the two checks that
    read frames ([early_extension], [over_the_top]) are not triggered, and
    [detect_common_errors] returns exactly [reverse_pivot], [flat_shoulder]
    and [sway].  In general these three labels are decided by the metric
    values alone: [reverse_pivot] is reported iff the weight shift is below
    half the threshold, [flat_shoulder] iff the rotation-sequence score is
    below 50 and [sway] iff the weight-transfer score is below 60. *)
Theorem missing_frames_errors (seq : landmarks) (kp : gmap string Z) :
  (all_missing seq ->
   (0 <= get_pos kp "address" 0)%Z -> (0 <= get_pos kp "top" 0)%Z ->
   exists rm wm,
     calculate_rotation_metrics seq kp = Some rm
     /\ calculate_weight_transfer seq kp = Some wm
     /\ _check_early_extension seq kp = Some false
     /\ _check_over_the_top seq kp = Some false
     /\ detect_common_errors seq kp rm wm
        = Some ["reverse_pivot"; "flat_shoulder"; "sway"]%string)
  /\ (forall rm wm errors shift rot score,
        detect_common_errors seq kp rm wm = Some errors ->
        get_num wm "max_weight_shift" 0 = Some shift ->
        get_num rm "rotation_sequence_score" 0 = Some rot ->
        get_num wm "weight_transfer_score" 0 = Some score ->
        (In "reverse_pivot"%string errors
         <-> shift < Config.weight_shift_threshold / 2)
        /\ (In "flat_shoulder"%string errors <-> rot < 50)
        /\ (In "sway"%string errors <-> score < 60)).
Proof.
  split.
  - apply errors_all_missing.
  - intros rm wm errors shift rot score. apply metric_errors_spec.
Qed.

Lemma missing_frames_errors_witness :
  let seq : landmarks := [None; None; None] in
  let kp := Detector.identify_swing_positions seq (0, 2)%Z in
  exists rm wm,
    calculate_rotation_metrics seq kp = Some rm
    /\ calculate_weight_transfer seq kp = Some wm
    /\ _check_early_extension seq kp = Some false
    /\ _check_over_the_top seq kp = Some false
    /\ detect_common_errors seq kp rm wm
       = Some ["reverse_pivot"; "flat_shoulder"; "sway"]%string.
Proof.
  apply (proj1 (missing_frames_errors [None; None; None]
                  (Detector.identify_swing_positions [None; None; None] (0, 2)%Z))).
  - repeat constructor.
  - apply Z.leb_le. reflexivity.
  - apply Z.leb_le. reflexivity.
Defined.

End ErrorFacts.

(** ** More on the segmenter *)

Module SegmenterMore.

Import Segmenter Props.

Section Facts.
Context {E : Type} `{Energy E}.
Variable self : SwingDetector E.

Lemma scan_append (l1 l2 : list E) i st :
  scan self i st (l1 ++ l2)
  = scan self (i + Z.of_nat (length l1)) (scan self i st l1) l2.
Proof.
  revert i st. induction l1 as [|e l1 IH]; intros i st; simpl.
  - now rewrite Z.add_0_r.
  - rewrite IH. f_equal. lia.
Qed.

Lemma step_quiet st i e :
  in_swing st = false -> energy_gt e (motion_threshold self) = false ->
  step self st i e = st.
Proof. intros Hin Hgt. unfold step. now rewrite Hin, Hgt. Qed.

Lemma quiet_scan (motion_energy : list E) :
  Forall (fun e => energy_gt e (motion_threshold self) = false) motion_energy ->
  forall i, scan self i init motion_energy = init.
Proof.
  intros Hall. induction Hall as [|e l He _ IH]; intros i; simpl; [reflexivity|].
  rewrite step_quiet by (reflexivity || exact He). apply IH.
Qed.

(** X1. A sequence in which no energy exceeds the motion threshold (the empty
    sequence included) yields no segment, and the scan ends in its initial
    idle state. *)
Theorem no_motion_no_swing (motion_energy : list E) :
  Forall (fun e => energy_gt e (motion_threshold self) = false) motion_energy ->
  detect_swing_phases self motion_energy = []
  /\ final_state self motion_energy = init.
Proof.
  intros Hall. pose proof (quiet_scan motion_energy Hall 0) as Hscan.
  unfold detect_swing_phases, final_state. rewrite Hscan. split; reflexivity.
Qed.

Lemma step_prefix st i e : swings st `prefix_of` swings (step self st i e).
Proof.
  unfold step.
  destruct (in_swing st); simpl.
  - destruct (energy_lt e (motion_threshold self)); simpl; [|reflexivity].
    destruct (stillness_frames self <=? stillness_counter st + 1); simpl;
      [|reflexivity].
    destruct ((min_swing_duration self <=? _) && _); [|reflexivity].
    now apply prefix_app_r.
  - destruct (energy_gt e (motion_threshold self)); reflexivity.
Qed.

Lemma scan_prefix (l : list E) : forall i st,
  swings st `prefix_of` swings (scan self i st l).
Proof.
  induction l as [|e l IH]; intros i st; simpl; [reflexivity|].
  etransitivity; [apply (step_prefix st i e)|apply IH].
Qed.

(** X2. Segments are never retracted: the segments found in a sequence are
    the first segments found in any longer sequence that starts with it. *)
Theorem detect_swing_phases_prefix (l1 l2 : list E) :
  detect_swing_phases self l1 `prefix_of` detect_swing_phases self (l1 ++ l2).
Proof.
  unfold detect_swing_phases, final_state. rewrite scan_append.
  apply scan_prefix.
Qed.

Lemma energy_at_frame_bound (l : list E) (j : Z) (x : E) :
  energy_at_frame l j = Some x -> 0 <= j < Z.of_nat (length l).
Proof.
  unfold energy_at_frame. destruct (0 <=? j) eqn:Hj; [|discriminate].
  intros Hn. apply Z.leb_le in Hj.
  assert (Hsome : nth_error l (Z.to_nat j) <> None) by congruence.
  apply nth_error_Some in Hsome. lia.
Qed.

Lemma energy_at_frame_middle (pre suf : list E) (e : E) :
  energy_at_frame (pre ++ e :: suf) (Z.of_nat (length pre)) = Some e.
Proof.
  unfold energy_at_frame.
  assert (Hpos : (0 <=? Z.of_nat (length pre)) = true) by (apply Z.leb_le; lia).
  rewrite Hpos, Nat2Z.id, nth_error_app2 by lia.
  now rewrite Nat.sub_diag.
Qed.

Lemma step_tracking (l : list E) (i : Z) (st : state) (e : E) :
  1 <= stillness_frames self ->
  energy_at_frame l i = Some e ->
  tracking self l i st -> tracking self l (i + 1) (step self st i e).
Proof.
  intros Hk He (Hi & Hall & Hsw).
  pose proof (energy_at_frame_bound l i e He) as Hlen.
  assert (Hold : Forall (fun seg => well_delimited self l seg
                                    /\ seg_end seg + stillness_frames self < i + 1)
                        (swings st)).
  { eapply Forall_impl; [exact Hall|]. simpl. intros seg [Hw Hb]. split; [exact Hw|lia]. }
  unfold tracking, step.
  destruct (in_swing st) eqn:Hin; simpl.
  - destruct (Hsw eq_refl) as (Hc & Hs0 & Hsc & Hstart & Hlast & Hstill).
    destruct (energy_lt e (motion_threshold self)) eqn:Hlt.
    + destruct (stillness_frames self <=? stillness_counter st + 1) eqn:Hclose;
        simpl.
      * apply Z.leb_le in Hclose.
        split; [lia|]. split; [|discriminate].
        destruct ((min_swing_duration self <=? _) && _); [|exact Hold].
        apply Forall_app; split; [exact Hold|].
        constructor; [|constructor].
        unfold well_delimited, seg_start, seg_end; simpl.
        split; [|lia]. split; [lia|]. split; [lia|]. split; [exact Hstart|].
        split.
        -- replace (i - stillness_frames self)
             with (i - stillness_counter st - 1) by lia.
           exact Hlast.
        -- intros j Hj. destruct (Z.eq_dec j i) as [->|Hne].
           ++ exists e. split; assumption.
           ++ apply Hstill. lia.
      * apply Z.leb_gt in Hclose.
        split; [lia|]. split; [exact Hold|]. intros _.
        split; [lia|]. split; [lia|]. split; [lia|]. split; [exact Hstart|].
        split.
        -- replace (i + 1 - (stillness_counter st + 1) - 1)
             with (i - stillness_counter st - 1) by lia.
           exact Hlast.
        -- intros j Hj. destruct (Z.eq_dec j i) as [->|Hne].
           ++ exists e. split; assumption.
           ++ apply Hstill. lia.
    + simpl. split; [lia|]. split; [exact Hold|]. intros _.
      split; [lia|]. split; [lia|]. split; [lia|]. split; [exact Hstart|].
      split.
      * replace (i + 1 - 0 - 1) with i by lia.
        exists e. split; [exact He|]. right. exact Hlt.
      * intros j Hj. lia.
  - destruct (energy_gt e (motion_threshold self)) eqn:Hgt; simpl.
    + split; [lia|]. split; [exact Hold|]. intros _.
      split; [lia|]. split; [lia|]. split; [lia|].
      split; [exists e; split; assumption|].
      split.
      * replace (i + 1 - 0 - 1) with i by lia.
        exists e. split; [exact He|]. left. exact Hgt.
      * intros j Hj. lia.
    + split; [lia|]. split; [exact Hold|]. rewrite Hin. discriminate.
Qed.

Lemma scan_tracking (l suf : list E) : forall pre st,
  1 <= stillness_frames self ->
  l = pre ++ suf ->
  tracking self l (Z.of_nat (length pre)) st ->
  tracking self l (Z.of_nat (length l))
           (scan self (Z.of_nat (length pre)) st suf).
Proof.
  induction suf as [|e suf IH]; intros pre st Hk Hl Htr; simpl.
  - rewrite app_nil_r in Hl. subst l. exact Htr.
  - replace (Z.of_nat (length pre) + 1)
      with (Z.of_nat (length (pre ++ [e])))
      by (rewrite length_app; simpl; lia).
    apply IH; [exact Hk | now rewrite <- app_assoc |].
    rewrite length_app; simpl length.
    replace (Z.of_nat (length pre + 1)) with (Z.of_nat (length pre) + 1) by lia.
    apply step_tracking; [exact Hk | | exact Htr].
    rewrite Hl. apply energy_at_frame_middle.
Qed.

(** X3. With at least one stillness frame required, every emitted segment
    lies inside the sequence with start <= end, starts at a frame whose
    energy exceeds the threshold, ends at a frame that is not below the
    threshold, and is followed, still inside the sequence, by
    [stillness_frames] frames that are all below the threshold. *)
Theorem segments_well_delimited (motion_energy : list E) :
  1 <= stillness_frames self ->
  Forall (well_delimited self motion_energy)
         (detect_swing_phases self motion_energy).
Proof.
  intros Hk.
  destruct (scan_tracking motion_energy motion_energy [] init Hk eq_refl)
    as (_ & Hall & _).
  - unfold tracking, init; simpl.
    split; [lia|]. split; [constructor|discriminate].
  - unfold detect_swing_phases, final_state.
    eapply Forall_impl; [exact Hall|]. simpl. intros seg [Hw _]. exact Hw.
Qed.

End Facts.

End SegmenterMore.

Module SegmenterMoreRuns.

Import Segmenter Props.

Lemma no_motion_no_swing_witness :
  detect_swing_phases demo_detector
    (map (fun z => QArith_base.Qmake z 1) [0; 3; 5; 4; 5; 1]) = []
  /\ final_state demo_detector
       (map (fun z => QArith_base.Qmake z 1) [0; 3; 5; 4; 5; 1]) = init.
Proof.
  apply (SegmenterMore.no_motion_no_swing demo_detector).
  repeat constructor.
Defined.

Lemma segments_well_delimited_witness :
  Forall (well_delimited demo_detector demo_energy)
         (detect_swing_phases demo_detector demo_energy).
Proof.
  apply (SegmenterMore.segments_well_delimited demo_detector demo_energy).
  simpl. lia.
Defined.

End SegmenterMoreRuns.

(** ** More on key positions and tempo *)

Module KeyPositionMore.

Import Detector.

Lemma slice_length {A : Type} (l : list A) (a b : Z) :
  0 <= a -> 0 <= b ->
  Z.of_nat (length (Py.slice l a b))
  = Z.max 0 (Z.min b (Z.of_nat (length l)) - Z.min a (Z.of_nat (length l))).
Proof.
  intros Ha Hb. unfold Py.slice, Py.slice_bound.
  apply Z.ltb_ge in Ha, Hb. rewrite Ha, Hb.
  rewrite length_take, length_drop. lia.
Qed.

(** The four entries of the dictionary of a non-empty segment, relative to
    its start. *)
Lemma key_position_offsets (seq : landmarks) (start end_ : Z) (k : string) (v : Z) :
  let n := Z.of_nat (length (Py.slice seq start (end_ + 1))) in
  identify_swing_positions seq (start, end_) !! k = Some v ->
  1 <= n /\ start <= v <= start + (n - 1).
Proof.
  intros n Hk.
  assert (Hne : Py.slice seq start (end_ + 1) <> []).
  { intros Hnil. unfold identify_swing_positions in Hk. rewrite Hnil in Hk.
    simpl in Hk. rewrite lookup_empty in Hk. discriminate. }
  rewrite (KeyPositionFacts.identify_swing_positions_nonempty seq start end_ Hne)
    in Hk.
  fold n in Hk. subst n.
  set (sl := Py.slice seq start (end_ + 1)) in *.
  set (m := length sl) in *.
  assert (Hm : (1 <= m)%nat).
  { subst m. destruct sl; [congruence|simpl; lia]. }
  split; [lia|].
  assert (Htop : 0 <= (if (0 <? m / 2)%nat
                       then Z.of_nat (argmin (firstn (m / 2) (map wrist_height sl)))
                       else 0) <= Z.of_nat m - 1).
  { destruct (0 <? m / 2)%nat eqn:Hpos; [|lia].
    apply Nat.ltb_lt in Hpos.
    pose proof (Nat.Div0.div_le_upper_bound m 2 m ltac:(lia)) as Hhalf.
    assert (Hlen : length (firstn (m / 2) (map wrist_height sl)) = (m / 2)%nat).
    { rewrite length_take, length_map. fold m. lia. }
    assert (Hnil : firstn (m / 2) (map wrist_height sl) <> []).
    { intros Heq. rewrite Heq in Hlen. cbn [length] in Hlen. lia. }
    pose proof (KeyPositionFacts.argmin_bound _ Hnil) as Hb.
    rewrite Hlen in Hb. lia. }
  assert (Himp : 0 <= impact_index (Z.of_nat m) <= Z.of_nat m - 1).
  { unfold impact_index. Z.to_euclidean_division_equations. lia. }
  apply lookup_insert_Some in Hk as [[_ <-]|[_ Hk]]; [lia|].
  apply lookup_insert_Some in Hk as [[_ <-]|[_ Hk]]; [lia|].
  apply lookup_insert_Some in Hk as [[_ <-]|[_ Hk]]; [lia|].
  apply lookup_insert_Some in Hk as [[_ <-]|[_ Hk]]; [lia|].
  rewrite lookup_empty in Hk. discriminate.
Qed.

(** X4. For a segment with 0 <= start <= end, every key position returned by
    [identify_swing_positions] lies in [start, end] and is a valid index of
    the landmark sequence. *)
Theorem key_positions_in_segment (seq : landmarks) (start end_ : Z)
    (k : string) (v : Z) :
  0 <= start <= end_ ->
  identify_swing_positions seq (start, end_) !! k = Some v ->
  start <= v <= end_ /\ 0 <= v < Z.of_nat (length seq).
Proof.
  intros Hse Hk.
  destruct (key_position_offsets seq start end_ k v Hk) as [Hn Hv].
  rewrite slice_length in Hn, Hv by lia. lia.
Qed.

Lemma key_positions_in_segment_witness :
  0 <= 2 <= 2 /\ 0 <= 2 < Z.of_nat (length [@None frame; None; None; None]).
Proof.
  apply (key_positions_in_segment [None; None; None; None] 0 2 "finish" 2).
  - lia.
  - reflexivity.
Defined.

End KeyPositionMore.

Module TempoFacts.

Import Detector Tempo.

#[local] Open Scope R_scope.

Lemma score_tempo_range (ratio : R) : 0 <= _score_tempo ratio <= 100.
Proof.
  unfold _score_tempo. pose proof (Rabs_pos (ratio - 3)).
  split; [apply Rmax_l|]. apply Rmax_lub; lra.
Qed.

Lemma score_tempo_below_ideal (ratio : R) :
  0 <= ratio <= 3 -> _score_tempo ratio = 40 + 20 * ratio.
Proof.
  intros Hr. unfold _score_tempo.
  rewrite Rabs_left1 by lra. rewrite Rmax_right by lra. lra.
Qed.

Lemma score_tempo_ideal (ratio : R) : _score_tempo ratio = 100 <-> ratio = 3.
Proof.
  unfold _score_tempo. split.
  - intros Hs. pose proof (Rabs_pos (ratio - 3)) as Hp.
    unfold Rmax in Hs.
    destruct (Rle_dec 0 (100 - Rabs (ratio - 3) * 20)) as [_|_]; [|lra].
    destruct (Req_dec (ratio - 3) 0) as [Heq|Hne]; [lra|].
    apply Rabs_pos_lt in Hne. lra.
  - intros ->. replace (3 - 3) with 0 by ring. rewrite Rabs_R0.
    rewrite Rmax_right by lra. lra.
Qed.

(** X5. [analyze_tempo] never divides by zero: the downswing length is
    clamped to at least one frame, so with a downswing of zero or fewer
    frames the ratio is the backswing length itself.  The tempo score always
    lies in [0, 100], and it is 100 exactly when the backswing lasts three
    times the (clamped) downswing. *)
Theorem tempo_score_range (seq : landmarks) (swing_range : Z * Z)
    (kp : gmap string Z) :
  exists (b d : Z) (ratio score : R),
    analyze_tempo seq swing_range kp !! "backswing_frames" = Some (Num (IZR b))
    /\ analyze_tempo seq swing_range kp !! "downswing_frames" = Some (Num (IZR d))
    /\ analyze_tempo seq swing_range kp !! "tempo_ratio" = Some (Num ratio)
    /\ analyze_tempo seq swing_range kp !! "tempo_score" = Some (Num score)
    /\ ratio = IZR b / IZR (Z.max d 1)
    /\ ((d <= 0)%Z -> ratio = IZR b)
    /\ 0 <= score <= 100
    /\ (score = 100 <-> b = (3 * Z.max d 1)%Z).
Proof.
  destruct swing_range as [start end_].
  set (b := (get_pos kp "top" start - get_pos kp "address" start)%Z).
  set (d := (get_pos kp "impact" end_ - get_pos kp "top" start)%Z).
  exists b, d, (tempo_ratio_of b d), (_score_tempo (tempo_ratio_of b d)).
  repeat split; try reflexivity.
  - intros Hd. unfold tempo_ratio_of. rewrite Z.max_r by lia. field.
  - apply score_tempo_range.
  - apply score_tempo_range.
  - intros Hs. apply score_tempo_ideal in Hs. unfold tempo_ratio_of in Hs.
    assert (Hpos : 0 < IZR (Z.max d 1)) by (apply IZR_lt; lia).
    apply eq_IZR. rewrite mult_IZR.
    apply (Rmult_eq_compat_r (IZR (Z.max d 1))) in Hs.
    unfold Rdiv in Hs. rewrite Rmult_assoc, Rinv_l, Rmult_1_r in Hs by lra.
    exact Hs.
  - intros Hb. apply score_tempo_ideal. unfold tempo_ratio_of.
    assert (Hpos : 0 < IZR (Z.max d 1)) by (apply IZR_lt; lia).
    rewrite Hb, mult_IZR. field. lra.
Qed.

(** The backswing and downswing lengths read from the key positions that
    [identify_swing_positions] returns. *)
Lemma identified_tempo_frames (seq : landmarks) (start end_ : Z) :
  let kp := identify_swing_positions seq (start, end_) in
  let b := (get_pos kp "top" start - get_pos kp "address" start)%Z in
  let d := (get_pos kp "impact" end_ - get_pos kp "top" start)%Z in
  (0 <= b)%Z /\ (b = 0 \/ (1 <= d /\ 8 * b < 5 * d + 5 * b))%Z.
Proof.
  intros kp b d.
  destruct (Py.slice seq start (end_ + 1)) as [|lm rest] eqn:Hsl.
  - assert (Hkp : kp = ∅).
    { unfold kp, identify_swing_positions. rewrite Hsl. reflexivity. }
    subst b d. rewrite Hkp. unfold get_pos. rewrite !lookup_empty. lia.
  - assert (Hne : Py.slice seq start (end_ + 1) <> []) by (rewrite Hsl; discriminate).
    pose proof (KeyPositionFacts.identify_swing_positions_nonempty
                  seq start end_ Hne) as Hkp.
    fold kp in Hkp. clear Hsl lm rest.
    set (sl := Py.slice seq start (end_ + 1)) in *.
    set (m := length sl) in *.
    set (t := if (0 <? m / 2)%nat
              then Z.of_nat (argmin (firstn (m / 2) (map wrist_height sl)))
              else 0%Z) in *.
    assert (Haddr : get_pos kp "address" start = (start + 0)%Z)
      by (unfold get_pos; rewrite Hkp; reflexivity).
    assert (Htop : get_pos kp "top" start = (start + t)%Z)
      by (unfold get_pos; rewrite Hkp; reflexivity).
    assert (Himp : get_pos kp "impact" end_
                   = (start + impact_index (Z.of_nat m))%Z)
      by (unfold get_pos; rewrite Hkp; reflexivity).
    subst b d. rewrite Haddr, Htop, Himp.
    assert (Ht : (0 <= t /\ (t = 0 \/ 2 * t + 2 <= Z.of_nat m))%Z).
    { subst t. destruct (0 <? m / 2)%nat eqn:Hpos; [|lia].
      apply Nat.ltb_lt in Hpos.
      pose proof (Nat.Div0.div_le_upper_bound m 2 m ltac:(lia)) as Hhalf.
      assert (Hlen : length (firstn (m / 2) (map wrist_height sl)) = (m / 2)%nat).
      { rewrite length_take, length_map. fold m. lia. }
      assert (Hnil : firstn (m / 2) (map wrist_height sl) <> []).
      { intros Heq. rewrite Heq in Hlen. cbn [length] in Hlen. lia. }
      pose proof (KeyPositionFacts.argmin_bound _ Hnil) as Hb.
      rewrite Hlen in Hb.
      pose proof (Nat.Div0.mul_div_le m 2) as Hmul. lia. }
    unfold impact_index. Z.to_euclidean_division_equations. lia.
Qed.

(** X6. With the key positions that [identify_swing_positions] itself
    returns for the analysed segment, the tempo ratio is always in [0, 5/3)
    and the tempo score is 40 + 20 * ratio, hence in [40, 220/3): the top is
    searched in the first half of the segment and the impact sits at 80%, so
    the ideal ratio of 3 is out of reach. *)
Theorem identified_tempo_bounded (seq : landmarks) (start end_ : Z) :
  let kp := identify_swing_positions seq (start, end_) in
  exists ratio : R,
    analyze_tempo seq (start, end_) kp !! "tempo_ratio" = Some (Num ratio)
    /\ analyze_tempo seq (start, end_) kp !! "tempo_score"
       = Some (Num (_score_tempo ratio))
    /\ 0 <= ratio < 5 / 3
    /\ _score_tempo ratio = 40 + 20 * ratio
    /\ 40 <= _score_tempo ratio < 220 / 3.
Proof.
  intros kp.
  pose proof (identified_tempo_frames seq start end_) as Hbd.
  fold kp in Hbd. cbv zeta in Hbd.
  set (b := (get_pos kp "top" start - get_pos kp "address" start)%Z) in *.
  set (d := (get_pos kp "impact" end_ - get_pos kp "top" start)%Z) in *.
  exists (tempo_ratio_of b d).
  split; [reflexivity|]. split; [reflexivity|].
  assert (Hpos : 0 < IZR (Z.max d 1)) by (apply IZR_lt; lia).
  assert (Hr : 0 <= tempo_ratio_of b d < 5 / 3).
  { unfold tempo_ratio_of. destruct Hbd as [Hb0 [Hb|[Hd Hbd]]].
    - rewrite Hb. unfold Rdiv. rewrite Rmult_0_l. lra.
    - rewrite Z.max_l by lia.
      assert (Hdpos : 0 < IZR d) by (apply IZR_lt; lia).
      assert (Hb : 0 <= IZR b) by (apply IZR_le; lia).
      assert (Hlt : 3 * IZR b < 5 * IZR d).
      { rewrite <- !mult_IZR. apply IZR_lt. lia. }
      split.
      + apply Rle_mult_inv_pos; lra.
      + apply (Rmult_lt_reg_r (IZR d)); [lra|].
        unfold Rdiv. rewrite Rmult_assoc, Rinv_l by lra. lra. }
  split; [exact Hr|].
  rewrite score_tempo_below_ideal by lra. split; [reflexivity|]. lra.
Qed.

End TempoFacts.

(** ** Ranges of the biomechanical metrics *)

Module AnalyzerFacts.

Import Analyzer Props.

#[local] Open Scope R_scope.

Lemma mapM_Forall {A B : Type} (f : A -> option B) (Q : B -> Prop) (l : list A) :
  (forall x y, f x = Some y -> Q y) ->
  forall k, mapM f l = Some k -> Forall Q k.
Proof.
  intros Hf. induction l as [|x l IH]; intros k Hk; simpl in Hk.
  - injection Hk as <-. constructor.
  - destruct (f x) as [y|] eqn:Hy; simpl in Hk; [|discriminate].
    destruct (mapM f l) as [k'|]; simpl in Hk; [|discriminate].
    injection Hk as <-. constructor; [eapply Hf; eassumption|now apply IH].
Qed.

Lemma mapM_length {A B : Type} (f : A -> option B) (l : list A) :
  forall k, mapM f l = Some k -> length k = length l.
Proof.
  induction l as [|x l IH]; intros k Hk; simpl in Hk.
  - injection Hk as <-. reflexivity.
  - destruct (f x) as [y|]; simpl in Hk; [|discriminate].
    destruct (mapM f l) as [k'|]; simpl in Hk; [|discriminate].
    injection Hk as <-. simpl. f_equal. now apply IH.
Qed.

Lemma fold_left_Rmax_bounds (lo hi : R) (l : list R) : forall x,
  lo <= x <= hi -> Forall (fun y => lo <= y <= hi) l ->
  lo <= fold_left Rmax l x <= hi.
Proof.
  induction l as [|y l IH]; intros x Hx Hall; simpl; [exact Hx|].
  apply Forall_cons in Hall as [Hy Hall]. apply IH; [|exact Hall].
  unfold Rmax. destruct (Rle_dec x y); assumption.
Qed.

Lemma fold_left_Rmin_bounds (lo hi : R) (l : list R) : forall x,
  lo <= x <= hi -> Forall (fun y => lo <= y <= hi) l ->
  lo <= fold_left Rmin l x <= hi.
Proof.
  induction l as [|y l IH]; intros x Hx Hall; simpl; [exact Hx|].
  apply Forall_cons in Hall as [Hy Hall]. apply IH; [|exact Hall].
  unfold Rmin. destruct (Rle_dec x y); assumption.
Qed.

Lemma fold_left_Rmin_le_Rmax (l : list R) : forall x y,
  x <= y -> fold_left Rmin l x <= fold_left Rmax l y.
Proof.
  induction l as [|z l IH]; intros x y Hxy; simpl; [exact Hxy|].
  apply IH. unfold Rmin, Rmax.
  destruct (Rle_dec x z), (Rle_dec y z); lra.
Qed.

Lemma list_max_bounds (lo hi : R) (l : list R) (m : R) :
  Forall (fun y => lo <= y <= hi) l -> list_max l = Some m -> lo <= m <= hi.
Proof.
  destruct l as [|x l]; [discriminate|]. intros Hall [= <-].
  apply Forall_cons in Hall as [Hx Hall]. now apply fold_left_Rmax_bounds.
Qed.

Lemma list_min_bounds (lo hi : R) (l : list R) (m : R) :
  Forall (fun y => lo <= y <= hi) l -> list_min l = Some m -> lo <= m <= hi.
Proof.
  destruct l as [|x l]; [discriminate|]. intros Hall [= <-].
  apply Forall_cons in Hall as [Hx Hall]. now apply fold_left_Rmin_bounds.
Qed.

Lemma clip_bounds (x lo hi : R) : lo <= hi -> lo <= clip x lo hi <= hi.
Proof.
  intros Hlh. unfold clip, Rmin, Rmax.
  destruct (Rle_dec x lo); destruct (Rle_dec _ hi); lra.
Qed.

Lemma frame_weight_ratio_bounds (lm : option frame) (r : R) :
  frame_weight_ratio lm = Some r -> 0 <= r <= 1.
Proof.
  unfold frame_weight_ratio. destruct lm as [rows|]; [|intros [= <-]; lra].
  destruct (Py.getitem rows Config.left_hip); simpl; [|discriminate].
  destruct (Py.getitem rows Config.right_hip); simpl; [|discriminate].
  destruct (Py.getitem rows Config.left_ankle); simpl; [|discriminate].
  destruct (Py.getitem rows Config.right_ankle); simpl; [|discriminate].
  destruct (Rltb _ _); intros [= <-]; [lra|].
  apply clip_bounds. lra.
Qed.

(** The score of a weight shift is the shift as a percentage of the
    threshold, capped at 100: the two branches of the method agree. *)
Lemma weight_transfer_score_cap (shift : R) :
  weight_transfer_score shift
  = Rmin 100 (shift / Config.weight_shift_threshold * 100).
Proof.
  unfold weight_transfer_score, Rleb, Config.weight_shift_threshold.
  destruct (Rle_dec (15 / 100) shift) as [Hge|Hlt]; [reflexivity|].
  rewrite Rmin_right; [reflexivity|]. lra.
Qed.

Lemma weight_transfer_score_bounds (shift : R) :
  0 <= shift -> 0 <= weight_transfer_score shift <= 100.
Proof.
  intros Hs. rewrite weight_transfer_score_cap.
  unfold Config.weight_shift_threshold, Rmin.
  destruct (Rle_dec 100 _); lra.
Qed.

(** What [calculate_weight_transfer] returns. *)
Lemma weight_transfer_result (seq : landmarks) (kp : gmap string Z)
    (wm : gmap string pyval) :
  calculate_weight_transfer seq kp = Some wm ->
  exists (ratios : list R) (shift : R),
    wm !! "weight_distribution" = Some (Series ratios)
    /\ wm !! "max_weight_shift" = Some (Num shift)
    /\ wm !! "weight_transfer_score" = Some (Num (weight_transfer_score shift))
    /\ Forall (fun r => 0 <= r <= 1) ratios
    /\ 0 <= shift <= 1.
Proof.
  unfold calculate_weight_transfer.
  destruct (frames_in_range seq _ _) as [frames|]; simpl; [|discriminate].
  destruct (mapM frame_weight_ratio frames) as [ratios|] eqn:Hr; simpl;
    [|discriminate].
  pose proof (mapM_Forall frame_weight_ratio (fun r => 0 <= r <= 1) frames
                frame_weight_ratio_bounds ratios Hr) as Hall.
  destruct ratios as [|r0 ratios].
  - simpl. intros [= <-]. exists [], 0.
    repeat split; try reflexivity; try constructor; try lra.
    unfold weight_transfer_score, Rleb, Config.weight_shift_threshold.
    destruct (Rle_dec _ _) as [Hle|_]; [lra|].
    unfold weight_defaults. rewrite lookup_insert_ne, lookup_insert_ne,
      lookup_insert_eq by discriminate.
    do 2 f_equal. lra.
  - cbn [list_max list_min]. intros [= <-].
    exists (r0 :: ratios), (fold_left Rmax ratios r0 - fold_left Rmin ratios r0).
    split; [reflexivity|]. split; [reflexivity|]. split; [reflexivity|].
    split; [exact Hall|].
    apply Forall_cons in Hall as [H0 Hall].
    pose proof (fold_left_Rmax_bounds 0 1 ratios r0 H0 Hall).
    pose proof (fold_left_Rmin_bounds 0 1 ratios r0 H0 Hall).
    pose proof (fold_left_Rmin_le_Rmax ratios r0 r0 ltac:(lra)).
    lra.
Qed.

(** X7. Whenever [calculate_weight_transfer] returns, every per-frame weight
    ratio lies in [0, 1], the maximum weight shift lies in [0, 1], and the
    weight-transfer score is the shift as a percentage of the threshold 0.15
    capped at 100, hence in [0, 100], and equal to 100 exactly when the shift
    reaches the threshold. *)
Theorem weight_transfer_ranges (seq : landmarks) (kp : gmap string Z)
    (wm : gmap string pyval) :
  calculate_weight_transfer seq kp = Some wm ->
  exists (ratios : list R) (shift score : R),
    wm !! "weight_distribution" = Some (Series ratios)
    /\ wm !! "max_weight_shift" = Some (Num shift)
    /\ wm !! "weight_transfer_score" = Some (Num score)
    /\ Forall (fun r => 0 <= r <= 1) ratios
    /\ 0 <= shift <= 1
    /\ score = Rmin 100 (shift / Config.weight_shift_threshold * 100)
    /\ 0 <= score <= 100
    /\ (score = 100 <-> Config.weight_shift_threshold <= shift).
Proof.
  intros Hwm.
  destruct (weight_transfer_result seq kp wm Hwm)
    as (ratios & shift & Hd & Hs & Hsc & Hall & Hb).
  exists ratios, shift, (weight_transfer_score shift).
  split; [exact Hd|]. split; [exact Hs|]. split; [exact Hsc|].
  split; [exact Hall|]. split; [exact Hb|].
  split; [apply weight_transfer_score_cap|].
  split; [apply weight_transfer_score_bounds; lra|].
  rewrite weight_transfer_score_cap.
  unfold Config.weight_shift_threshold, Rmin.
  destruct (Rle_dec 100 _); split; intros; lra.
Qed.

Lemma weight_transfer_ranges_witness :
  exists wm,
    calculate_weight_transfer [None; None; None] (<["address" := 1%Z]> ∅)
    = Some wm
    /\ exists (ratios : list R) (shift score : R),
         wm !! "weight_distribution" = Some (Series ratios)
         /\ wm !! "max_weight_shift" = Some (Num shift)
         /\ wm !! "weight_transfer_score" = Some (Num score)
         /\ Forall (fun r => 0 <= r <= 1) ratios
         /\ 0 <= shift <= 1
         /\ score = Rmin 100 (shift / Config.weight_shift_threshold * 100)
         /\ 0 <= score <= 100
         /\ (score = 100 <-> Config.weight_shift_threshold <= shift).
Proof.
  eexists. split.
  - reflexivity.
  - apply (weight_transfer_ranges [None; None; None] (<["address" := 1%Z]> ∅)).
    reflexivity.
Defined.

Lemma degrees_acos_bounds (x : R) : 0 <= degrees (acos x) <= 180.
Proof.
  unfold degrees. pose proof PI_RGT_0 as Hpi.
  destruct (acos_bound x) as [H0 H1].
  assert (H180 : 0 < 180 / PI) by (apply Rdiv_lt_0_compat; lra).
  split.
  - apply Rmult_le_pos; lra.
  - replace 180 with (PI * (180 / PI)) at 2 by (field; lra).
    apply Rmult_le_compat_r; lra.
Qed.

Lemma rotation_angle_bounds (u v : vec2) :
  -180 <= _calculate_rotation_angle u v <= 180.
Proof.
  unfold _calculate_rotation_angle. cbv zeta.
  match goal with |- context [degrees (acos ?x)] =>
    pose proof (degrees_acos_bounds x) as Hb end.
  destruct (Rltb _ 0); lra.
Qed.

Lemma get_angle_bounds (p1 p2 p3 : point) : 0 <= _get_angle p1 p2 p3 <= 180.
Proof. unfold _get_angle. cbv zeta. apply degrees_acos_bounds. Qed.

Lemma rotation_sequence_score_bounds (ms mh : R) :
  0 <= rotation_sequence_score ms mh <= 100.
Proof.
  unfold rotation_sequence_score. destruct (Rltb mh ms); [|lra].
  pose proof (Rabs_pos (ms / (mh + 1) - 2)).
  split; [apply Rmax_l|]. apply Rmax_lub; lra.
Qed.

Lemma frame_rotations_bounds (hr sr : vec2) (lm : option frame) (p : R * R) :
  frame_rotations hr sr lm = Some p ->
  0 <= Rabs (fst p) <= 180 /\ 0 <= Rabs (snd p) <= 180.
Proof.
  unfold frame_rotations. destruct lm as [rows|].
  - destruct (Py.getitem rows Config.left_hip); simpl; [|discriminate].
    destruct (Py.getitem rows Config.right_hip); simpl; [|discriminate].
    destruct (Py.getitem rows Config.left_shoulder); simpl; [|discriminate].
    destruct (Py.getitem rows Config.right_shoulder); simpl; [|discriminate].
    intros [= <-]. simpl.
    split; (split; [apply Rabs_pos|apply Rabs_le; apply rotation_angle_bounds]).
  - intros [= <-]. simpl. rewrite Rabs_R0. lra.
Qed.

Lemma rotation_metrics_result (seq : landmarks) (kp : gmap string Z)
    (rm : gmap string pyval) :
  calculate_rotation_metrics seq kp = Some rm ->
  exists (max_hip max_shoulder score : R),
    rm !! "max_hip_rotation" = Some (Num max_hip)
    /\ rm !! "max_shoulder_rotation" = Some (Num max_shoulder)
    /\ rm !! "rotation_sequence_score" = Some (Num score)
    /\ 0 <= max_hip <= 180 /\ 0 <= max_shoulder <= 180
    /\ 0 <= score <= 100
    /\ (rm = rotation_defaults
        \/ score = rotation_sequence_score max_shoulder max_hip)
    /\ (rm <> rotation_defaults -> max_shoulder <= max_hip -> score = 50).
Proof.
  assert (Hdef : exists (max_hip max_shoulder score : R),
    rotation_defaults !! "max_hip_rotation" = Some (Num max_hip)
    /\ rotation_defaults !! "max_shoulder_rotation" = Some (Num max_shoulder)
    /\ rotation_defaults !! "rotation_sequence_score" = Some (Num score)
    /\ 0 <= max_hip <= 180 /\ 0 <= max_shoulder <= 180
    /\ 0 <= score <= 100
    /\ (rotation_defaults = rotation_defaults
        \/ score = rotation_sequence_score max_shoulder max_hip)
    /\ (rotation_defaults <> rotation_defaults -> max_shoulder <= max_hip ->
        score = 50)).
  { exists 0, 0, 0. repeat split; try reflexivity; try lra; auto.
    intros Hne. contradiction. }
  unfold calculate_rotation_metrics.
  destruct (_ <=? _)%Z; [intros [= <-]; exact Hdef|].
  destruct (Py.getitem seq _) as [[rows|]|]; simpl;
    [|intros [= <-]; exact Hdef|discriminate].
  destruct (Py.getitem rows Config.left_hip); simpl; [|discriminate].
  destruct (Py.getitem rows Config.right_hip); simpl; [|discriminate].
  destruct (Py.getitem rows Config.left_shoulder); simpl; [|discriminate].
  destruct (Py.getitem rows Config.right_shoulder); simpl; [|discriminate].
  destruct (frames_in_range seq _ _) as [frames|]; simpl; [|discriminate].
  destruct (mapM _ frames) as [rotations|] eqn:Hrot; simpl; [|discriminate].
  pose proof (mapM_Forall _ _ frames (frame_rotations_bounds _ _) rotations Hrot)
    as Hall.
  destruct (list_max (map Rabs (map fst rotations))) as [mh|] eqn:Hmh;
    [|intros [= <-]; exact Hdef].
  destruct (list_max (map Rabs (map snd rotations))) as [ms|] eqn:Hms;
    [|intros [= <-]; exact Hdef].
  intros [= <-].
  exists mh, ms, (rotation_sequence_score ms mh).
  split; [reflexivity|]. split; [reflexivity|]. split; [reflexivity|].
  split.
  { apply (list_max_bounds 0 180 _ _) in Hmh; [exact Hmh|].
    rewrite !Forall_fmap. eapply Forall_impl; [exact Hall|].
    simpl. intros rot [Hp _]. exact Hp. }
  split.
  { apply (list_max_bounds 0 180 _ _) in Hms; [exact Hms|].
    rewrite !Forall_fmap. eapply Forall_impl; [exact Hall|].
    simpl. intros rot [_ Hp]. exact Hp. }
  split; [apply rotation_sequence_score_bounds|].
  split; [right; reflexivity|].
  intros _ Hle. unfold rotation_sequence_score, Rltb.
  destruct (Rlt_dec mh ms); [lra|reflexivity].
Qed.

(** X8. Whenever [calculate_rotation_metrics] returns, the largest absolute
    hip and shoulder rotations lie in [0, 180] degrees and the
    rotation-sequence score lies in [0, 100]: it is 0 in the initial
    dictionary (address frame missing or past the end) and otherwise the
    score of the two maxima, which is 50 whenever the shoulders do not turn
    more than the hips. *)
Theorem rotation_metrics_ranges (seq : landmarks) (kp : gmap string Z)
    (rm : gmap string pyval) :
  calculate_rotation_metrics seq kp = Some rm ->
  exists (max_hip max_shoulder score : R),
    rm !! "max_hip_rotation" = Some (Num max_hip)
    /\ rm !! "max_shoulder_rotation" = Some (Num max_shoulder)
    /\ rm !! "rotation_sequence_score" = Some (Num score)
    /\ 0 <= max_hip <= 180 /\ 0 <= max_shoulder <= 180
    /\ 0 <= score <= 100
    /\ (rm = rotation_defaults
        \/ score = rotation_sequence_score max_shoulder max_hip)
    /\ (rm <> rotation_defaults -> max_shoulder <= max_hip -> score = 50).
Proof.
  intros Hrm.
  destruct (rotation_metrics_result seq kp rm Hrm)
    as (mh & ms & score & Hmh & Hms & Hscore & Hbh & Hbs & Hb & Hdef & Hfifty).
  exists mh, ms, score.
  split; [exact Hmh|]. split; [exact Hms|]. split; [exact Hscore|].
  split; [exact Hbh|]. split; [exact Hbs|]. split; [exact Hb|].
  split; [exact Hdef | exact Hfifty].
Qed.

Lemma rotation_metrics_ranges_witness :
  exists rm,
    calculate_rotation_metrics [None; None] ∅ = Some rm
    /\ exists (max_hip max_shoulder score : R),
         rm !! "max_hip_rotation" = Some (Num max_hip)
         /\ rm !! "max_shoulder_rotation" = Some (Num max_shoulder)
         /\ rm !! "rotation_sequence_score" = Some (Num score)
         /\ 0 <= max_hip <= 180 /\ 0 <= max_shoulder <= 180
         /\ 0 <= score <= 100
         /\ (rm = rotation_defaults
             \/ score = rotation_sequence_score max_shoulder max_hip)
         /\ (rm <> rotation_defaults -> max_shoulder <= max_hip -> score = 50).
Proof.
  eexists. split.
  - reflexivity.
  - apply (rotation_metrics_ranges [None; None] ∅).
    reflexivity.
Defined.

Lemma wrist_position_score_bounds (angle ideal : R) :
  0 <= wrist_position_score angle ideal <= 100.
Proof.
  unfold wrist_position_score, Config.wrist_tolerance.
  pose proof (Rabs_pos (angle - ideal)).
  split; [apply Rmax_l|]. apply Rmax_lub; lra.
Qed.

Lemma wrist_angle_at_bounds (seq : landmarks) (i : Z) (a : option R) :
  wrist_angle_at seq i = Some a -> 0 <= default 0 a <= 180.
Proof.
  unfold wrist_angle_at. destruct (_ <? _)%Z; [|intros [= <-]; simpl; lra].
  destruct (Py.getitem seq i) as [[rows|]|]; simpl;
    [|intros [= <-]; simpl; lra|discriminate].
  destruct (Py.getitem rows Config.right_shoulder); simpl; [|discriminate].
  destruct (Py.getitem rows Config.right_elbow); simpl; [|discriminate].
  destruct (Py.getitem rows Config.right_wrist); simpl; [|discriminate].
  intros [= <-]. simpl. apply get_angle_bounds.
Qed.

Lemma wrist_angles_result (seq : landmarks) (kp : gmap string Z)
    (wm : gmap string pyval) :
  calculate_wrist_angles seq kp = Some wm ->
  exists (backswing impact score : R),
    wm !! "backswing_wrist_angle" = Some (Num backswing)
    /\ wm !! "impact_wrist_angle" = Some (Num impact)
    /\ wm !! "wrist_hinge_score" = Some (Num score)
    /\ wm !! "wrist_angles" = Some (Series [])
    /\ 0 <= backswing <= 180 /\ 0 <= impact <= 180
    /\ score = (wrist_position_score backswing Config.ideal_wrist_hinge_backswing
                + wrist_position_score impact Config.ideal_wrist_hinge_impact) / 2
    /\ 0 <= score <= 100.
Proof.
  unfold calculate_wrist_angles. cbv zeta.
  destruct (wrist_angle_at seq (get_pos kp "top" 0)) as [at_top|] eqn:Htop;
    simpl; [|discriminate].
  destruct (wrist_angle_at seq (get_pos kp "impact" _)) as [at_impact|] eqn:Himp;
    simpl; [|discriminate].
  intros [= <-].
  exists (default 0 at_top), (default 0 at_impact).
  eexists. split; [reflexivity|]. split; [reflexivity|]. split; [reflexivity|].
  split; [reflexivity|].
  split; [eapply wrist_angle_at_bounds; eassumption|].
  split; [eapply wrist_angle_at_bounds; eassumption|].
  split; [reflexivity|].
  pose proof (wrist_position_score_bounds (default 0 at_top)
                Config.ideal_wrist_hinge_backswing).
  pose proof (wrist_position_score_bounds (default 0 at_impact)
                Config.ideal_wrist_hinge_impact).
  lra.
Qed.

(** X9. Whenever [calculate_wrist_angles] returns, the two reported wrist
    angles lie in [0, 180] degrees, the wrist-hinge score is the mean of the
    two per-position scores and lies in [0, 100], and the list
    [wrist_angles] of the result is empty (the method never fills it). *)
Theorem wrist_angles_ranges (seq : landmarks) (kp : gmap string Z)
    (wm : gmap string pyval) :
  calculate_wrist_angles seq kp = Some wm ->
  exists (backswing impact score : R),
    wm !! "backswing_wrist_angle" = Some (Num backswing)
    /\ wm !! "impact_wrist_angle" = Some (Num impact)
    /\ wm !! "wrist_hinge_score" = Some (Num score)
    /\ wm !! "wrist_angles" = Some (Series [])
    /\ 0 <= backswing <= 180 /\ 0 <= impact <= 180
    /\ score = (wrist_position_score backswing Config.ideal_wrist_hinge_backswing
                + wrist_position_score impact Config.ideal_wrist_hinge_impact) / 2
    /\ 0 <= score <= 100.
Proof.
  intros Hwm.
  destruct (wrist_angles_result seq kp wm Hwm)
    as (b & i & score & Hb & Hi & Hscore & Hlist & Hbb & Hbi & Hmean & Hrange).
  exists b, i, score.
  split; [exact Hb|]. split; [exact Hi|]. split; [exact Hscore|].
  split; [exact Hlist|]. split; [exact Hbb|]. split; [exact Hbi|].
  split; [exact Hmean | exact Hrange].
Qed.

Lemma wrist_angles_ranges_witness :
  exists wm,
    calculate_wrist_angles [body_at (0, 0, 0); None] ∅ = Some wm
    /\ exists (backswing impact score : R),
         wm !! "backswing_wrist_angle" = Some (Num backswing)
         /\ wm !! "impact_wrist_angle" = Some (Num impact)
         /\ wm !! "wrist_hinge_score" = Some (Num score)
         /\ wm !! "wrist_angles" = Some (Series [])
         /\ 0 <= backswing <= 180 /\ 0 <= impact <= 180
         /\ score
            = (wrist_position_score backswing Config.ideal_wrist_hinge_backswing
               + wrist_position_score impact Config.ideal_wrist_hinge_impact) / 2
         /\ 0 <= score <= 100.
Proof.
  eexists. split.
  - reflexivity.
  - apply (wrist_angles_ranges [body_at (0, 0, 0); None] ∅). reflexivity.
Defined.

Lemma wrist_angle_at_missing (seq : landmarks) (i : Z) :
  all_missing seq -> (0 <= i)%Z -> wrist_angle_at seq i = Some None.
Proof.
  intros Hall Hi. unfold wrist_angle_at.
  destruct (i <? Z.of_nat (length seq))%Z eqn:Hlt; [|reflexivity].
  apply Z.ltb_lt in Hlt.
  rewrite (ErrorFacts.getitem_all_missing seq i Hall) by lia. reflexivity.
Qed.


(** X10. When no frame has a detected pose and the top and impact positions
    are not negative, [calculate_wrist_angles] returns with both angles left
    at 0 and a wrist-hinge score of 0.  On an empty sequence without an
    [impact] key it raises: the default impact frame is [len - 1 = -1], which
    passes the test [impact_frame < len] and is then used as an index. *)
Theorem wrist_angles_missing (seq : landmarks) (kp : gmap string Z) :
  (all_missing seq ->
   (0 <= get_pos kp "top" 0)%Z ->
   (0 <= get_pos kp "impact" (Z.of_nat (length seq) - 1))%Z ->
   exists wm,
     calculate_wrist_angles seq kp = Some wm
     /\ wm !! "backswing_wrist_angle" = Some (Num 0)
     /\ wm !! "impact_wrist_angle" = Some (Num 0)
     /\ exists score, wm !! "wrist_hinge_score" = Some (Num score) /\ score = 0)
  /\ (seq = [] -> kp !! "impact" = None -> calculate_wrist_angles seq kp = None).
Proof.
  split.
  - intros Hall Htop Himp. unfold calculate_wrist_angles. cbv zeta.
    rewrite !wrist_angle_at_missing by assumption. simpl.
    eexists. split; [reflexivity|]. split; [reflexivity|]. split; [reflexivity|].
    eexists. split; [reflexivity|].
    unfold wrist_position_score, Config.wrist_tolerance,
      Config.ideal_wrist_hinge_backswing, Config.ideal_wrist_hinge_impact.
    replace (0 - 90) with (-90) by ring. replace (0 - 45) with (-45) by ring.
    rewrite !Rabs_left by lra.
    rewrite !Rmax_left by lra. lra.
  - intros -> Hkp. unfold calculate_wrist_angles. cbv zeta.
    assert (Himp : get_pos kp "impact" (Z.of_nat (length (@nil (option frame))) - 1)
                   = (-1)%Z).
    { unfold get_pos. rewrite Hkp. reflexivity. }
    rewrite Himp.
    destruct (wrist_angle_at [] (get_pos kp "top" 0)); reflexivity.
Qed.

Lemma wrist_angles_missing_witness :
  exists wm,
    calculate_wrist_angles [None; None; None] (<["top" := 1%Z]> ∅) = Some wm
    /\ wm !! "backswing_wrist_angle" = Some (Num 0)
    /\ wm !! "impact_wrist_angle" = Some (Num 0)
    /\ exists score, wm !! "wrist_hinge_score" = Some (Num score) /\ score = 0.
Proof.
  apply (proj1 (wrist_angles_missing [None; None; None] (<["top" := 1%Z]> ∅))).
  - repeat constructor.
  - apply Z.leb_le. reflexivity.
  - apply Z.leb_le. reflexivity.
Defined.


Lemma acos_quarter (y : R) : 0 <= y <= 1 -> 0 <= acos y <= PI / 2.
Proof.
  intros Hy. destruct (acos_bound y) as [H0 H1]. split; [exact H0|].
  destruct (Rle_lt_dec (acos y) (PI / 2)) as [Hle|Hgt]; [exact Hle|].
  exfalso. pose proof PI_RGT_0 as Hpi.
  pose proof (cos_decreasing_1 (PI / 2) (acos y) ltac:(lra) ltac:(lra) H0 H1 Hgt)
    as Hd.
  rewrite cos_PI2, cos_acos in Hd by lra. lra.
Qed.

Lemma abs_x_le_row_norm (n : point) : Rabs (px n) <= Detector.row_norm n.
Proof.
  unfold Detector.row_norm.
  rewrite <- sqrt_Rsqr_abs. apply sqrt_le_1_alt. unfold Rsqr.
  pose proof (Rle_0_sqr (py n)) as Hy. pose proof (Rle_0_sqr (pz n)) as Hz.
  unfold Rsqr in Hy, Hz. lra.
Qed.

Lemma plane_angle_bounds (n : point) :
  0 <= degrees (acos (Rabs (dot3 n (1, 0, 0)) / (Detector.row_norm n + eps)))
    <= 90.
Proof.
  pose proof (abs_x_le_row_norm n) as Hx. pose proof (Rabs_pos (px n)) as Hp.
  assert (He : 0 < eps) by (unfold eps; lra).
  assert (Hdot : dot3 n (1, 0, 0) = px n) by (unfold dot3, px, py, pz; simpl; ring).
  rewrite Hdot.
  assert (Hq : 0 <= Rabs (px n) / (Detector.row_norm n + eps) <= 1).
  { split.
    - apply Rle_mult_inv_pos; lra.
    - apply (Rmult_le_reg_r (Detector.row_norm n + eps)); [lra|].
      unfold Rdiv. rewrite Rmult_assoc, Rinv_l by lra. lra. }
  destruct (acos_quarter _ Hq) as [H0 H1].
  unfold degrees. pose proof PI_RGT_0 as Hpi.
  assert (H180 : 0 < 180 / PI) by (apply Rdiv_lt_0_compat; lra).
  split.
  - apply Rmult_le_pos; lra.
  - replace 90 with (PI / 2 * (180 / PI)) by (field; lra).
    apply Rmult_le_compat_r; lra.
Qed.

Lemma swing_plane_result (svd_normal : list point -> point)
    (seq : landmarks) (kp : gmap string Z) :
  (forall pm, calculate_swing_plane svd_normal seq kp = Some pm ->
     (pm = swing_plane_zero /\ pm !! "angle_error" = None)
     \/ exists (angle consistency deviation : R),
          pm !! "swing_plane_angle" = Some (Num angle)
          /\ pm !! "plane_consistency" = Some (Num consistency)
          /\ pm !! "plane_deviation" = Some (Num deviation)
          /\ pm !! "ideal_angle" = Some (Num 45)
          /\ pm !! "angle_error" = Some (Num (Rabs (angle - 45)))
          /\ 0 <= angle <= 90
          /\ 0 <= deviation
          /\ 0 <= consistency <= 100
          /\ Rabs (angle - 45) <= 45)
  /\ (all_missing seq -> (0 <= get_pos kp "address" 0)%Z ->
      calculate_swing_plane svd_normal seq kp = Some swing_plane_zero).
Proof.
  split.
  - intros pm. unfold calculate_swing_plane. cbv zeta.
    destruct (frames_in_range seq _ _) as [frames|]; simpl; [|discriminate].
    destruct (mapM wrist_position frames) as [found|]; simpl; [|discriminate].
    destruct (length (concat found) <? 3)%nat.
    + intros [= <-]. left. split; reflexivity.
    + intros [= <-]. right.
      set (centered := map _ (concat found)).
      set (normal := svd_normal centered).
      set (angle := degrees (acos (Rabs (dot3 normal (1, 0, 0))
                                   / (Detector.row_norm normal + eps)))).
      set (dev := np_std (map (fun p => Rabs (dot3 p normal)) centered)).
      exists angle, (Rmax 0 (100 - dev * 1000)), dev.
      split; [reflexivity|]. split; [reflexivity|]. split; [reflexivity|].
      split; [reflexivity|]. split; [reflexivity|].
      pose proof (plane_angle_bounds normal) as Ha. fold angle in Ha.
      assert (Hdev : 0 <= dev) by (unfold dev, np_std; apply sqrt_pos).
      split; [exact Ha|]. split; [exact Hdev|].
      split; [split; [apply Rmax_l|apply Rmax_lub; lra]|].
      apply Rabs_le. lra.
  - intros Hall Haddr. unfold calculate_swing_plane. cbv zeta.
    destruct (ErrorFacts.frames_in_range_all_missing seq
                (get_pos kp "address" 0)
                (get_pos kp "finish" (Z.of_nat (length seq) - 1)) Hall Haddr)
      as [k ->].
    simpl.
    rewrite (ErrorFacts.mapM_constant wrist_position [] (repeat None k)).
    2:{ intros x Hx. apply repeat_spec in Hx. now subst. }
    simpl.
    assert (Hc : forall n, concat (repeat (@nil point) n) = []).
    { induction n as [|n IH]; simpl; [reflexivity|exact IH]. }
    rewrite Hc. reflexivity.
Qed.

(** X12. Whatever normal vector the singular value decomposition delivers,
    [calculate_swing_plane] returns either the three-entry zero dictionary
    (fewer than three wrist positions; it has no [angle_error]) or a
    dictionary whose plane angle lies in [0, 90] degrees, whose deviation is
    not negative, whose consistency lies in [0, 100] and whose angle error
    against the ideal 45 degrees is at most 45.  With no detected frame it
    returns the zero dictionary. *)
Theorem swing_plane_ranges (svd_normal : list point -> point)
    (seq : landmarks) (kp : gmap string Z) :
  (forall pm, calculate_swing_plane svd_normal seq kp = Some pm ->
     (pm = swing_plane_zero /\ pm !! "angle_error" = None)
     \/ exists (angle consistency deviation : R),
          pm !! "swing_plane_angle" = Some (Num angle)
          /\ pm !! "plane_consistency" = Some (Num consistency)
          /\ pm !! "plane_deviation" = Some (Num deviation)
          /\ pm !! "ideal_angle" = Some (Num 45)
          /\ pm !! "angle_error" = Some (Num (Rabs (angle - 45)))
          /\ 0 <= angle <= 90
          /\ 0 <= deviation
          /\ 0 <= consistency <= 100
          /\ Rabs (angle - 45) <= 45)
  /\ (all_missing seq -> (0 <= get_pos kp "address" 0)%Z ->
      calculate_swing_plane svd_normal seq kp = Some swing_plane_zero).
Proof.
  destruct (swing_plane_result svd_normal seq kp) as [Hranges Hmissing].
  split.
  - intros pm Hpm. exact (Hranges pm Hpm).
  - intros Hall Haddr. exact (Hmissing Hall Haddr).
Qed.

Lemma swing_plane_ranges_witness :
  calculate_swing_plane (fun _ => (0, 0, 1)) [None; None; None] ∅
  = Some swing_plane_zero
  /\ exists pm,
       calculate_swing_plane (fun _ => (0, 0, 1))
         [body_at (0, 0, 0); body_at (1, 0, 0); body_at (0, 1, 0)] ∅ = Some pm
       /\ ((pm = swing_plane_zero /\ pm !! "angle_error" = None)
           \/ exists (angle consistency deviation : R),
                pm !! "swing_plane_angle" = Some (Num angle)
                /\ pm !! "plane_consistency" = Some (Num consistency)
                /\ pm !! "plane_deviation" = Some (Num deviation)
                /\ pm !! "ideal_angle" = Some (Num 45)
                /\ pm !! "angle_error" = Some (Num (Rabs (angle - 45)))
                /\ 0 <= angle <= 90
                /\ 0 <= deviation
                /\ 0 <= consistency <= 100
                /\ Rabs (angle - 45) <= 45).
Proof.
  split.
  - apply (proj2 (swing_plane_ranges (fun _ => (0, 0, 1)) [None; None; None] ∅)).
    + repeat constructor.
    + apply Z.leb_le. reflexivity.
  - eexists. split.
    + reflexivity.
    + apply (proj1 (swing_plane_ranges (fun _ => (0, 0, 1))
                      [body_at (0, 0, 0); body_at (1, 0, 0); body_at (0, 1, 0)] ∅)).
      reflexivity.
Defined.

End AnalyzerFacts.

(** ** More on the error labels *)

Module ErrorMore.

Import Analyzer Props.

#[local] Open Scope R_scope.

(** X13. With weight metrics computed by [calculate_weight_transfer], the
    label [reverse_pivot] is never reported without [sway]: a shift below
    half the threshold scores below 50, which is below the 60 that [sway]
    tests. *)
Theorem reverse_pivot_implies_sway (seq : landmarks) (kp : gmap string Z)
    (rm wm : gmap string pyval) (errors : list string) :
  calculate_weight_transfer seq kp = Some wm ->
  detect_common_errors seq kp rm wm = Some errors ->
  In "reverse_pivot"%string errors -> In "sway"%string errors.
Proof.
  intros Hwm Hdet Hrp.
  destruct (AnalyzerFacts.weight_transfer_result seq kp wm Hwm)
    as (ratios & shift & _ & Hs & Hsc & _ & Hb).
  assert (Hshift : get_num wm "max_weight_shift" 0 = Some shift)
    by (unfold get_num; now rewrite Hs).
  assert (Hscore : get_num wm "weight_transfer_score" 0
                   = Some (weight_transfer_score shift))
    by (unfold get_num; now rewrite Hsc).
  destruct (get_num rm "rotation_sequence_score" 0) as [rot|] eqn:Hrot.
  2:{ unfold detect_common_errors in Hdet. cbv zeta in Hdet.
      destruct (_check_early_extension seq kp); [|discriminate].
      destruct (_check_over_the_top seq kp); [|discriminate].
      simpl in Hdet. rewrite Hshift in Hdet. simpl in Hdet.
      rewrite Hrot in Hdet. discriminate. }
  destruct (ErrorFacts.metric_errors_spec seq kp rm wm errors shift rot
              (weight_transfer_score shift) Hdet Hshift Hrot Hscore)
    as (Hpivot & _ & Hsway).
  apply Hsway. apply Hpivot in Hrp.
  rewrite AnalyzerFacts.weight_transfer_score_cap.
  unfold Config.weight_shift_threshold in *. unfold Rmin.
  destruct (Rle_dec 100 _); lra.
Qed.

Lemma reverse_pivot_implies_sway_witness :
  In "sway"%string ["reverse_pivot"; "flat_shoulder"; "sway"]%string.
Proof.
  destruct (ErrorFacts.errors_all_missing [None; None] ∅)
    as (rm & wm & _ & Hwm & _ & _ & Hdet).
  - repeat constructor.
  - apply Z.leb_le. reflexivity.
  - apply Z.leb_le. reflexivity.
  - apply (reverse_pivot_implies_sway [None; None] ∅ rm wm _ Hwm Hdet).
    left. reflexivity.
Defined.

(** X14. The list returned by [detect_common_errors] is a sub-list of
    [early_extension, over_the_top, reverse_pivot, flat_shoulder, sway] in
    that order: no label is reported twice, none is reported out of order,
    and at most five are reported. *)
Theorem errors_in_fixed_order (seq : landmarks) (kp : gmap string Z)
    (rm wm : gmap string pyval) (errors : list string) :
  detect_common_errors seq kp rm wm = Some errors ->
  errors `sublist_of` error_labels /\ NoDup errors /\ (length errors <= 5)%nat.
Proof.
  intros Hdet.
  assert (Hsub : errors `sublist_of` error_labels).
  { unfold detect_common_errors in Hdet. cbv zeta in Hdet.
    destruct (_check_early_extension seq kp) as [b1|]; [|discriminate].
    destruct (_check_over_the_top seq kp) as [b2|]; [|discriminate].
    simpl in Hdet.
    destruct (get_num wm "max_weight_shift" 0) as [shift|]; [|discriminate].
    simpl in Hdet.
    destruct (get_num rm "rotation_sequence_score" 0) as [rot|]; [|discriminate].
    simpl in Hdet.
    destruct (get_num wm "weight_transfer_score" 0) as [score|]; [|discriminate].
    simpl in Hdet. injection Hdet as <-.
    unfold append_if, error_labels.
    destruct b1, b2, (Rltb shift _), (Rltb rot _), (Rltb score _); simpl;
      repeat constructor. }
  split; [exact Hsub|]. split.
  - apply (sublist_NoDup errors error_labels); [|exact Hsub].
    unfold error_labels. compute_done.
  - apply sublist_length in Hsub. exact Hsub.
Qed.

Lemma errors_in_fixed_order_witness :
  ["reverse_pivot"; "flat_shoulder"; "sway"]%string `sublist_of` error_labels
  /\ NoDup ["reverse_pivot"; "flat_shoulder"; "sway"]%string
  /\ (length ["reverse_pivot"; "flat_shoulder"; "sway"]%string <= 5)%nat.
Proof.
  destruct (ErrorFacts.errors_all_missing [None; None] ∅)
    as (rm & wm & _ & _ & _ & _ & Hdet).
  - repeat constructor.
  - apply Z.leb_le. reflexivity.
  - apply Z.leb_le. reflexivity.
  - exact (errors_in_fixed_order [None; None] ∅ rm wm _ Hdet).
Defined.

Lemma np_diff_length (l : list R) : length (np_diff l) = (length l - 1)%nat.
Proof.
  induction l as [|a tl IH]; [reflexivity|].
  destruct tl as [|b tl]; [reflexivity|].
  change (np_diff (a :: b :: tl)) with ((b - a) :: np_diff (b :: tl)).
  simpl length in *. rewrite IH. lia.
Qed.

(** The differences of a list add up to its last entry minus its first. *)
Lemma np_diff_sum (l : list R) (a : R) :
  Rsum (np_diff (a :: l)) = List.last (a :: l) 0 - a.
Proof.
  revert a. induction l as [|b tl IH]; intros a.
  - simpl. unfold Rsum. simpl. lra.
  - change (np_diff (a :: b :: tl)) with ((b - a) :: np_diff (b :: tl)).
    change (List.last (a :: b :: tl) 0) with (List.last (b :: tl) 0).
    unfold Rsum in *.
    change (fold_right Rplus 0 ((b - a) :: np_diff (b :: tl)))
      with ((b - a) + fold_right Rplus 0 (np_diff (b :: tl))).
    rewrite IH. lra.
Qed.

(** X15. [_check_over_the_top] reports only when at least four frames between
    top and impact carry a wrist; the mean of the first differences it tests
    telescopes, so the outcome depends only on the first and the last entry
    of the first half of the wrist path: it reports only when the last
    exceeds the first by more than 0.01 per step.  With fewer than four
    entries it never reports. *)
Theorem over_the_top_trend (seq : landmarks) (kp : gmap string Z) :
  (_check_over_the_top seq kp = Some true ->
   exists path,
     wrist_path_x seq kp = Some path
     /\ (4 <= length path)%nat
     /\ 1 / 100 * INR (length (firstn (length path / 2) path) - 1)
        < List.last (firstn (length path / 2) path) 0
          - hd 0 (firstn (length path / 2) path))
  /\ (forall path, wrist_path_x seq kp = Some path -> (length path < 4)%nat ->
        _check_over_the_top seq kp = Some false).
Proof.
  unfold _check_over_the_top, wrist_path_x. cbv zeta.
  destruct (_ || _).
  { split; [discriminate|reflexivity]. }
  destruct (frames_in_range seq _ _) as [frames|]; cbn [mbind option_bind];
    [|split; [discriminate|intros path; discriminate]].
  destruct (mapM wrist_offset frames) as [offsets|]; cbn [mbind option_bind];
    [|split; [discriminate|intros path; discriminate]].
  set (path := concat offsets).
  split.
  - destruct (2 <? length path)%nat eqn:Hlen; [|discriminate].
    apply Nat.ltb_lt in Hlen.
    remember (firstn (length path / 2) path) as half eqn:Hh.
    destruct (np_diff half) as [|d ds] eqn:Hdiff; [discriminate|].
    rewrite <- Hdiff. intros Htrend. injection Htrend as Htrend.
    apply ErrorFacts.Rltb_true in Htrend.
    exists path. split; [reflexivity|]. rewrite <- Hh.
    assert (Hhalf_len : length half = (length path / 2)%nat).
    { rewrite Hh, length_take.
      pose proof (Nat.Div0.div_le_upper_bound (length path) 2 (length path)). lia. }
    pose proof (np_diff_length half) as Hdl.
    assert (Hds : (1 <= length (np_diff half))%nat)
      by (rewrite Hdiff; simpl; lia).
    assert (H4 : (4 <= length path)%nat).
    { destruct (Nat.lt_ge_cases (length path) 4) as [Hlt|Hge]; [|exact Hge].
      exfalso. assert (Hp : length path = 3%nat) by lia.
      rewrite Hp in Hhalf_len. change (3 / 2)%nat with 1%nat in Hhalf_len. lia. }
    split; [exact H4|].
    clear Hh Hdiff. destruct half as [|a tl]; [simpl in Hds; lia|].
    rewrite np_diff_sum, np_diff_length in Htrend.
    assert (Hpos : 0 < INR (length (a :: tl) - 1)).
    { apply lt_0_INR. lia. }
    cbn [hd].
    apply (Rmult_lt_compat_r (INR (length (a :: tl) - 1))) in Htrend; [|exact Hpos].
    unfold Rdiv in Htrend at 2.
    rewrite Rmult_assoc, Rinv_l, Rmult_1_r in Htrend by lra.
    exact Htrend.
  - intros p [= <-] Hshort. fold path.
    destruct (2 <? length path)%nat eqn:Hlen; [|reflexivity].
    apply Nat.ltb_lt in Hlen.
    assert (Hp : length path = 3%nat) by lia.
    destruct path as [|a [|b [|c [|d tl]]]]; simpl in Hp; try lia.
    reflexivity.
Qed.

Lemma over_the_top_trend_witness :
  let seq := [wrist_at 0; wrist_at 1; wrist_at 2; wrist_at 3] in
  (exists path,
     wrist_path_x seq ∅ = Some path
     /\ (4 <= length path)%nat
     /\ 1 / 100 * INR (length (firstn (length path / 2) path) - 1)
        < List.last (firstn (length path / 2) path) 0
          - hd 0 (firstn (length path / 2) path))
  /\ _check_over_the_top [None; None; None] ∅ = Some false.
Proof.
  intros seq. split.
  - apply (proj1 (over_the_top_trend seq ∅)).
    transitivity (Some (Rltb (1 / 100) (Rsum [1 - 0 - (0 - 0)] / INR 1)));
      [reflexivity|].
    f_equal. unfold Rltb.
    destruct (Rlt_dec _ _) as [_|Hn]; [reflexivity|].
    exfalso. apply Hn. unfold Rsum. simpl. lra.
  - apply (proj2 (over_the_top_trend [None; None; None] ∅) []).
    + reflexivity.
    + simpl. lia.
Defined.

End ErrorMore.

(** ** More on scoring *)

Module ScorerMore.

Import Scorer.

#[local] Open Scope R_scope.

Lemma score_in_range_cases (value ideal tolerance : R) :
  0 < tolerance ->
  let error := Rabs (value - ideal) in
  (error <= tolerance /\ 70 <= _score_in_range value ideal tolerance <= 100
   /\ (_score_in_range value ideal tolerance = 100 <-> error = 0))
  \/ (tolerance < error /\ 0 <= _score_in_range value ideal tolerance < 70
      /\ (2 * tolerance <= error -> _score_in_range value ideal tolerance = 0)).
Proof.
  intros Htol error. unfold _score_in_range. fold error.
  pose proof (Rabs_pos (value - ideal)) as Herr. fold error in Herr.
  assert (Hit : 0 < / tolerance) by (apply Rinv_0_lt_compat; exact Htol).
  assert (Hone : tolerance * / tolerance = 1) by (apply Rinv_r; lra).
  unfold Rleb, Rdiv. destruct (Rle_dec error tolerance) as [Hle|Hgt].
  - left. split; [exact Hle|].
    assert (H1 : 0 <= error * / tolerance <= 1) by nra.
    split; [lra|]. split; intros Heq.
    + assert (Hz : error * / tolerance = 0) by lra. nra.
    + rewrite Heq. lra.
  - right. split; [lra|].
    assert (H1 : 0 < (error - tolerance) * / tolerance) by nra.
    split.
    + split; [apply Rmax_l|]. apply Rmax_lub_lt; lra.
    + intros H2. rewrite Rmax_left; [reflexivity|].
      assert (1 <= (error - tolerance) * / tolerance) by nra. lra.
Qed.

(** X16. For a positive tolerance, [_score_in_range] lies in [0, 100]; it is
    at least 70 exactly when the value is within the tolerance of the ideal,
    it is 100 exactly when the value is the ideal, and it is 0 once the error
    reaches twice the tolerance. *)
Theorem score_in_range_spec (value ideal tolerance : R) :
  0 < tolerance ->
  0 <= _score_in_range value ideal tolerance <= 100
  /\ (70 <= _score_in_range value ideal tolerance
      <-> Rabs (value - ideal) <= tolerance)
  /\ (_score_in_range value ideal tolerance = 100 <-> value = ideal)
  /\ (2 * tolerance <= Rabs (value - ideal) ->
      _score_in_range value ideal tolerance = 0).
Proof.
  intros Htol.
  destruct (score_in_range_cases value ideal tolerance Htol)
    as [(Hle & Hb & Hfull)|(Hgt & Hb & Hzero)].
  - split; [lra|]. split; [split; intros; lra|]. split.
    + rewrite Hfull. split.
      * intros Hz. destruct (Req_dec (value - ideal) 0) as [Heq|Hne]; [lra|].
        apply Rabs_pos_lt in Hne. lra.
      * intros ->. replace (ideal - ideal) with 0 by ring. apply Rabs_R0.
    + intros H2. lra.
  - split; [lra|]. split; [split; intros; lra|]. split.
    + split.
      * intros H100. lra.
      * intros ->. replace (ideal - ideal) with 0 in Hgt by ring.
        rewrite Rabs_R0 in Hgt. lra.
    + exact Hzero.
Qed.

Lemma score_in_range_spec_witness :
  0 <= _score_in_range 95 90 10 <= 100
  /\ (70 <= _score_in_range 95 90 10 <-> Rabs (95 - 90) <= 10)
  /\ (_score_in_range 95 90 10 = 100 <-> 95 = 90)
  /\ (2 * 10 <= Rabs (95 - 90) -> _score_in_range 95 90 10 = 0).
Proof. apply (score_in_range_spec 95 90 10). lra. Defined.

(** Just below an integer, rounding to two decimals reaches the integer. *)
Lemma round2_just_below (g : Z) (x : R) :
  IZR g - 1 / 200 < x < IZR g -> round2 x = IZR g.
Proof.
  intros [Hlo Hhi]. unfold round2, round_half_even.
  assert (Hf : Int_part (x * 100) = (100 * g - 1)%Z).
  { symmetry. apply Int_part_spec.
    rewrite minus_IZR, mult_IZR. lra. }
  rewrite Hf. rewrite minus_IZR, mult_IZR.
  unfold Rltb.
  destruct (Rlt_dec (x * 100 - (100 * IZR g - 1)) (1 / 2)) as [Hlt|_]; [lra|].
  destruct (Rlt_dec (1 / 2) (x * 100 - (100 * IZR g - 1))) as [_|Hn]; [|lra].
  replace (100 * g - 1 + 1)%Z with (100 * g)%Z by lia.
  rewrite mult_IZR. field.
Qed.

(** X17. The grade is taken from the unrounded weighted sum while the
    reported overall score is rounded to two decimals, so the two can
    disagree at a grade boundary: a weighted sum in (89.995, 90) is reported
    as 90.0 with grade B, and likewise 80.0 with C, 70.0 with D and 60.0 with
    F just below the other boundaries. *)
Theorem grade_uses_unrounded_score
    (swing_plane_metrics rotation_metrics weight_transfer_metrics
     wrist_metrics tempo_metrics : gmap string pyval) (p r d w wt t : R)
    (g : Z) (letter : string) :
  component_scores_of swing_plane_metrics rotation_metrics
    weight_transfer_metrics wrist_metrics tempo_metrics
  = Some (p, r, d, w, wt, t) ->
  In (g, letter) [(90, "B"); (80, "C"); (70, "D"); (60, "F")]%Z%string ->
  IZR g - 1 / 200 < weighted_sum p r d w wt t < IZR g ->
  exists result,
    calculate_swing_score swing_plane_metrics rotation_metrics
      weight_transfer_metrics wrist_metrics tempo_metrics = Some result
    /\ overall_score result = IZR g
    /\ grade result = letter
    /\ _get_grade (overall_score result) <> grade result.
Proof.
  intros Hscores Hin Hx.
  unfold calculate_swing_score. rewrite Hscores. simpl.
  eexists. split; [reflexivity|]. simpl.
  rewrite (round2_just_below g _ Hx).
  split; [reflexivity|].
  set (x := weighted_sum p r d w wt t) in *.
  unfold _get_grade, Rleb.
  simpl in Hin.
  destruct Hin as [[= <- <-]|[[= <- <-]|[[= <- <-]|[[= <- <-]|[]]]]];
    repeat match goal with
           | |- context [Rle_dec ?a ?b] => destruct (Rle_dec a b); try lra
           end;
    split; try reflexivity; discriminate.
Qed.

Lemma grade_uses_unrounded_score_witness :
  exists result,
    calculate_swing_score
      (<["plane_consistency" := Num (33316 / 1000)]>
         (<["angle_error" := Num 0]> ∅))
      (<["rotation_sequence_score" := Num 100]>
         (<["max_shoulder_rotation" := Num 90]>
            (<["max_hip_rotation" := Num 45]> ∅)))
      (<["weight_transfer_score" := Num 100]> ∅)
      (<["wrist_hinge_score" := Num 100]> ∅)
      (<["tempo_score" := Num 100]> ∅) = Some result
    /\ overall_score result = IZR 90
    /\ grade result = "B"%string
    /\ _get_grade (overall_score result) <> grade result.
Proof.
  eapply (grade_uses_unrounded_score _ _ _ _ _ _ _ _ _ _ _ 90 "B").
  - reflexivity.
  - left. reflexivity.
  - unfold weighted_sum, _score_in_range, Rleb,
      Config.w_swing_plane_consistency, Config.w_rotation_quality,
      Config.w_downswing_alignment, Config.w_wrist_hinge,
      Config.w_weight_transfer, Config.w_tempo, Config.swing_plane_tolerance,
      Config.ideal_shoulder_rotation, Config.ideal_hip_rotation,
      Config.rotation_tolerance.
    replace (90 - 90) with 0 by ring. replace (45 - 45) with 0 by ring.
    rewrite Rabs_R0.
    destruct (Rle_dec 0 10) as [_|Hn]; [|lra].
    rewrite Rmax_right by lra. lra.
Defined.

End ScorerMore.

(** ** The analysis steps together *)

Module PipelineFacts.

Import Props.

#[local] Open Scope R_scope.

Lemma nonempty_dict (m : gmap string pyval) (k : string) (v : pyval) :
  m !! k = Some v -> Scorer.is_empty m = false.
Proof.
  intros Hk. unfold Scorer.is_empty. apply Nat.eqb_neq.
  intros Hsize. apply map_size_empty_iff in Hsize. subst m.
  rewrite lookup_empty in Hk. discriminate.
Qed.

Lemma get_num_lookup (m : gmap string pyval) (k : string) (x d : R) :
  m !! k = Some (Num x) -> get_num m k d = Some x.
Proof. intros Hk. unfold get_num. now rewrite Hk. Qed.

Lemma plane_score_bounds (svd_normal : list point -> point) (seq : landmarks)
    (kp : gmap string Z) (pm : gmap string pyval) :
  Analyzer.calculate_swing_plane svd_normal seq kp = Some pm ->
  exists p, Scorer._score_swing_plane pm = Some p /\ 0 <= p <= 100.
Proof.
  intros Hpm.
  destruct (proj1 (AnalyzerFacts.swing_plane_result svd_normal seq kp) pm Hpm)
    as [[-> _]|(angle & cons & dev & Ha & Hc & Hd & Hi & He & Hab & Hdev & Hcb & Heb)].
  - eexists. split; [reflexivity|].
    unfold Config.swing_plane_tolerance. rewrite Rmax_left by lra. lra.
  - unfold Scorer._score_swing_plane.
    rewrite (nonempty_dict pm _ _ Ha).
    rewrite (get_num_lookup pm _ _ _ Hc). simpl.
    rewrite (get_num_lookup pm _ _ _ He). simpl.
    eexists. split; [reflexivity|].
    pose proof (Rabs_pos (angle - 45)) as Hpos.
    unfold Config.swing_plane_tolerance.
    assert (Hs : 0 <= Rmax 0 (100 - Rabs (angle - 45) / 15 * 50) <= 100).
    { split; [apply Rmax_l|]. apply Rmax_lub; lra. }
    lra.
Qed.

Lemma rotation_score_bounds (seq : landmarks) (kp : gmap string Z)
    (rm : gmap string pyval) :
  Analyzer.calculate_rotation_metrics seq kp = Some rm ->
  exists r s,
    Scorer._score_rotation rm = Some r /\ 0 <= r <= 100
    /\ get_num rm "rotation_sequence_score" 0 = Some s /\ 0 <= s <= 100.
Proof.
  intros Hrm.
  destruct (AnalyzerFacts.rotation_metrics_result seq kp rm Hrm)
    as (mh & ms & s & Hmh & Hms & Hs & _ & _ & Hb & _).
  unfold Scorer._score_rotation.
  rewrite (nonempty_dict rm _ _ Hs).
  rewrite (get_num_lookup rm _ _ _ Hs). simpl.
  rewrite (get_num_lookup rm _ _ _ Hms). simpl.
  rewrite (get_num_lookup rm _ _ _ Hmh). simpl.
  eexists. exists s. split; [reflexivity|].
  assert (Hsh : 0 <= Scorer._score_in_range ms Config.ideal_shoulder_rotation
                       Config.rotation_tolerance <= 100).
  { destruct (ScorerMore.score_in_range_cases ms Config.ideal_shoulder_rotation
                Config.rotation_tolerance) as [(_ & H1 & _)|(_ & H1 & _)];
      [unfold Config.rotation_tolerance; lra| |]; cbv zeta in H1; lra. }
  assert (Hhip : 0 <= Scorer._score_in_range mh Config.ideal_hip_rotation
                        Config.rotation_tolerance <= 100).
  { destruct (ScorerMore.score_in_range_cases mh Config.ideal_hip_rotation
                Config.rotation_tolerance) as [(_ & H1 & _)|(_ & H1 & _)];
      [unfold Config.rotation_tolerance; lra| |]; cbv zeta in H1; lra. }
  split; [lra|]. split; [reflexivity|exact Hb].
Qed.

Lemma weight_score_bounds (seq : landmarks) (kp : gmap string Z)
    (wm : gmap string pyval) :
  Analyzer.calculate_weight_transfer seq kp = Some wm ->
  exists w, get_num wm "weight_transfer_score" 0 = Some w /\ 0 <= w <= 100.
Proof.
  intros Hwm.
  destruct (AnalyzerFacts.weight_transfer_result seq kp wm Hwm)
    as (ratios & shift & _ & _ & Hsc & _ & Hb).
  eexists. split; [exact (get_num_lookup wm _ _ _ Hsc)|].
  apply AnalyzerFacts.weight_transfer_score_bounds. lra.
Qed.

Lemma wrist_score_bounds (seq : landmarks) (kp : gmap string Z)
    (wr : gmap string pyval) :
  Analyzer.calculate_wrist_angles seq kp = Some wr ->
  exists w, get_num wr "wrist_hinge_score" 0 = Some w /\ 0 <= w <= 100.
Proof.
  intros Hwr.
  destruct (AnalyzerFacts.wrist_angles_result seq kp wr Hwr)
    as (b & i & score & _ & _ & Hscore & _ & _ & _ & _ & Hrange).
  exists score. split; [exact (get_num_lookup wr _ _ _ Hscore)|exact Hrange].
Qed.

(** Scoring the dictionaries that the analysers return. *)
Lemma score_of_analysis (svd_normal : list point -> point) (seq : landmarks)
    (kp : gmap string Z) (swing_range : Z * Z)
    (pm rm wm wr : gmap string pyval) :
  Analyzer.calculate_swing_plane svd_normal seq kp = Some pm ->
  Analyzer.calculate_rotation_metrics seq kp = Some rm ->
  Analyzer.calculate_weight_transfer seq kp = Some wm ->
  Analyzer.calculate_wrist_angles seq kp = Some wr ->
  exists result,
    Scorer.calculate_swing_score pm rm wm wr
      (Tempo.analyze_tempo seq swing_range kp) = Some result
    /\ 0 <= Scorer.overall_score result <= 100
    /\ (forall k v, Scorer.component_scores result !! k = Some v ->
                    0 <= v <= 100).
Proof.
  intros Hpm Hrm Hwm Hwr.
  destruct (plane_score_bounds svd_normal seq kp pm Hpm) as (p & Hp & Hpb).
  destruct (rotation_score_bounds seq kp rm Hrm) as (r & s & Hr & Hrb & Hs & Hsb).
  destruct (weight_score_bounds seq kp wm Hwm) as (w & Hw & Hwb).
  destruct (wrist_score_bounds seq kp wr Hwr) as (h & Hh & Hhb).
  pose proof (TempoFacts.score_tempo_range
                (Tempo.tempo_ratio_of
                   (get_pos kp "top" (fst swing_range)
                    - get_pos kp "address" (fst swing_range))
                   (get_pos kp "impact" (snd swing_range)
                    - get_pos kp "top" (fst swing_range)))) as Htb.
  assert (Ht : get_num (Tempo.analyze_tempo seq swing_range kp) "tempo_score" 0
               = Some (Tempo._score_tempo
                         (Tempo.tempo_ratio_of
                            (get_pos kp "top" (fst swing_range)
                             - get_pos kp "address" (fst swing_range))
                            (get_pos kp "impact" (snd swing_range)
                             - get_pos kp "top" (fst swing_range))))).
  { destruct swing_range as [a b]. reflexivity. }
  unfold Scorer.calculate_swing_score, Scorer.component_scores_of,
    Scorer._score_downswing_alignment.
  rewrite Hp. simpl. rewrite Hr. simpl. rewrite Hs. simpl. rewrite Hw. simpl.
  rewrite Hh. simpl. rewrite Ht. simpl.
  eexists. split; [reflexivity|]. simpl.
  assert (Hd : 0 <= s * (6 / 10) + w * (4 / 10) <= 100) by lra.
  split.
  - apply ScorerFacts.round2_bounds.
    apply ScorerFacts.weighted_sum_bounds; assumption.
  - intros k v Hk.
    apply lookup_insert_Some in Hk as [[_ <-]|[_ Hk]];
      [now apply ScorerFacts.round2_bounds|].
    apply lookup_insert_Some in Hk as [[_ <-]|[_ Hk]];
      [now apply ScorerFacts.round2_bounds|].
    apply lookup_insert_Some in Hk as [[_ <-]|[_ Hk]];
      [now apply ScorerFacts.round2_bounds|].
    apply lookup_insert_Some in Hk as [[_ <-]|[_ Hk]];
      [now apply ScorerFacts.round2_bounds|].
    apply lookup_insert_Some in Hk as [[_ <-]|[_ Hk]];
      [now apply ScorerFacts.round2_bounds|].
    apply lookup_insert_Some in Hk as [[_ <-]|[_ Hk]];
      [now apply ScorerFacts.round2_bounds|].
    rewrite lookup_empty in Hk. discriminate.
Qed.

(** X18. Whatever the key positions, when the four analysers return, scoring
    their dictionaries together with the tempo metrics never fails, the
    overall score lies in [0, 100] and so does each of the six component
    scores of the result: the scores the analysers produce always meet the
    range that the weighted sum needs. *)
Theorem scored_analysis_in_range (svd_normal : list point -> point)
    (seq : landmarks) (kp : gmap string Z) (swing_range : Z * Z)
    (pm rm wm wr : gmap string pyval) :
  Analyzer.calculate_swing_plane svd_normal seq kp = Some pm ->
  Analyzer.calculate_rotation_metrics seq kp = Some rm ->
  Analyzer.calculate_weight_transfer seq kp = Some wm ->
  Analyzer.calculate_wrist_angles seq kp = Some wr ->
  exists result,
    Scorer.calculate_swing_score pm rm wm wr
      (Tempo.analyze_tempo seq swing_range kp) = Some result
    /\ 0 <= Scorer.overall_score result <= 100
    /\ (forall k v, Scorer.component_scores result !! k = Some v ->
                    0 <= v <= 100).
Proof.
  intros Hpm Hrm Hwm Hwr.
  destruct (score_of_analysis svd_normal seq kp swing_range pm rm wm wr
              Hpm Hrm Hwm Hwr) as (result & Hres & Hoverall & Hcomp).
  exists result. split; [exact Hres|]. split; [exact Hoverall|exact Hcomp].
Qed.

Lemma scored_analysis_in_range_witness :
  exists pm rm wm wr result,
    Analyzer.calculate_swing_plane (fun _ => (0, 0, 1)) [None; None; None] ∅
    = Some pm
    /\ Analyzer.calculate_rotation_metrics [None; None; None] ∅ = Some rm
    /\ Analyzer.calculate_weight_transfer [None; None; None] ∅ = Some wm
    /\ Analyzer.calculate_wrist_angles [None; None; None] ∅ = Some wr
    /\ Scorer.calculate_swing_score pm rm wm wr
         (Tempo.analyze_tempo [None; None; None] (0, 2)%Z ∅) = Some result
    /\ 0 <= Scorer.overall_score result <= 100
    /\ (forall k v, Scorer.component_scores result !! k = Some v ->
                    0 <= v <= 100).
Proof.
  do 4 eexists.
  assert (Hthm := scored_analysis_in_range (fun _ => (0, 0, 1))
                    [None; None; None] ∅ (0, 2)%Z _ _ _ _
                    eq_refl eq_refl eq_refl eq_refl).
  destruct Hthm as (result & Hres & Hrest).
  exists result.
  split; [reflexivity|]. split; [reflexivity|]. split; [reflexivity|].
  split; [reflexivity|]. split; [exact Hres|exact Hrest].
Defined.

Lemma motion_energy_len (seq : landmarks) (out : list R) :
  Detector.calculate_motion_energy seq = Some out -> length out = length seq.
Proof.
  unfold Detector.calculate_motion_energy.
  destruct (Detector.raw_motion_energy seq) as [raw|] eqn:Hraw; [|discriminate].
  apply MotionEnergyFacts.raw_motion_energy_spec in Hraw as [Hlen _].
  unfold Config.velocity_smoothing_window.
  destruct (5 <? Z.of_nat (length raw))%Z eqn:Hw; intros [= <-];
    [|exact Hlen].
  apply Z.ltb_lt in Hw.
  rewrite MotionEnergyFacts.savgol_filter_length by lia. exact Hlen.
Qed.

Lemma default_segments (energy : list R) :
  Forall (fun seg => valid_duration Segmenter.default_detector seg
                     /\ well_delimited Segmenter.default_detector energy seg)
         (Segmenter.detect_swing_phases Segmenter.default_detector energy).
Proof.
  apply Forall_and. split.
  - unfold Segmenter.detect_swing_phases, Segmenter.final_state.
    apply (SegmenterFacts.scan_preserves Segmenter.default_detector
             (fun _ st => Forall (valid_duration Segmenter.default_detector)
                                 (Segmenter.swings st))
             (fun i st e =>
                SegmenterFacts.step_valid_duration Segmenter.default_detector st i e)
             energy 0%Z Segmenter.init).
    constructor.
  - destruct (SegmenterMore.scan_tracking Segmenter.default_detector
                energy energy [] Segmenter.init) as (_ & Hall & _).
    + simpl. unfold Config.stillness_frames. lia.
    + reflexivity.
    + unfold tracking, Segmenter.init; simpl.
      split; [lia|]. split; [constructor|discriminate].
    + unfold Segmenter.detect_swing_phases, Segmenter.final_state.
      eapply Forall_impl; [exact Hall|]. simpl. intros seg [Hw _]. exact Hw.
Qed.

(** X19. When the analysis steps of [analyze_video] produce results, the
    analysed swing is the first detected segment, it starts at a frame of the
    sequence, lasts between 30 and 120 frames and ends at least 15 frames
    before the end of the sequence; every key position lies inside it; there
    is one motion energy per frame; and the overall score and the six
    component scores lie in [0, 100]. *)
Theorem analysis_results_sound (svd_normal : list point -> point)
    (seq : landmarks) (r : Pipeline.analysis) :
  Pipeline.analyze_landmarks svd_normal seq = Some (Pipeline.Analysed r) ->
  let s := fst (Pipeline.swing_segment r) in
  let e := snd (Pipeline.swing_segment r) in
  (0 <= s)%Z /\ (30 <= e - s <= 120)%Z /\ (e + 15 < Z.of_nat (length seq))%Z
  /\ (exists rest,
        Segmenter.detect_swing_phases Segmenter.default_detector
          (Pipeline.motion_energy r) = (s, e, "full_swing"%string) :: rest)
  /\ (forall k v, Pipeline.key_positions r !! k = Some v -> (s <= v <= e)%Z)
  /\ length (Pipeline.motion_energy r) = length seq
  /\ 0 <= Scorer.overall_score (Pipeline.score_results r) <= 100
  /\ (forall k v,
        Scorer.component_scores (Pipeline.score_results r) !! k = Some v ->
        0 <= v <= 100).
Proof.
  unfold Pipeline.analyze_landmarks.
  destruct (Detector.calculate_motion_energy seq) as [energy|] eqn:Henergy;
    cbn [mbind option_bind]; [|discriminate].
  pose proof (motion_energy_len seq energy Henergy) as Hlen.
  pose proof (default_segments energy) as Hsegs.
  destruct (Segmenter.detect_swing_phases Segmenter.default_detector energy)
    as [|[[s e] label] rest] eqn:Hdetect; [discriminate|].
  apply Forall_cons in Hsegs as [[Hdur Hwell] _].
  cbv zeta.
  set (kp := Detector.identify_swing_positions seq (s, e)).
  destruct (Analyzer.calculate_swing_plane svd_normal seq kp) as [pm|] eqn:Hpm;
    cbn [mbind option_bind]; [|discriminate].
  destruct (Analyzer.calculate_rotation_metrics seq kp) as [rm|] eqn:Hrm;
    cbn [mbind option_bind]; [|discriminate].
  destruct (Analyzer.calculate_weight_transfer seq kp) as [wm|] eqn:Hwm;
    cbn [mbind option_bind]; [|discriminate].
  destruct (Analyzer.calculate_wrist_angles seq kp) as [wr|] eqn:Hwr;
    cbn [mbind option_bind]; [|discriminate].
  destruct (Analyzer.detect_common_errors seq kp rm wm) as [errs|];
    cbn [mbind option_bind]; [|discriminate].
  destruct (score_of_analysis svd_normal seq kp (s, e) pm rm wm wr
              Hpm Hrm Hwm Hwr) as (result & Hres & Hoverall & Hcomp).
  rewrite Hres. cbn [mbind option_bind]. intros Hr.
  injection Hr as <-.
  cbn [Pipeline.swing_segment Pipeline.key_positions Pipeline.motion_energy
       Pipeline.score_results fst snd].
  unfold valid_duration, well_delimited, Segmenter.seg_start, Segmenter.seg_end in *.
  simpl in Hdur, Hwell.
  unfold Config.min_swing_duration, Config.max_swing_duration,
    Config.stillness_frames in *.
  destruct Hwell as (Hse & Hend & Hstart & _).
  assert (Hlabel : label = "full_swing"%string).
  { pose proof (SegmenterFacts.scan_preserves Segmenter.default_detector
                  (fun _ st => Forall (fun seg => snd seg = "full_swing"%string)
                                      (Segmenter.swings st))) as Hl.
    assert (Hall : Forall (fun seg : Segmenter.segment => snd seg = "full_swing"%string)
                          (Segmenter.detect_swing_phases
                             Segmenter.default_detector energy)).
    { apply (Hl ltac:(intros i st x Hst; unfold Segmenter.step;
                      repeat case_match; simpl; try assumption;
                      apply Forall_app; split; [assumption|];
                      repeat constructor) energy 0%Z Segmenter.init).
      constructor. }
    rewrite Hdetect in Hall. apply Forall_cons in Hall as [Hl1 _]. exact Hl1. }
  subst label.
  split; [lia|]. split; [lia|]. split; [lia|].
  split; [exists rest; exact Hdetect|].
  split.
  - intros k v Hk.
    destruct (KeyPositionMore.key_position_offsets seq s e k v Hk) as [Hn Hv].
    rewrite KeyPositionMore.slice_length in Hn, Hv by lia. lia.
  - split; [exact Hlen|]. split; [exact Hoverall|exact Hcomp].
Qed.

End PipelineFacts.

(** ** The segmenter only compares *)

Module SegmenterCompare.

Import Segmenter Props.

Section Compare.

Context {E F : Type} `{Energy E} `{Energy F}.
Variable self : SwingDetector E.
Variable other : SwingDetector F.

Hypothesis same_stillness : stillness_frames self = stillness_frames other.
Hypothesis same_min : min_swing_duration self = min_swing_duration other.
Hypothesis same_max : max_swing_duration self = max_swing_duration other.

Lemma step_same_side (st : state) (i : Z) (x : E) (y : F) :
  same_side (motion_threshold self) (motion_threshold other) x y ->
  step self st i x = step other st i y.
Proof.
  intros [Hlt Hgt]. unfold step.
  rewrite Hlt, Hgt, same_stillness, same_min, same_max. reflexivity.
Qed.

Lemma scan_same_side (l1 : list E) (l2 : list F) :
  Forall2 (same_side (motion_threshold self) (motion_threshold other)) l1 l2 ->
  forall i st, scan self i st l1 = scan other i st l2.
Proof.
  induction 1 as [|x y l1 l2 Hxy _ IH]; intros i st; simpl; [reflexivity|].
  rewrite (step_same_side st i x y Hxy). apply IH.
Qed.

End Compare.

(** X20. The segments depend on the energies only through their comparisons
    with the threshold: two detectors with the same frame counts, run on two
    sequences (possibly in different units) whose energies lie frame by frame
    on the same side of the respective thresholds, report the same
    segments. *)
Theorem detect_swing_phases_comparisons {E F : Type} `{Energy E} `{Energy F}
    (self : SwingDetector E) (other : SwingDetector F)
    (l1 : list E) (l2 : list F) :
  stillness_frames self = stillness_frames other ->
  min_swing_duration self = min_swing_duration other ->
  max_swing_duration self = max_swing_duration other ->
  Forall2 (same_side (motion_threshold self) (motion_threshold other)) l1 l2 ->
  detect_swing_phases self l1 = detect_swing_phases other l2.
Proof.
  intros Hs Hmin Hmax Hside. unfold detect_swing_phases, final_state.
  now rewrite (scan_same_side self other Hs Hmin Hmax l1 l2 Hside 0 init).
Qed.

Lemma detect_swing_phases_comparisons_witness :
  detect_swing_phases demo_detector demo_energy
  = detect_swing_phases
      {| motion_threshold := QArith_base.Qmake 500 1;
         stillness_frames := 2;
         min_swing_duration := 2;
         max_swing_duration := 10 |}
      (map (fun q => QArith_base.Qmult (QArith_base.Qmake 100 1) q) demo_energy).
Proof.
  apply (detect_swing_phases_comparisons demo_detector).
  - reflexivity.
  - reflexivity.
  - reflexivity.
  - repeat constructor.
Defined.

End SegmenterCompare.

(** ** Sequences without motion *)

Module StillnessFacts.

Import Detector Props.

#[local] Open Scope R_scope.

Lemma savgol_interior_zero (x : list R) :
  Forall (fun v => v = 0) x -> Forall (fun v => v = 0) (savgol_interior x).
Proof.
  induction x as [|a tl IH]; intros Hall; [constructor|].
  apply Forall_cons in Hall as [-> Htl].
  destruct tl as [|b [|c [|d [|e rest]]]]; try constructor.
  - pose proof Htl as Htl'.
    apply Forall_cons in Htl' as [-> Htl'].
    apply Forall_cons in Htl' as [-> Htl'].
    apply Forall_cons in Htl' as [-> Htl'].
    apply Forall_cons in Htl' as [-> Htl'].
    lra.
  - exact (IH Htl).
Qed.

Lemma savgol_head_zero (x : list R) :
  Forall (fun v => v = 0) x -> Forall (fun v => v = 0) (savgol_head x).
Proof.
  intros Hall. unfold savgol_head.
  destruct x as [|a [|b [|c [|d [|e rest]]]]]; try constructor.
  - apply Forall_cons in Hall as [-> Hall]. apply Forall_cons in Hall as [-> Hall].
    apply Forall_cons in Hall as [-> Hall]. apply Forall_cons in Hall as [-> Hall].
    apply Forall_cons in Hall as [-> Hall]. lra.
  - apply Forall_cons in Hall as [-> Hall]. apply Forall_cons in Hall as [-> Hall].
    apply Forall_cons in Hall as [-> Hall]. apply Forall_cons in Hall as [-> Hall].
    apply Forall_cons in Hall as [-> Hall]. repeat constructor. lra.
Qed.

Lemma savgol_tail_zero (x : list R) :
  Forall (fun v => v = 0) x -> Forall (fun v => v = 0) (savgol_tail x).
Proof.
  intros Hall. unfold savgol_tail.
  assert (Hdrop : Forall (fun v => v = 0) (skipn (length x - 5) x))
    by now apply Forall_drop.
  destruct (skipn (length x - 5) x) as [|a [|b [|c [|d [|e rest]]]]];
    try constructor.
  - apply Forall_cons in Hdrop as [-> Hdrop].
    apply Forall_cons in Hdrop as [-> Hdrop].
    apply Forall_cons in Hdrop as [-> Hdrop].
    apply Forall_cons in Hdrop as [-> Hdrop].
    apply Forall_cons in Hdrop as [-> Hdrop]. lra.
  - apply Forall_cons in Hdrop as [-> Hdrop].
    apply Forall_cons in Hdrop as [-> Hdrop].
    apply Forall_cons in Hdrop as [-> Hdrop].
    apply Forall_cons in Hdrop as [-> Hdrop].
    apply Forall_cons in Hdrop as [-> Hdrop]. repeat constructor. lra.
Qed.

(** Smoothing a signal that is zero everywhere leaves it zero. *)
Lemma savgol_filter_zero (x : list R) :
  Forall (fun v => v = 0) x -> Forall (fun v => v = 0) (savgol_filter_5_2 x).
Proof.
  intros Hall. unfold savgol_filter_5_2.
  apply Forall_app; split; [now apply savgol_head_zero|].
  apply Forall_app; split; [now apply savgol_interior_zero|].
  now apply savgol_tail_zero.
Qed.

Lemma take_rows_repeat (c : R) (n : nat) (idx : list nat) :
  Forall (fun j => (j < n)%nat) idx ->
  take_rows (repeat c n) idx = Some (repeat c (length idx)).
Proof.
  induction 1 as [|j idx Hj _ IH]; simpl; [reflexivity|].
  rewrite IH.
  assert (Hnth : nth_error (repeat c n) j = Some c).
  { apply nth_error_repeat. exact Hj. }
  now rewrite Hnth.
Qed.

Lemma displacement_of_same_frame (f : frame) :
  map row_norm (map (fun ab => point_sub (fst ab) (snd ab)) (combine f f))
  = repeat 0 (length f).
Proof.
  induction f as [|p f IH]; [reflexivity|].
  cbn [combine map length repeat fst snd].
  rewrite MotionEnergyFacts.row_norm_rest, IH. reflexivity.
Qed.

(** Between two frames showing the same pose, or with one of them missing,
    the energy is 0. *)
Lemma energy_at_frozen (f : frame) (prev cur : option frame) :
  (25 <= length f)%nat ->
  (prev = Some f \/ prev = None) -> (cur = Some f \/ cur = None) ->
  energy_at prev cur = Some 0.
Proof.
  intros Hrows [->| ->] [->| ->]; try reflexivity.
  unfold energy_at, frame_sub. rewrite Nat.eqb_refl.
  rewrite displacement_of_same_frame.
  rewrite take_rows_repeat by (unfold key_joints; repeat constructor; lia).
  f_equal. unfold mean, key_joints, Rsum. simpl repeat. simpl fold_right.
  unfold Rdiv. ring.
Qed.

Lemma energies_after_frozen (f : frame) (rest : landmarks) : forall prev,
  (25 <= length f)%nat ->
  (prev = Some f \/ prev = None) -> frozen f rest ->
  exists es, energies_after prev rest = Some es /\ Forall (fun v => v = 0) es.
Proof.
  induction rest as [|cur rest IH]; intros prev Hrows Hp Hall; simpl.
  - exists []. split; [reflexivity|constructor].
  - apply Forall_cons in Hall as [Hc Hall].
    rewrite (energy_at_frozen f prev cur Hrows Hp Hc).
    destruct (IH cur Hrows Hc Hall) as (es & -> & Hes).
    exists (0 :: es). split; [reflexivity|]. constructor; [reflexivity|exact Hes].
Qed.

(** The motion energy of a sequence without motion is 0 at every frame. *)
Lemma motion_energy_frozen (f : frame) (seq : landmarks) :
  (25 <= length f)%nat -> frozen f seq ->
  exists energy,
    calculate_motion_energy seq = Some energy
    /\ length energy = length seq
    /\ Forall (fun v => v = 0) energy.
Proof.
  intros Hrows Hall.
  assert (Hraw : exists raw, raw_motion_energy seq = Some raw
                             /\ Forall (fun v => v = 0) raw).
  { unfold raw_motion_energy. destruct (length seq <? 2)%nat.
    - eexists. split; [reflexivity|].
      apply Forall_forall. intros x Hx.
      apply list_elem_of_In, repeat_spec in Hx. exact Hx.
    - destruct seq as [|first rest].
      + exists []. split; [reflexivity|constructor].
      + apply Forall_cons in Hall as [Hf Hall].
        destruct (energies_after_frozen f rest first Hrows Hf Hall)
          as (es & -> & Hes).
        exists (0 :: es). split; [reflexivity|].
        constructor; [reflexivity|exact Hes]. }
  destruct Hraw as (raw & Hraw & Hzero).
  pose proof (MotionEnergyFacts.raw_motion_energy_spec seq raw Hraw) as [Hlen _].
  unfold calculate_motion_energy. rewrite Hraw.
  unfold Config.velocity_smoothing_window.
  destruct (5 <? Z.of_nat (length raw))%Z eqn:Hw.
  - eexists. split; [reflexivity|]. apply Z.ltb_lt in Hw.
    split; [|now apply savgol_filter_zero].
    rewrite MotionEnergyFacts.savgol_filter_length by lia. exact Hlen.
  - eexists. split; [reflexivity|]. split; [exact Hlen|exact Hzero].
Qed.

(** X21. A recording without motion is never analysed: when every detected
    frame shows the same pose (of at least 25 landmarks), and in particular
    when no frame has a detected pose, every motion energy is 0 and the
    analysis steps of [analyze_video] end with the error result
    [No swing detected]. *)
Theorem no_motion_not_analysed (svd_normal : list point -> point)
    (f : frame) (seq : landmarks) :
  (25 <= length f)%nat -> frozen f seq ->
  calculate_motion_energy seq = Some (repeat 0 (length seq))
  /\ Pipeline.analyze_landmarks svd_normal seq = Some Pipeline.NoSwingDetected.
Proof.
  intros Hrows Hall.
  destruct (motion_energy_frozen f seq Hrows Hall) as (energy & He & Hlen & Hz).
  assert (Heq : energy = repeat 0 (length seq)).
  { rewrite <- Hlen. clear He Hlen.
    induction Hz as [|x l -> _ IH]; simpl; [reflexivity|]. now rewrite <- IH. }
  split; [now rewrite He, Heq|].
  unfold Pipeline.analyze_landmarks. rewrite He. cbn [mbind option_bind].
  assert (Hquiet : Forall (fun e => energy_gt e Config.motion_threshold = false)
                          energy).
  { eapply Forall_impl; [exact Hz|]. intros x ->.
    unfold energy_gt, Config.motion_threshold. simpl. unfold Rltb.
    destruct (Rlt_dec 5 0); [lra|reflexivity]. }
  unfold Segmenter.detect_swing_phases, Segmenter.final_state.
  rewrite (SegmenterMore.quiet_scan Segmenter.default_detector energy Hquiet 0).
  reflexivity.
Qed.

Lemma no_motion_not_analysed_witness :
  calculate_motion_energy [body_at (1, 2, 3); None; body_at (1, 2, 3)]
  = Some (repeat 0 3)
  /\ Pipeline.analyze_landmarks (fun _ => (0, 0, 1))
       [body_at (1, 2, 3); None; body_at (1, 2, 3)]
     = Some Pipeline.NoSwingDetected.
Proof.
  apply (no_motion_not_analysed (fun _ => (0, 0, 1)) (repeat (1, 2, 3) 33)).
  - simpl. lia.
  - constructor; [left; reflexivity|].
    constructor; [right; reflexivity|].
    constructor; [left; reflexivity|].
    constructor.
Defined.

End StillnessFacts.

(** ** Well-formed recordings are analysed without an exception *)

Module TotalityFacts.

Import Analyzer Props.

#[local] Open Scope R_scope.

Lemma getitem_In {A : Type} (l : list A) (i : Z) (x : A) :
  Py.getitem l i = Some x -> In x l.
Proof.
  unfold Py.getitem.
  destruct (_ && _); [apply nth_error_In|].
  destruct (_ && _); [apply nth_error_In|discriminate].
Qed.

Lemma getitem_total {A : Type} (l : list A) (i : Z) :
  (0 <= i < Z.of_nat (length l))%Z -> is_Some (Py.getitem l i).
Proof.
  intros Hi. rewrite ErrorFacts.getitem_in_range by exact Hi.
  destruct (nth_error l (Z.to_nat i)) eqn:Hx; [eexists; reflexivity|].
  apply nth_error_None in Hx. lia.
Qed.

Lemma mapM_total {A B : Type} (f : A -> option B) (l : list A) :
  (forall x, In x l -> is_Some (f x)) -> is_Some (mapM f l).
Proof.
  induction l as [|a l IH]; intros Hf; simpl; [eexists; reflexivity|].
  destruct (Hf a (or_introl eq_refl)) as [y ->]. simpl.
  destruct IH as [k ->]; [intros x Hx; apply Hf; now right|].
  eexists; reflexivity.
Qed.

Lemma rows_of_frame (rows : nat) (seq : landmarks) (lm : option frame) :
  frames_have_rows rows seq -> In lm seq ->
  match lm with Some f => length f = rows | None => True end.
Proof.
  intros Hall Hin. unfold frames_have_rows in Hall.
  rewrite Forall_forall in Hall. apply Hall, list_elem_of_In, Hin.
Qed.

Lemma getitem_rows (rows : nat) (seq : landmarks) (i : Z) (f : frame) :
  frames_have_rows rows seq -> Py.getitem seq i = Some (Some f) ->
  length f = rows.
Proof.
  intros Hall Hget.
  exact (rows_of_frame rows seq (Some f) Hall (getitem_In seq i _ Hget)).
Qed.

(** A window that starts at a non-negative index reads frames of the
    sequence only. *)
Lemma frames_in_range_total (rows : nat) (seq : landmarks) (a b : Z) :
  frames_have_rows rows seq -> (0 <= a)%Z ->
  exists frames,
    frames_in_range seq a b = Some frames /\ frames_have_rows rows frames.
Proof.
  intros Hall Ha. unfold frames_in_range.
  destruct (mapM_total (Py.getitem seq)
              (Py.range a (Z.min (b + 1) (Z.of_nat (length seq)))))
    as [frames Hf].
  - intros i Hi. apply ErrorFacts.range_bounds in Hi. apply getitem_total. lia.
  - exists frames. split; [exact Hf|].
    apply (AnalyzerFacts.mapM_Forall (Py.getitem seq)
             (fun lm => match lm with
                        | Some f => length f = rows
                        | None => True
                        end)
             (Py.range a (Z.min (b + 1) (Z.of_nat (length seq))))
             (fun i lm Hget => rows_of_frame rows seq lm Hall
                                 (getitem_In seq i lm Hget))
             frames Hf).
Qed.

(** The guarded reads of the right wrist never fail, whatever the frame. *)
Lemma wrist_position_total (lm : option frame) : is_Some (wrist_position lm).
Proof.
  unfold wrist_position. destruct lm as [f|]; [|eexists; reflexivity].
  destruct (Config.right_wrist <? Z.of_nat (length f))%Z eqn:Hlt;
    [|eexists; reflexivity].
  apply Z.ltb_lt in Hlt. unfold Config.right_wrist in *.
  destruct (getitem_total f 16 ltac:(lia)) as [w ->].
  eexists; reflexivity.
Qed.

Lemma wrist_offset_total (lm : option frame) : is_Some (wrist_offset lm).
Proof.
  unfold wrist_offset. destruct lm as [f|]; [|eexists; reflexivity].
  destruct (Config.right_wrist <? Z.of_nat (length f))%Z eqn:Hlt;
    [|eexists; reflexivity].
  apply Z.ltb_lt in Hlt. unfold Config.right_wrist, Config.right_shoulder in *.
  destruct (getitem_total f 16 ltac:(lia)) as [w ->].
  destruct (getitem_total f 12 ltac:(lia)) as [sh ->].
  eexists; reflexivity.
Qed.

Section Rows.

Variable rows : nat.
Hypothesis enough_rows : (29 <= rows)%nat.

Lemma frame_rotations_total (hip_ref shoulder_ref : vec2) (lm : option frame) :
  match lm with Some f => length f = rows | None => True end ->
  is_Some (frame_rotations hip_ref shoulder_ref lm).
Proof.
  unfold frame_rotations. destruct lm as [f|]; [|eexists; reflexivity].
  intros Hlen.
  unfold Config.left_hip, Config.right_hip, Config.left_shoulder,
    Config.right_shoulder.
  destruct (getitem_total f 23 ltac:(lia)) as [p1 ->].
  destruct (getitem_total f 24 ltac:(lia)) as [p2 ->].
  destruct (getitem_total f 11 ltac:(lia)) as [p3 ->].
  destruct (getitem_total f 12 ltac:(lia)) as [p4 ->].
  eexists; reflexivity.
Qed.

Lemma frame_weight_ratio_total (lm : option frame) :
  match lm with Some f => length f = rows | None => True end ->
  is_Some (frame_weight_ratio lm).
Proof.
  unfold frame_weight_ratio. destruct lm as [f|]; [|eexists; reflexivity].
  intros Hlen.
  unfold Config.left_hip, Config.right_hip, Config.left_ankle,
    Config.right_ankle.
  destruct (getitem_total f 23 ltac:(lia)) as [p1 ->].
  destruct (getitem_total f 24 ltac:(lia)) as [p2 ->].
  destruct (getitem_total f 27 ltac:(lia)) as [p3 ->].
  destruct (getitem_total f 28 ltac:(lia)) as [p4 ->].
  cbn [mbind option_bind]. destruct (Rltb _ _); eexists; reflexivity.
Qed.

Variable seq : landmarks.
Hypothesis well_formed : frames_have_rows rows seq.

Lemma mapM_frames_total {B : Type} (f : option frame -> option B)
    (frames : list (option frame)) :
  (forall lm, match lm with Some fr => length fr = rows | None => True end ->
              is_Some (f lm)) ->
  frames_have_rows rows frames -> is_Some (mapM f frames).
Proof.
  intros Hf Hall. apply mapM_total. intros lm Hin.
  apply Hf. exact (rows_of_frame rows frames lm Hall Hin).
Qed.

Lemma swing_plane_total (svd_normal : list point -> point)
    (kp : gmap string Z) :
  (0 <= get_pos kp "address" 0)%Z ->
  is_Some (calculate_swing_plane svd_normal seq kp).
Proof.
  intros Ha. unfold calculate_swing_plane. cbv zeta.
  destruct (frames_in_range_total rows seq (get_pos kp "address" 0)
              (get_pos kp "finish" (Z.of_nat (length seq) - 1))
              well_formed Ha) as (frames & -> & _).
  cbn [mbind option_bind].
  destruct (mapM_total wrist_position frames
              (fun lm _ => wrist_position_total lm)) as [found ->].
  cbn [mbind option_bind].
  destruct (length (concat found) <? 3)%nat; eexists; reflexivity.
Qed.

Lemma rotation_metrics_total (kp : gmap string Z) :
  (0 <= get_pos kp "address" 0)%Z ->
  is_Some (calculate_rotation_metrics seq kp).
Proof.
  intros Ha. unfold calculate_rotation_metrics. cbv zeta.
  destruct (Z.of_nat (length seq) <=? get_pos kp "address" 0)%Z eqn:Hn;
    [eexists; reflexivity|].
  apply Z.leb_gt in Hn.
  destruct (getitem_total seq (get_pos kp "address" 0) ltac:(lia))
    as [address Haddr].
  rewrite Haddr. cbn [mbind option_bind].
  destruct address as [f|]; [|eexists; reflexivity].
  pose proof (getitem_rows rows seq _ f well_formed Haddr) as Hlen.
  unfold Config.left_hip, Config.right_hip, Config.left_shoulder,
    Config.right_shoulder.
  destruct (getitem_total f 23 ltac:(lia)) as [p1 ->].
  destruct (getitem_total f 24 ltac:(lia)) as [p2 ->].
  destruct (getitem_total f 11 ltac:(lia)) as [p3 ->].
  destruct (getitem_total f 12 ltac:(lia)) as [p4 ->].
  cbn [mbind option_bind].
  destruct (frames_in_range_total rows seq (get_pos kp "address" 0)
              (get_pos kp "finish" (Z.of_nat (length seq) - 1))
              well_formed Ha) as (frames & -> & Hframes).
  cbn [mbind option_bind].
  destruct (mapM_frames_total
              (frame_rotations (vsub (xy p2) (xy p1)) (vsub (xy p4) (xy p3)))
              frames (frame_rotations_total _ _) Hframes) as [rotations ->].
  cbn [mbind option_bind].
  destruct (list_max _); [destruct (list_max _)|]; eexists; reflexivity.
Qed.

Lemma weight_transfer_total (kp : gmap string Z) :
  (0 <= get_pos kp "address" 0)%Z ->
  is_Some (calculate_weight_transfer seq kp).
Proof.
  intros Ha. unfold calculate_weight_transfer. cbv zeta.
  destruct (frames_in_range_total rows seq (get_pos kp "address" 0)
              (get_pos kp "finish" (Z.of_nat (length seq) - 1))
              well_formed Ha) as (frames & -> & Hframes).
  cbn [mbind option_bind].
  destruct (mapM_frames_total frame_weight_ratio frames
              frame_weight_ratio_total Hframes) as [ratios ->].
  cbn [mbind option_bind].
  destruct (list_max _); [destruct (list_min _)|]; eexists; reflexivity.
Qed.

Lemma wrist_angle_at_total (i : Z) :
  (0 <= i)%Z -> is_Some (wrist_angle_at seq i).
Proof.
  intros Hi. unfold wrist_angle_at.
  destruct (i <? Z.of_nat (length seq))%Z eqn:Hlt; [|eexists; reflexivity].
  apply Z.ltb_lt in Hlt.
  destruct (getitem_total seq i ltac:(lia)) as [lm Hlm].
  rewrite Hlm. cbn [mbind option_bind].
  destruct lm as [f|]; [|eexists; reflexivity].
  pose proof (getitem_rows rows seq _ f well_formed Hlm) as Hlen.
  unfold Config.right_shoulder, Config.right_elbow, Config.right_wrist.
  destruct (getitem_total f 12 ltac:(lia)) as [p1 ->].
  destruct (getitem_total f 14 ltac:(lia)) as [p2 ->].
  destruct (getitem_total f 16 ltac:(lia)) as [p3 ->].
  eexists; reflexivity.
Qed.

Lemma wrist_angles_total (kp : gmap string Z) :
  (0 <= get_pos kp "top" 0)%Z ->
  (0 <= get_pos kp "impact" (Z.of_nat (length seq) - 1))%Z ->
  is_Some (calculate_wrist_angles seq kp).
Proof.
  intros Ht Hi. unfold calculate_wrist_angles. cbv zeta.
  destruct (wrist_angle_at_total _ Ht) as [at_top ->].
  cbn [mbind option_bind].
  destruct (wrist_angle_at_total _ Hi) as [at_impact ->].
  eexists; reflexivity.
Qed.

Lemma early_extension_total (kp : gmap string Z) :
  (0 <= get_pos kp "top" 0)%Z ->
  (0 <= get_pos kp "impact" (Z.of_nat (length seq) - 1))%Z ->
  is_Some (_check_early_extension seq kp).
Proof.
  intros Ht Hi. unfold _check_early_extension. cbv zeta.
  destruct (_ || _) eqn:Hguard; [eexists; reflexivity|].
  apply orb_false_iff in Hguard as [Hnt Hni].
  apply Z.leb_gt in Hnt, Hni.
  destruct (getitem_total seq (get_pos kp "top" 0) ltac:(lia)) as [top Htop].
  rewrite Htop. cbn [mbind option_bind].
  destruct top as [ft|]; [|eexists; reflexivity].
  destruct (getitem_total seq
              (get_pos kp "impact" (Z.of_nat (length seq) - 1)) ltac:(lia))
    as [impact Himp].
  rewrite Himp. cbn [mbind option_bind].
  destruct impact as [fi|]; [|eexists; reflexivity].
  pose proof (getitem_rows rows seq _ ft well_formed Htop) as Hlt.
  pose proof (getitem_rows rows seq _ fi well_formed Himp) as Hli.
  unfold Config.left_hip, Config.right_hip.
  destruct (getitem_total ft 23 ltac:(lia)) as [p1 ->].
  destruct (getitem_total ft 24 ltac:(lia)) as [p2 ->].
  destruct (getitem_total fi 23 ltac:(lia)) as [p3 ->].
  destruct (getitem_total fi 24 ltac:(lia)) as [p4 ->].
  eexists; reflexivity.
Qed.

Lemma over_the_top_total (kp : gmap string Z) :
  (0 <= get_pos kp "top" 0)%Z -> is_Some (_check_over_the_top seq kp).
Proof.
  intros Ht. unfold _check_over_the_top. cbv zeta.
  destruct (_ || _); [eexists; reflexivity|].
  destruct (frames_in_range_total rows seq (get_pos kp "top" 0)
              (get_pos kp "impact" (Z.of_nat (length seq) - 1))
              well_formed Ht) as (frames & -> & _).
  cbn [mbind option_bind].
  destruct (mapM_total wrist_offset frames
              (fun lm _ => wrist_offset_total lm)) as [offsets ->].
  cbn [mbind option_bind].
  destruct (2 <? length (concat offsets))%nat; [|eexists; reflexivity].
  destruct (np_diff _); eexists; reflexivity.
Qed.

Lemma common_errors_total (kp : gmap string Z) (rm wm : gmap string pyval) :
  (0 <= get_pos kp "top" 0)%Z ->
  (0 <= get_pos kp "impact" (Z.of_nat (length seq) - 1))%Z ->
  calculate_rotation_metrics seq kp = Some rm ->
  calculate_weight_transfer seq kp = Some wm ->
  is_Some (detect_common_errors seq kp rm wm).
Proof.
  intros Ht Hi Hrm Hwm. unfold detect_common_errors. cbv zeta.
  destruct (early_extension_total kp Ht Hi) as [b1 ->].
  cbn [mbind option_bind].
  destruct (over_the_top_total kp Ht) as [b2 ->].
  cbn [mbind option_bind].
  destruct (AnalyzerFacts.weight_transfer_result seq kp wm Hwm)
    as (ratios & shift & _ & Hs & Hsc & _).
  destruct (AnalyzerFacts.rotation_metrics_result seq kp rm Hrm)
    as (mh & ms & score & _ & _ & Hscore & _).
  rewrite (PipelineFacts.get_num_lookup wm _ _ _ Hs). cbn [mbind option_bind].
  rewrite (PipelineFacts.get_num_lookup rm _ _ _ Hscore). cbn [mbind option_bind].
  rewrite (PipelineFacts.get_num_lookup wm _ _ _ Hsc). cbn [mbind option_bind].
  eexists; reflexivity.
Qed.

End Rows.

(** X22. On a recording whose detected frames all carry the same number (at
    least 29) of landmarks, with address, top and impact positions that are
    not negative, none of the four analysers raises, and neither does
    [detect_common_errors] on the metrics they return: every landmark row
    they read exists and every frame index they use is inside the
    sequence. *)
Theorem analysers_never_raise (svd_normal : list point -> point) (rows : nat)
    (seq : landmarks) (kp : gmap string Z) :
  (29 <= rows)%nat -> frames_have_rows rows seq ->
  (0 <= get_pos kp "address" 0)%Z ->
  (0 <= get_pos kp "top" 0)%Z ->
  (0 <= get_pos kp "impact" (Z.of_nat (length seq) - 1))%Z ->
  exists pm rm wm wr errs,
    calculate_swing_plane svd_normal seq kp = Some pm
    /\ calculate_rotation_metrics seq kp = Some rm
    /\ calculate_weight_transfer seq kp = Some wm
    /\ calculate_wrist_angles seq kp = Some wr
    /\ detect_common_errors seq kp rm wm = Some errs.
Proof.
  intros Hrows Hwf Ha Ht Hi.
  destruct (swing_plane_total rows seq Hwf svd_normal kp Ha) as [pm Hpm].
  destruct (rotation_metrics_total rows Hrows seq Hwf kp Ha) as [rm Hrm].
  destruct (weight_transfer_total rows Hrows seq Hwf kp Ha) as [wm Hwm].
  destruct (wrist_angles_total rows Hrows seq Hwf kp Ht Hi) as [wr Hwr].
  destruct (common_errors_total rows Hrows seq Hwf kp rm wm Ht Hi Hrm Hwm)
    as [errs Herrs].
  exists pm, rm, wm, wr, errs.
  split; [exact Hpm|]. split; [exact Hrm|]. split; [exact Hwm|].
  split; [exact Hwr|exact Herrs].
Qed.

Lemma analysers_never_raise_witness :
  exists pm rm wm wr errs,
    calculate_swing_plane (fun _ => (0, 0, 1)) [body_at (0, 0, 0); None] ∅
    = Some pm
    /\ calculate_rotation_metrics [body_at (0, 0, 0); None] ∅ = Some rm
    /\ calculate_weight_transfer [body_at (0, 0, 0); None] ∅ = Some wm
    /\ calculate_wrist_angles [body_at (0, 0, 0); None] ∅ = Some wr
    /\ detect_common_errors [body_at (0, 0, 0); None] ∅ rm wm = Some errs.
Proof.
  apply (analysers_never_raise (fun _ => (0, 0, 1)) 33
           [body_at (0, 0, 0); None] ∅).
  - lia.
  - constructor; [reflexivity|]. constructor; [exact I|]. constructor.
  - apply Z.leb_le. reflexivity.
  - apply Z.leb_le. reflexivity.
  - apply Z.leb_le. reflexivity.
Defined.

Lemma get_pos_identified (seq : landmarks) (s e : Z) (k : string) (d : Z) :
  (0 <= s)%Z -> (0 <= d)%Z ->
  (0 <= get_pos (Detector.identify_swing_positions seq (s, e)) k d)%Z.
Proof.
  intros Hs Hd. unfold get_pos.
  destruct (Detector.identify_swing_positions seq (s, e) !! k) as [v|] eqn:Hk;
    [|exact Hd].
  destruct (KeyPositionMore.key_position_offsets seq s e k v Hk) as [_ Hv]. lia.
Qed.

Lemma motion_energy_total (rows : nat) (seq : landmarks) :
  (25 <= rows)%nat -> frames_have_rows rows seq ->
  is_Some (Detector.calculate_motion_energy seq).
Proof.
  intros Hrows Hwf. unfold Detector.calculate_motion_energy.
  assert (Hraw : is_Some (Detector.raw_motion_energy seq)).
  { unfold Detector.raw_motion_energy.
    destruct (length seq <? 2)%nat; [eexists; reflexivity|].
    destruct seq as [|first rest]; [eexists; reflexivity|].
    apply Forall_cons in Hwf as [Hfirst Hrest].
    destruct (MotionEnergyFacts.energies_after_total rows rest first
                Hrows Hfirst Hrest) as [es ->].
    eexists; reflexivity. }
  destruct Hraw as [raw ->].
  destruct (_ <? _)%Z; eexists; reflexivity.
Qed.

Lemma analysis_total_result (svd_normal : list point -> point) (rows : nat)
    (seq : landmarks) :
  (29 <= rows)%nat -> frames_have_rows rows seq ->
  exists energy o,
    Detector.calculate_motion_energy seq = Some energy
    /\ Pipeline.analyze_landmarks svd_normal seq = Some o
    /\ (Segmenter.detect_swing_phases Segmenter.default_detector energy = [] ->
        o = Pipeline.NoSwingDetected)
    /\ (Segmenter.detect_swing_phases Segmenter.default_detector energy <> [] ->
        exists r, o = Pipeline.Analysed r).
Proof.
  intros Hrows Hwf.
  destruct (motion_energy_total rows seq ltac:(lia) Hwf) as [energy He].
  exists energy.
  unfold Pipeline.analyze_landmarks. rewrite He. cbn [mbind option_bind].
  pose proof (PipelineFacts.motion_energy_len seq energy He) as Hlen.
  pose proof (PipelineFacts.default_segments energy) as Hsegs.
  destruct (Segmenter.detect_swing_phases Segmenter.default_detector energy)
    as [|[[s e] label] rest].
  { exists Pipeline.NoSwingDetected.
    split; [reflexivity|]. split; [reflexivity|].
    split; [reflexivity|]. intros Hne. now contradiction Hne. }
  apply Forall_cons in Hsegs as [[_ Hwell] _].
  destruct Hwell as (Hse & Hend & _).
  unfold Segmenter.seg_start, Segmenter.seg_end in Hse, Hend.
  cbn [fst snd Segmenter.stillness_frames Segmenter.default_detector] in Hse, Hend.
  unfold Config.stillness_frames in Hend.
  cbv zeta.
  set (kp := Detector.identify_swing_positions seq (s, e)).
  assert (Ha : (0 <= get_pos kp "address" 0)%Z)
    by (apply get_pos_identified; lia).
  assert (Ht : (0 <= get_pos kp "top" 0)%Z)
    by (apply get_pos_identified; lia).
  assert (Hi : (0 <= get_pos kp "impact" (Z.of_nat (length seq) - 1))%Z)
    by (apply get_pos_identified; lia).
  destruct (swing_plane_total rows seq Hwf svd_normal kp Ha) as [pm Hpm].
  destruct (rotation_metrics_total rows Hrows seq Hwf kp Ha) as [rm Hrm].
  destruct (weight_transfer_total rows Hrows seq Hwf kp Ha) as [wm Hwm].
  destruct (wrist_angles_total rows Hrows seq Hwf kp Ht Hi) as [wr Hwr].
  destruct (common_errors_total rows Hrows seq Hwf kp rm wm Ht Hi Hrm Hwm)
    as [errs Herrs].
  destruct (PipelineFacts.score_of_analysis svd_normal seq kp (s, e)
              pm rm wm wr Hpm Hrm Hwm Hwr) as (result & Hres & _).
  rewrite Hpm. cbn [mbind option_bind].
  rewrite Hrm. cbn [mbind option_bind].
  rewrite Hwm. cbn [mbind option_bind].
  rewrite Hwr. cbn [mbind option_bind].
  rewrite Herrs. cbn [mbind option_bind].
  rewrite Hres. cbn [mbind option_bind].
  eexists. split; [reflexivity|]. split; [reflexivity|].
  split; [discriminate|]. intros _. eexists; reflexivity.
Qed.

(** X23. The analysis steps of [analyze_video] never raise on a well-formed
    recording (every detected frame has the same number, at least 29, of
    landmarks; the pose estimator delivers 33): the motion energy is
    computed, and the outcome is [No swing detected] exactly when the
    segmenter finds no segment, and a full set of results otherwise. *)
Theorem analysis_never_raises (svd_normal : list point -> point) (rows : nat)
    (seq : landmarks) :
  (29 <= rows)%nat -> frames_have_rows rows seq ->
  exists energy o,
    Detector.calculate_motion_energy seq = Some energy
    /\ Pipeline.analyze_landmarks svd_normal seq = Some o
    /\ (Segmenter.detect_swing_phases Segmenter.default_detector energy = [] ->
        o = Pipeline.NoSwingDetected)
    /\ (Segmenter.detect_swing_phases Segmenter.default_detector energy <> [] ->
        exists r, o = Pipeline.Analysed r).
Proof.
  intros Hrows Hwf.
  destruct (analysis_total_result svd_normal rows seq Hrows Hwf)
    as (energy & o & He & Ho & Hnone & Hsome).
  exists energy, o.
  split; [exact He|]. split; [exact Ho|]. split; [exact Hnone|exact Hsome].
Qed.

Lemma analysis_never_raises_witness :
  exists energy o,
    Detector.calculate_motion_energy [body_at (0, 0, 0); None] = Some energy
    /\ Pipeline.analyze_landmarks (fun _ => (0, 0, 1))
         [body_at (0, 0, 0); None] = Some o
    /\ (Segmenter.detect_swing_phases Segmenter.default_detector energy = [] ->
        o = Pipeline.NoSwingDetected)
    /\ (Segmenter.detect_swing_phases Segmenter.default_detector energy <> [] ->
        exists r, o = Pipeline.Analysed r).
Proof.
  apply (analysis_never_raises (fun _ => (0, 0, 1)) 33
           [body_at (0, 0, 0); None]).
  - lia.
  - constructor; [reflexivity|]. constructor; [exact I|]. constructor.
Defined.

End TotalityFacts.

(** ** A recording with one swing *)

Module PipelineRuns.

Import Props.

#[local] Open Scope R_scope.

Lemma row_norm_unit_back :
  Detector.row_norm (Detector.point_sub (0, 0, 0) (1, 0, 0)) = 1.
Proof.
  unfold Detector.row_norm, Detector.point_sub, px, py, pz; simpl.
  replace (_ + _ + _) with 1 by ring. apply sqrt_1.
Qed.

Lemma swing_raw :
  Detector.raw_motion_energy swing_sequence = Some swing_raw_energy.
Proof.
  unfold Detector.raw_motion_energy, swing_sequence, swing_points.
  cbn [repeat app concat map length Nat.ltb Nat.leb Detector.energies_after].
  rewrite !MotionEnergyFacts.energy_at_body.
  rewrite !MotionEnergyFacts.row_norm_rest,
    !MotionEnergyFacts.row_norm_unit_step, !row_norm_unit_back.
  unfold swing_raw_energy. cbn [repeat app].
  repeat f_equal; lra.
Qed.

Lemma swing_energy :
  Detector.calculate_motion_energy swing_sequence
  = Some (Detector.savgol_filter_5_2 swing_raw_energy).
Proof.
  unfold Detector.calculate_motion_energy. rewrite swing_raw. reflexivity.
Qed.

Lemma same_side_above (x : R) (q : QArith_base.Q) :
  5 < x -> Qltb (QArith_base.Qmake 5 1) q = true ->
  Qltb q (QArith_base.Qmake 5 1) = false ->
  same_side Config.motion_threshold (QArith_base.Qmake 5 1) x q.
Proof.
  intros Hx Hgt Hlt. unfold same_side, energy_gt. simpl.
  rewrite Hgt, Hlt. unfold Rltb, Config.motion_threshold.
  split; destruct (Rlt_dec _ _); first [reflexivity|lra].
Qed.

Lemma same_side_below (x : R) (q : QArith_base.Q) :
  x < 5 -> Qltb (QArith_base.Qmake 5 1) q = false ->
  Qltb q (QArith_base.Qmake 5 1) = true ->
  same_side Config.motion_threshold (QArith_base.Qmake 5 1) x q.
Proof.
  intros Hx Hgt Hlt. unfold same_side, energy_gt. simpl.
  rewrite Hgt, Hlt. unfold Rltb, Config.motion_threshold.
  split; destruct (Rlt_dec _ _); first [reflexivity|lra].
Qed.

(** The smoothed energy of [swing_sequence] is above the threshold from
    frame 4 to frame 40 and below it elsewhere. *)
Lemma swing_sides :
  Forall2 (same_side Config.motion_threshold (QArith_base.Qmake 5 1))
          (Detector.savgol_filter_5_2 swing_raw_energy)
          (repeat (QArith_base.Qmake 0 1) 4 ++ repeat (QArith_base.Qmake 6 1) 37
           ++ repeat (QArith_base.Qmake 0 1) 19).
Proof.
  cbv [Detector.savgol_filter_5_2 Detector.savgol_head Detector.savgol_interior
       Detector.savgol_tail swing_raw_energy repeat app length Nat.sub skipn].
  repeat (constructor;
          [first [ apply same_side_below; [lra|reflexivity|reflexivity]
                 | apply same_side_above; [lra|reflexivity|reflexivity] ]|]).
  constructor.
Qed.

Lemma swing_segments :
  Segmenter.detect_swing_phases Segmenter.default_detector
    (Detector.savgol_filter_5_2 swing_raw_energy)
  = [(4, 40, "full_swing"%string)]%Z.
Proof.
  unfold Segmenter.detect_swing_phases, Segmenter.final_state.
  rewrite (SegmenterCompare.scan_same_side Segmenter.default_detector
             rational_detector eq_refl eq_refl eq_refl _ _ swing_sides
             0%Z Segmenter.init).
  vm_compute. reflexivity.
Qed.

Lemma analysis_results_sound_witness :
  exists r,
    Pipeline.analyze_landmarks (fun _ => (0, 0, 1)) swing_sequence
    = Some (Pipeline.Analysed r)
    /\ let s := fst (Pipeline.swing_segment r) in
       let e := snd (Pipeline.swing_segment r) in
       (0 <= s)%Z /\ (30 <= e - s <= 120)%Z
       /\ (e + 15 < Z.of_nat (length swing_sequence))%Z
       /\ (exists rest,
             Segmenter.detect_swing_phases Segmenter.default_detector
               (Pipeline.motion_energy r) = (s, e, "full_swing"%string) :: rest)
       /\ (forall k v, Pipeline.key_positions r !! k = Some v -> (s <= v <= e)%Z)
       /\ length (Pipeline.motion_energy r) = length swing_sequence
       /\ 0 <= Scorer.overall_score (Pipeline.score_results r) <= 100
       /\ (forall k v,
             Scorer.component_scores (Pipeline.score_results r) !! k = Some v ->
             0 <= v <= 100).
Proof.
  destruct (TotalityFacts.analysis_total_result (fun _ => (0, 0, 1)) 33
              swing_sequence) as (energy & o & He & Ho & _ & Hsome).
  - lia.
  - unfold swing_sequence. apply Forall_forall. intros lm Hin.
    apply list_elem_of_In, in_map_iff in Hin as (p & <- & _). reflexivity.
  - rewrite swing_energy in He. injection He as <-.
    destruct Hsome as [r ->]; [rewrite swing_segments; discriminate|].
    exists r. split; [exact Ho|].
    exact (PipelineFacts.analysis_results_sound (fun _ => (0, 0, 1))
             swing_sequence r Ho).
Defined.

End PipelineRuns.

(** ** The feedback sentences *)

Module FeedbackFacts.

Import Feedback Props.

#[local] Open Scope R_scope.

Section Sorting.

Variable before : R -> R -> bool.

Lemma insert_by_In (x c : string * R) (l : list (string * R)) :
  In c (insert_by before x l) <-> c = x \/ In c l.
Proof.
  induction l as [|y l IH]; simpl.
  - split; intros [H|[]]; left; congruence.
  - destruct (before (snd y) (snd x)); simpl.
    + rewrite IH. tauto.
    + split; intros [H|H]; first [left; congruence|right; exact H].
Qed.

Lemma sorted_by_In (c : string * R) (l : list (string * R)) :
  In c (sorted_by before l) <-> In c l.
Proof.
  induction l as [|x l IH]; [reflexivity|].
  change (sorted_by before (x :: l))
    with (insert_by before x (sorted_by before l)).
  rewrite insert_by_In, IH. simpl.
  split; intros [H|H]; first [left; congruence|right; exact H].
Qed.

Variable le : R -> R -> Prop.
Hypothesis le_refl : forall a, le a a.
Hypothesis le_trans : forall a b c, le a b -> le b c -> le a c.
Hypothesis before_true : forall a b, before a b = true -> le b a.
Hypothesis before_false : forall a b, before a b = false -> le a b.

(** The first entry of the sorted items bounds every entry. *)
Lemma sorted_by_head (l : list (string * R)) (c : string * R) :
  In c l ->
  exists h t, sorted_by before l = h :: t /\ le (snd c) (snd h).
Proof.
  induction l as [|x l IH]; intros Hin; [destruct Hin|].
  change (sorted_by before (x :: l))
    with (insert_by before x (sorted_by before l)).
  destruct (sorted_by before l) as [|y rest] eqn:Hs.
  - assert (Hc : c = x).
    { destruct Hin as [Hx|Hl]; [congruence|].
      apply (sorted_by_In c l) in Hl. rewrite Hs in Hl. destruct Hl. }
    subst c. exists x, []. split; [reflexivity|apply le_refl].
  - simpl. destruct (before (snd y) (snd x)) eqn:Hb.
    + exists y, (insert_by before x rest). split; [reflexivity|].
      destruct Hin as [<-|Hl]; [now apply before_true|].
      destruct (IH Hl) as (h & t & [= <- <-] & Hle). exact Hle.
    + exists x, (y :: rest). split; [reflexivity|].
      destruct Hin as [<-|Hl]; [apply le_refl|].
      destruct (IH Hl) as (h & t & [= <- <-] & Hle).
      apply (le_trans _ (snd y)); [exact Hle|now apply before_false].
Qed.

End Sorting.

Lemma highest_first (l : list (string * R)) (c : string * R) :
  In c l ->
  exists h t, sorted_by (fun a b => Rltb b a) l = h :: t /\ snd c <= snd h.
Proof.
  apply (sorted_by_head (fun a b => Rltb b a) (fun a b => a <= b)).
  - intros a. lra.
  - intros a b d. lra.
  - intros a b. unfold Rltb. destruct (Rlt_dec b a); [lra|discriminate].
  - intros a b. unfold Rltb. destruct (Rlt_dec b a); [discriminate|lra].
Qed.

Lemma lowest_first (l : list (string * R)) (c : string * R) :
  In c l ->
  exists h t, sorted_by Rltb l = h :: t /\ snd h <= snd c.
Proof.
  apply (sorted_by_head Rltb (fun a b => b <= a)).
  - intros a. lra.
  - intros a b d. lra.
  - intros a b. unfold Rltb. destruct (Rlt_dec a b); [lra|discriminate].
  - intros a b. unfold Rltb. destruct (Rlt_dec a b); [discriminate|lra].
Qed.

Lemma In_firstn {A : Type} (n : nat) (l : list A) (x : A) :
  In x (firstn n l) -> In x l.
Proof.
  revert l. induction n as [|n IH]; intros [|y l]; simpl; try tauto.
  intros [H|H]; [now left|right; now apply IH].
Qed.

Lemma strength_message_known (component : string) (score : R) :
  In component known_components ->
  _get_strength_message component score <> ""%string
  /\ _get_strength_message component score
     <> "Continue practicing to develop strengths"%string
  /\ (component <> "tempo"%string ->
      forall shown, _get_strength_message component score
                    <> ("Smooth swing tempo" +:+ shown)%string).
Proof.
  unfold _get_strength_message, known_components. cbv zeta.
  generalize (" (" +:+ format_0f score +:+ "/100)")%string. intros shown.
  intros [<-|[<-|[<-|[<-|[<-|[<-|[]]]]]]]; simpl;
    (split; [discriminate|]); (split; [discriminate|]);
    intros Hne other; first [discriminate|now contradiction Hne].
Qed.

Lemma weakness_message_known (component : string) (score : R) :
  In component known_components ->
  _get_weakness_message component score <> ""%string
  /\ _get_weakness_message component score
     <> "Great swing! Keep maintaining your form"%string.
Proof.
  unfold _get_weakness_message, known_components. cbv zeta.
  generalize (" (" +:+ format_0f score +:+ "/100)")%string. intros shown.
  intros [<-|[<-|[<-|[<-|[<-|[<-|[]]]]]]]; simpl; split; discriminate.
Qed.

(** Appending the sentence of every selected entry of known name is mapping
    over the selected entries. *)
Lemma flat_map_messages (select : string * R -> bool)
    (message : string -> R -> string) (l : list (string * R)) :
  (forall c, In c l -> message (fst c) (snd c) <> ""%string) ->
  flat_map (fun cs => if select cs
                      then append_message (message (fst cs) (snd cs))
                      else []) l
  = map (fun cs => message (fst cs) (snd cs)) (List.filter select l).
Proof.
  induction l as [|c l IH]; intros Hmsg; [reflexivity|].
  simpl. rewrite IH by (intros d Hd; apply Hmsg; now right).
  destruct (select c); [|reflexivity].
  unfold append_message.
  destruct (String.eqb_spec (message (fst c) (snd c)) "") as [He|_];
    [|reflexivity].
  exfalso. exact (Hmsg c (or_introl eq_refl) He).
Qed.

Lemma filter_length_le {A : Type} (f : A -> bool) (l : list A) :
  (length (List.filter f l) <= length l)%nat.
Proof.
  induction l as [|x l IH]; simpl; [lia|]. destruct (f x); simpl; lia.
Qed.

Lemma or_fallback_length (fallback : string) (out : list string) (n : nat) :
  (1 <= n)%nat -> (length out <= n)%nat ->
  (1 <= length (or_fallback fallback out) <= n)%nat.
Proof. intros Hn Hout. destruct out; simpl in *; lia. Qed.

Section Known.

Variable cs : list (string * R).
Hypothesis known : Forall (fun c => In (fst c) known_components) cs.

Lemma known_in (c : string * R) : In c cs -> In (fst c) known_components.
Proof.
  intros Hin. rewrite Forall_forall in known. apply known, list_elem_of_In, Hin.
Qed.

Lemma strengths_reported :
  _identify_strengths cs
  = or_fallback "Continue practicing to develop strengths"
      (map (fun c => _get_strength_message (fst c) (snd c)) (reported_strong cs)).
Proof.
  unfold _identify_strengths, reported_strong. cbv zeta.
  rewrite flat_map_messages; [reflexivity|].
  intros c Hc. apply strength_message_known, known_in.
  apply In_firstn in Hc. now apply sorted_by_In in Hc.
Qed.

Lemma weaknesses_reported :
  _identify_weaknesses cs
  = or_fallback "Great swing! Keep maintaining your form"
      (map (fun c => _get_weakness_message (fst c) (snd c)) (reported_weak cs)).
Proof.
  unfold _identify_weaknesses, reported_weak. cbv zeta.
  rewrite flat_map_messages; [reflexivity|].
  intros c Hc. apply weakness_message_known, known_in.
  apply In_firstn in Hc. now apply sorted_by_In in Hc.
Qed.

Lemma reported_strong_spec (c : string * R) :
  In c (reported_strong cs) -> In c cs /\ 80 <= snd c.
Proof.
  unfold reported_strong. intros Hin. apply filter_In in Hin as [Hin Hsel].
  apply In_firstn in Hin. apply sorted_by_In in Hin. split; [exact Hin|].
  unfold Rleb in Hsel. destruct (Rle_dec 80 (snd c)); [lra|discriminate].
Qed.

Lemma reported_weak_spec (c : string * R) :
  In c (reported_weak cs) -> In c cs /\ snd c < 70.
Proof.
  unfold reported_weak. intros Hin. apply filter_In in Hin as [Hin Hsel].
  apply In_firstn in Hin. apply sorted_by_In in Hin. split; [exact Hin|].
  now apply ErrorFacts.Rltb_true in Hsel.
Qed.

Lemma reported_lengths :
  (length (reported_strong cs) <= 3)%nat /\ (length (reported_weak cs) <= 3)%nat.
Proof.
  unfold reported_strong, reported_weak.
  split; (etransitivity; [apply filter_length_le|]);
    rewrite length_take; lia.
Qed.

Lemma no_strength_iff :
  reported_strong cs = [] <-> Forall (fun c => snd c < 80) cs.
Proof.
  split.
  - intros Hnone. apply Forall_forall. intros c Hc.
    apply list_elem_of_In in Hc.
    destruct (Rlt_le_dec (snd c) 80) as [Hlt|Hge]; [exact Hlt|exfalso].
    destruct (highest_first cs c Hc) as (h & t & Hsorted & Hle).
    unfold reported_strong in Hnone. rewrite Hsorted in Hnone.
    simpl in Hnone. unfold Rleb in Hnone.
    destruct (Rle_dec 80 (snd h)); [discriminate|lra].
  - intros Hall. destruct (reported_strong cs) as [|c rest] eqn:Hr;
      [reflexivity|exfalso].
    destruct (reported_strong_spec c) as [Hin Hge]; [rewrite Hr; now left|].
    rewrite Forall_forall in Hall.
    pose proof (Hall c (proj2 (list_elem_of_In _ _) Hin)) as Hlt.
    simpl in Hlt. lra.
Qed.

Lemma no_weakness_iff :
  reported_weak cs = [] <-> Forall (fun c => 70 <= snd c) cs.
Proof.
  split.
  - intros Hnone. apply Forall_forall. intros c Hc.
    apply list_elem_of_In in Hc.
    destruct (Rlt_le_dec (snd c) 70) as [Hlt|Hge]; [exfalso|exact Hge].
    destruct (lowest_first cs c Hc) as (h & t & Hsorted & Hle).
    unfold reported_weak in Hnone. rewrite Hsorted in Hnone.
    simpl in Hnone. unfold Rltb in Hnone.
    destruct (Rlt_dec (snd h) 70); [discriminate|lra].
  - intros Hall. destruct (reported_weak cs) as [|c rest] eqn:Hr;
      [reflexivity|exfalso].
    destruct (reported_weak_spec c) as [Hin Hlt]; [rewrite Hr; now left|].
    rewrite Forall_forall in Hall.
    pose proof (Hall c (proj2 (list_elem_of_In _ _) Hin)) as Hge.
    simpl in Hge. lra.
Qed.

End Known.

(** X24. For component scores under the six known names, each of the two
    feedback lists has between one and three sentences; the strengths are
    the single sentence [Continue practicing to develop strengths] exactly
    when every component scores below 80, and the weaknesses are the single
    sentence [Great swing! Keep maintaining your form] exactly when every
    component scores at least 70. *)
Theorem feedback_fallbacks (cs : list (string * R)) :
  Forall (fun c => In (fst c) known_components) cs ->
  (1 <= length (_identify_strengths cs) <= 3)%nat
  /\ (1 <= length (_identify_weaknesses cs) <= 3)%nat
  /\ (_identify_strengths cs = ["Continue practicing to develop strengths"%string]
      <-> Forall (fun c => snd c < 80) cs)
  /\ (_identify_weaknesses cs = ["Great swing! Keep maintaining your form"%string]
      <-> Forall (fun c => 70 <= snd c) cs).
Proof.
  intros Hknown.
  rewrite (strengths_reported cs Hknown), (weaknesses_reported cs Hknown).
  destruct (reported_lengths cs) as [Hs Hw].
  split; [apply or_fallback_length; [lia|now rewrite length_map]|].
  split; [apply or_fallback_length; [lia|now rewrite length_map]|].
  split.
  - rewrite <- (no_strength_iff cs).
    destruct (reported_strong cs) as [|c rest] eqn:Hr; [tauto|].
    split; [|discriminate]. simpl. intros [= Hmsg _]. exfalso.
    destruct (reported_strong_spec cs c) as [Hin _]; [rewrite Hr; now left|].
    destruct (strength_message_known (fst c) (snd c) (known_in cs Hknown c Hin))
      as (_ & Hne & _).
    exact (Hne Hmsg).
  - rewrite <- (no_weakness_iff cs).
    destruct (reported_weak cs) as [|c rest] eqn:Hr; [tauto|].
    split; [|discriminate]. simpl. intros [= Hmsg _]. exfalso.
    destruct (reported_weak_spec cs c) as [Hin _]; [rewrite Hr; now left|].
    destruct (weakness_message_known (fst c) (snd c) (known_in cs Hknown c Hin))
      as (_ & Hne).
    exact (Hne Hmsg).
Qed.

Lemma known_items (scores : R * R * R * R * R * R) :
  Forall (fun c => In (fst c) known_components) (component_items scores)
  /\ NoDup (map fst (component_items scores)).
Proof.
  destruct scores as [[[[[p r] d] w] wt] t].
  split.
  - unfold component_items, known_components.
    repeat (constructor; [simpl; tauto|]). constructor.
  - cbn [component_items map fst]. compute_done.
Qed.

Lemma feedback_fallbacks_witness :
  let cs := component_items (85, 90, 75, 60, 100, 50) in
  (1 <= length (_identify_strengths cs) <= 3)%nat
  /\ (1 <= length (_identify_weaknesses cs) <= 3)%nat
  /\ (_identify_strengths cs = ["Continue practicing to develop strengths"%string]
      <-> Forall (fun c => snd c < 80) cs)
  /\ (_identify_weaknesses cs = ["Great swing! Keep maintaining your form"%string]
      <-> Forall (fun c => 70 <= snd c) cs).
Proof.
  intros cs. apply (feedback_fallbacks cs).
  unfold cs, component_items, known_components.
  repeat (constructor; [simpl; tauto|]). constructor.
Defined.

Lemma unique_key (l : list (string * R)) (c d : string * R) :
  NoDup (map fst l) -> In c l -> In d l -> fst c = fst d -> c = d.
Proof.
  induction l as [|x l IH]; intros Hnd Hc Hd Hk; [destruct Hc|].
  simpl in Hnd. apply NoDup_cons in Hnd as [Hx Hnd].
  assert (Hkey : forall e, In e l -> fst e <> fst x).
  { intros e He Heq. apply Hx. rewrite <- Heq.
    apply list_elem_of_In, in_map, He. }
  destruct Hc as [<-|Hc], Hd as [<-|Hd].
  - reflexivity.
  - exfalso. apply (Hkey d Hd). congruence.
  - exfalso. apply (Hkey c Hc). congruence.
  - now apply IH.
Qed.

(** X25. For component scores under the six known names, no name twice, the
    strengths are the sentences of the components that score at least 80
    among the three highest, the weaknesses those of the components that
    score below 70 among the three lowest (or the fallback sentence when
    there is none), and no component is reported in both lists. *)
Theorem feedback_exclusive (cs : list (string * R)) :
  Forall (fun c => In (fst c) known_components) cs ->
  NoDup (map fst cs) ->
  _identify_strengths cs
  = or_fallback "Continue practicing to develop strengths"
      (map (fun c => _get_strength_message (fst c) (snd c)) (reported_strong cs))
  /\ _identify_weaknesses cs
     = or_fallback "Great swing! Keep maintaining your form"
         (map (fun c => _get_weakness_message (fst c) (snd c)) (reported_weak cs))
  /\ (forall c, In c (reported_strong cs) -> In c cs /\ 80 <= snd c)
  /\ (forall c, In c (reported_weak cs) -> In c cs /\ snd c < 70)
  /\ (forall c d, In c (reported_strong cs) -> In d (reported_weak cs) ->
        fst c <> fst d).
Proof.
  intros Hknown Hnd.
  split; [exact (strengths_reported cs Hknown)|].
  split; [exact (weaknesses_reported cs Hknown)|].
  split; [exact (reported_strong_spec cs)|].
  split; [exact (reported_weak_spec cs)|].
  intros c d Hc Hd Hk.
  destruct (reported_strong_spec cs c Hc) as [Hcin Hge].
  destruct (reported_weak_spec cs d Hd) as [Hdin Hlt].
  pose proof (unique_key cs c d Hnd Hcin Hdin Hk) as Heq. subst d. lra.
Qed.

Lemma feedback_exclusive_witness :
  let cs := component_items (85, 90, 75, 60, 100, 50) in
  _identify_strengths cs
  = or_fallback "Continue practicing to develop strengths"
      (map (fun c => _get_strength_message (fst c) (snd c)) (reported_strong cs))
  /\ _identify_weaknesses cs
     = or_fallback "Great swing! Keep maintaining your form"
         (map (fun c => _get_weakness_message (fst c) (snd c)) (reported_weak cs))
  /\ (forall c, In c (reported_strong cs) -> In c cs /\ 80 <= snd c)
  /\ (forall c, In c (reported_weak cs) -> In c cs /\ snd c < 70)
  /\ (forall c d, In c (reported_strong cs) -> In d (reported_weak cs) ->
        fst c <> fst d).
Proof.
  intros cs. apply (feedback_exclusive cs).
  - unfold cs, component_items, known_components.
    repeat (constructor; [simpl; tauto|]). constructor.
  - unfold cs. cbn [component_items map fst]. compute_done.
Defined.

Lemma identified_tempo_score (seq : landmarks) (start end_ : Z) :
  exists score,
    Tempo.analyze_tempo seq (start, end_)
      (Detector.identify_swing_positions seq (start, end_)) !! "tempo_score"
    = Some (Num score)
    /\ 40 <= score < 220 / 3.
Proof.
  pose proof (TempoFacts.identified_tempo_frames seq start end_) as Hbd.
  cbv zeta in Hbd.
  set (kp := Detector.identify_swing_positions seq (start, end_)) in *.
  set (b := (get_pos kp "top" start - get_pos kp "address" start)%Z) in *.
  set (d := (get_pos kp "impact" end_ - get_pos kp "top" start)%Z) in *.
  exists (Tempo._score_tempo (Tempo.tempo_ratio_of b d)).
  split; [reflexivity|].
  assert (Hpos : 0 < IZR (Z.max d 1)) by (apply IZR_lt; lia).
  assert (Hr : 0 <= Tempo.tempo_ratio_of b d < 5 / 3).
  { unfold Tempo.tempo_ratio_of. destruct Hbd as [Hb0 [Hb|[Hd Hbd]]].
    - rewrite Hb. unfold Rdiv. rewrite Rmult_0_l. lra.
    - rewrite Z.max_l by lia.
      assert (Hdpos : 0 < IZR d) by (apply IZR_lt; lia).
      assert (Hb : 0 <= IZR b) by (apply IZR_le; lia).
      assert (Hlt : 3 * IZR b < 5 * IZR d).
      { rewrite <- !mult_IZR. apply IZR_lt. lia. }
      split.
      + apply Rle_mult_inv_pos; lra.
      + apply (Rmult_lt_reg_r (IZR d)); [lra|].
        unfold Rdiv. rewrite Rmult_assoc, Rinv_l by lra. lra. }
  rewrite TempoFacts.score_tempo_below_ideal by lra. lra.
Qed.

(** X26. With the key positions of [identify_swing_positions], as in
    [analyze_video], the tempo is never reported as a strength: its score
    stays below 80 (the top lies in the first half of the segment, the impact
    at 80 percent), so the sentence [Smooth swing tempo (...)] never appears
    in the strengths that [calculate_swing_score] returns. *)
Theorem tempo_never_a_strength (seq : landmarks) (start end_ : Z)
    (pm rm wm wr : gmap string pyval) (strengths weaknesses : list string) :
  feedback_of pm rm wm wr
    (Tempo.analyze_tempo seq (start, end_)
       (Detector.identify_swing_positions seq (start, end_)))
  = Some (strengths, weaknesses) ->
  forall shown, ~ In ("Smooth swing tempo" +:+ shown)%string strengths.
Proof.
  unfold feedback_of.
  destruct (Scorer.component_scores_of _ _ _ _ _)
    as [[[[[[p r] d] w] wt] t]|] eqn:Hscores; cbn [mbind option_bind];
    [|discriminate].
  intros [= <- _] shown Hin.
  assert (Ht : t < 80).
  { destruct (identified_tempo_score seq start end_) as (score & Hlk & Hb).
    unfold Scorer.component_scores_of in Hscores.
    destruct (Scorer._score_swing_plane pm); cbn [mbind option_bind] in Hscores;
      [|discriminate].
    destruct (Scorer._score_rotation rm); cbn [mbind option_bind] in Hscores;
      [|discriminate].
    destruct (Scorer._score_downswing_alignment rm wm);
      cbn [mbind option_bind] in Hscores; [|discriminate].
    destruct (get_num wr _ _); cbn [mbind option_bind] in Hscores;
      [|discriminate].
    destruct (get_num wm _ _); cbn [mbind option_bind] in Hscores;
      [|discriminate].
    rewrite (PipelineFacts.get_num_lookup _ _ _ _ Hlk) in Hscores.
    cbn [mbind option_bind] in Hscores. injection Hscores as _ _ _ _ _ <-. lra. }
  destruct (known_items (p, r, d, w, wt, t)) as [Hknown Hnd].
  change (In ("Smooth swing tempo" +:+ shown)%string
             (_identify_strengths (component_items (p, r, d, w, wt, t))))
    in Hin.
  rewrite (strengths_reported _ Hknown) in Hin.
  destruct (reported_strong (component_items (p, r, d, w, wt, t)))
    as [|c0 rest] eqn:Hr.
  - simpl in Hin. destruct Hin as [Hin|[]]. discriminate.
  - rewrite <- Hr in Hin. clear Hr c0 rest.
    assert (Hmap : In ("Smooth swing tempo" +:+ shown)%string
                      (map (fun c => _get_strength_message (fst c) (snd c))
                           (reported_strong (component_items (p, r, d, w, wt, t))))).
    { destruct (map _ _); [destruct Hin as [Hin|[]]; discriminate|exact Hin]. }
    apply in_map_iff in Hmap as (c & Hmsg & Hc).
    destruct (reported_strong_spec _ c Hc) as [Hcin Hge].
    destruct (String.eqb_spec (fst c) "tempo") as [Hk|Hk].
    + assert (Htempo : In ("tempo"%string, t) (component_items (p, r, d, w, wt, t)))
        by (simpl; tauto).
      pose proof (unique_key _ c ("tempo"%string, t) Hnd Hcin Htempo Hk) as Heq.
      subst c. simpl in Hge. lra.
    + destruct (strength_message_known (fst c) (snd c)
                  (known_in _ Hknown c Hcin)) as (_ & _ & Hother).
      exact (Hother Hk shown Hmsg).
Qed.

Lemma tempo_never_a_strength_witness :
  exists strengths weaknesses,
    feedback_of ∅ ∅ ∅ ∅
      (Tempo.analyze_tempo [None; None; None] (0, 2)%Z
         (Detector.identify_swing_positions [None; None; None] (0, 2)%Z))
    = Some (strengths, weaknesses)
    /\ forall shown, ~ In ("Smooth swing tempo" +:+ shown)%string strengths.
Proof.
  eexists. eexists. split.
  - reflexivity.
  - eapply (tempo_never_a_strength [None; None; None] 0 2 ∅ ∅ ∅ ∅).
    reflexivity.
Defined.

End FeedbackFacts.

(** ** Joint angles of the pose estimator *)

Module PoseFacts.

Import PoseEstimator Props.

#[local] Open Scope R_scope.

Lemma getitem_past_end {A : Type} (l : list A) (i : Z) :
  (Z.of_nat (length l) <= i)%Z -> Py.getitem l i = None.
Proof.
  intros Hi. unfold Py.getitem.
  assert (H1 : (i <? Z.of_nat (length l))%Z = false) by (apply Z.ltb_ge; lia).
  assert (H2 : (i <? 0)%Z = false) by (apply Z.ltb_ge; lia).
  rewrite H1, H2, andb_false_r. reflexivity.
Qed.

Lemma get_joint_angle_spec (landmarks : option frame) (i j k : Z) :
  (0 <= i)%Z -> (0 <= j)%Z -> (0 <= k)%Z ->
  exists angle,
    get_joint_angle landmarks i j k = Some angle
    /\ 0 <= angle <= 180
    /\ (match landmarks with
        | None => angle = 0
        | Some rows =>
            if (Z.of_nat (length rows) <=? Z.max (Z.max i j) k)%Z
            then angle = 0
            else exists p1 p2 p3,
                Py.getitem rows i = Some p1
                /\ Py.getitem rows j = Some p2
                /\ Py.getitem rows k = Some p3
                /\ angle = Analyzer._get_angle p1 p2 p3
        end).
Proof.
  intros Hi Hj Hk. unfold get_joint_angle.
  destruct landmarks as [rows|].
  2:{ exists 0. split; [reflexivity|]. split; [lra|reflexivity]. }
  destruct (Z.of_nat (length rows) <=? Z.max (Z.max i j) k)%Z eqn:Hlen.
  { exists 0. split; [reflexivity|]. split; [lra|reflexivity]. }
  apply Z.leb_gt in Hlen.
  destruct (TotalityFacts.getitem_total rows i ltac:(lia)) as [p1 H1].
  destruct (TotalityFacts.getitem_total rows j ltac:(lia)) as [p2 H2].
  destruct (TotalityFacts.getitem_total rows k ltac:(lia)) as [p3 H3].
  rewrite H1, H2, H3. cbn [mbind option_bind]. cbv zeta.
  eexists. split; [reflexivity|].
  split; [apply AnalyzerFacts.degrees_acos_bounds|].
  exists p1, p2, p3. repeat split; reflexivity.
Qed.

(** X27. For indices that are not negative, [get_joint_angle] never raises
    and returns an angle in [0, 180] degrees: 0 when the pose is missing or
    the array is too short for one of the three rows, and otherwise the very
    angle that [BiomechanicalAnalyzer._get_angle] computes from the three
    rows. *)
Theorem joint_angle_guarded (landmarks : option frame) (i j k : Z) :
  (0 <= i)%Z -> (0 <= j)%Z -> (0 <= k)%Z ->
  exists angle,
    get_joint_angle landmarks i j k = Some angle
    /\ 0 <= angle <= 180
    /\ (match landmarks with
        | None => angle = 0
        | Some rows =>
            if (Z.of_nat (length rows) <=? Z.max (Z.max i j) k)%Z
            then angle = 0
            else exists p1 p2 p3,
                Py.getitem rows i = Some p1
                /\ Py.getitem rows j = Some p2
                /\ Py.getitem rows k = Some p3
                /\ angle = Analyzer._get_angle p1 p2 p3
        end).
Proof.
  intros Hi Hj Hk.
  destruct (get_joint_angle_spec landmarks i j k Hi Hj Hk)
    as (angle & Hget & Hrange & Hcases).
  exists angle. split; [exact Hget|]. split; [exact Hrange|exact Hcases].
Qed.

Lemma joint_angle_guarded_witness :
  exists angle,
    get_joint_angle (wrist_at 1) 12 14 16 = Some angle
    /\ 0 <= angle <= 180
    /\ exists p1 p2 p3,
         Py.getitem (repeat (0, 0, 0) 16 ++ [(1, 0, 0)]) 12 = Some p1
         /\ Py.getitem (repeat (0, 0, 0) 16 ++ [(1, 0, 0)]) 14 = Some p2
         /\ Py.getitem (repeat (0, 0, 0) 16 ++ [(1, 0, 0)]) 16 = Some p3
         /\ angle = Analyzer._get_angle p1 p2 p3.
Proof.
  apply (joint_angle_guarded (wrist_at 1) 12 14 16); lia.
Defined.

(** X28. [calculate_body_angles] guards the spine angle by the rows of the
    left hip and the left shoulder only, but also reads the right hip: on
    an array of exactly 24 rows it raises.  With at most 23 rows it returns
    the four joint angles without a spine angle, both knee angles being 0;
    with 25 rows or more it returns five angles, the spine angle in
    [-90, 90] degrees and the others in [0, 180]. *)
Theorem body_angles_rows (rows : frame) :
  (length rows = 24%nat -> calculate_body_angles (Some rows) = None)
  /\ ((length rows <= 23)%nat ->
      exists angles,
        calculate_body_angles (Some rows) = Some angles
        /\ angles !! "spine_angle" = None
        /\ angles !! "right_knee" = Some 0
        /\ angles !! "left_knee" = Some 0)
  /\ ((25 <= length rows)%nat ->
      exists angles spine,
        calculate_body_angles (Some rows) = Some angles
        /\ angles !! "spine_angle" = Some spine
        /\ -90 <= spine <= 90
        /\ forall name v, name <> "spine_angle"%string ->
             angles !! name = Some v -> 0 <= v <= 180).
Proof.
  unfold calculate_body_angles.
  destruct (get_joint_angle_spec (Some rows) Config.right_shoulder
              Config.right_elbow Config.right_wrist)
    as (re & -> & Hre & _); [unfold Config.right_shoulder; lia
                            |unfold Config.right_elbow; lia
                            |unfold Config.right_wrist; lia|].
  destruct (get_joint_angle_spec (Some rows) Config.left_shoulder
              Config.left_elbow Config.left_wrist)
    as (le & -> & Hle & _); [unfold Config.left_shoulder; lia
                            |unfold Config.left_elbow; lia
                            |unfold Config.left_wrist; lia|].
  destruct (get_joint_angle_spec (Some rows) Config.right_hip
              Config.right_knee Config.right_ankle)
    as (rk & -> & Hrk & Hrk0); [unfold Config.right_hip; lia
                               |unfold Config.right_knee; lia
                               |unfold Config.right_ankle; lia|].
  destruct (get_joint_angle_spec (Some rows) Config.left_hip
              Config.left_knee Config.left_ankle)
    as (lk & -> & Hlk & Hlk0); [unfold Config.left_hip; lia
                               |unfold Config.left_knee; lia
                               |unfold Config.left_ankle; lia|].
  cbn [mbind option_bind]. cbv zeta.
  unfold Config.left_hip, Config.right_hip, Config.left_shoulder,
    Config.right_shoulder, Config.right_knee, Config.left_knee,
    Config.right_ankle, Config.left_ankle in *.
  change (Z.max 23 11) with 23%Z.
  change (Z.max (Z.max 24 26) 28) with 28%Z in Hrk0.
  change (Z.max (Z.max 23 25) 27) with 27%Z in Hlk0.
  split; [|split].
  - intros Hlen.
    destruct (23 <? Z.of_nat (length rows))%Z eqn:Hguard;
      [|apply Z.ltb_ge in Hguard; lia].
    destruct (TotalityFacts.getitem_total rows 23 ltac:(lia)) as [lh ->].
    cbn [mbind option_bind].
    rewrite (getitem_past_end rows 24) by lia. reflexivity.
  - intros Hlen.
    destruct (23 <? Z.of_nat (length rows))%Z eqn:Hguard;
      [apply Z.ltb_lt in Hguard; lia|].
    destruct (Z.of_nat (length rows) <=? 28)%Z eqn:H28;
      [|apply Z.leb_gt in H28; lia].
    destruct (Z.of_nat (length rows) <=? 27)%Z eqn:H27;
      [|apply Z.leb_gt in H27; lia].
    subst rk lk.
    eexists. split; [reflexivity|]. repeat split; reflexivity.
  - intros Hlen.
    destruct (23 <? Z.of_nat (length rows))%Z eqn:Hguard;
      [|apply Z.ltb_ge in Hguard; lia].
    destruct (TotalityFacts.getitem_total rows 23 ltac:(lia)) as [lh ->].
    destruct (TotalityFacts.getitem_total rows 24 ltac:(lia)) as [rh ->].
    destruct (TotalityFacts.getitem_total rows 11 ltac:(lia)) as [ls ->].
    destruct (TotalityFacts.getitem_total rows 12 ltac:(lia)) as [rs ->].
    cbn [mbind option_bind].
    eexists. eexists. split; [reflexivity|]. split; [reflexivity|].
    split.
    + pose proof (AnalyzerFacts.degrees_acos_bounds
                    (clip ((fst (Analyzer.vsub
                                   ((px ls + px rs) / 2, (py ls + py rs) / 2)
                                   ((px lh + px rh) / 2, (py lh + py rh) / 2)) * 0
                            + snd (Analyzer.vsub
                                     ((px ls + px rs) / 2, (py ls + py rs) / 2)
                                     ((px lh + px rh) / 2, (py lh + py rh) / 2)) * 1)
                           / (Analyzer.norm2
                                (Analyzer.vsub
                                   ((px ls + px rs) / 2, (py ls + py rs) / 2)
                                   ((px lh + px rh) / 2, (py lh + py rh) / 2))
                              + Analyzer.eps)) (-1) 1)) as Hb.
      lra.
    + intros name v Hname Hv.
      rewrite lookup_insert_ne in Hv by congruence.
      apply lookup_insert_Some in Hv as [[_ <-]|[_ Hv]]; [exact Hlk|].
      apply lookup_insert_Some in Hv as [[_ <-]|[_ Hv]]; [exact Hrk|].
      apply lookup_insert_Some in Hv as [[_ <-]|[_ Hv]]; [exact Hle|].
      apply lookup_insert_Some in Hv as [[_ <-]|[_ Hv]]; [exact Hre|].
      rewrite lookup_empty in Hv. discriminate.
Qed.

Lemma body_angles_rows_witness :
  calculate_body_angles (Some (repeat (0, 0, 0) 24)) = None.
Proof.
  apply (proj1 (body_angles_rows (repeat (0, 0, 0) 24))). reflexivity.
Defined.

End PoseFacts.

(** ** What the motion energy measures *)

Module EnergyFacts.

Import Detector Props.

#[local] Open Scope R_scope.

Lemma row_norm_zero (v : point) : row_norm v = 0 -> v = (0, 0, 0).
Proof.
  destruct v as [[x y] z]. unfold row_norm, px, py, pz. simpl. intros Hn.
  apply sqrt_eq_0 in Hn; [|nra].
  assert (Hx : x = 0) by nra. assert (Hy : y = 0) by nra.
  assert (Hz : z = 0) by nra. now subst.
Qed.

Lemma displacement_zero_iff (p q : point) :
  row_norm (point_sub q p) = 0 <-> q = p.
Proof.
  split.
  - intros Hn. apply row_norm_zero in Hn.
    destruct p as [[x y] z], q as [[x' y'] z'].
    unfold point_sub, px, py, pz in Hn. simpl in Hn.
    injection Hn as Hx Hy Hz. f_equal; [f_equal|]; lra.
  - intros ->. apply MotionEnergyFacts.row_norm_rest.
Qed.

Lemma Rsum_zero_iff (l : list R) :
  Forall (fun x => 0 <= x) l -> (Rsum l = 0 <-> Forall (fun x => x = 0) l).
Proof.
  induction 1 as [|x l Hx Hl IH].
  - split; [constructor|reflexivity].
  - pose proof (MotionEnergyFacts.Rsum_nonneg l Hl) as Hs.
    change (Rsum (x :: l)) with (x + Rsum l).
    split.
    + intros Hsum. constructor; [lra|]. apply IH. lra.
    + intros Hall. apply Forall_cons in Hall as [-> Hall].
      apply IH in Hall. lra.
Qed.

(** The displacement selected for joint [j] between two frames of equal
    length. *)
Lemma displacement_row (c p : frame) (j : nat) (x : R) :
  length c = length p ->
  nth_error (map row_norm (map (fun ab => point_sub (fst ab) (snd ab))
                               (combine c p))) j = Some x ->
  exists cj pj,
    nth_error c j = Some cj /\ nth_error p j = Some pj
    /\ x = row_norm (point_sub cj pj).
Proof.
  revert p j. induction c as [|a c IH]; intros [|b p] j Hlen Hx;
    simpl in Hlen; try discriminate.
  - destruct j; discriminate.
  - destruct j as [|j]; simpl in Hx.
    + injection Hx as <-. exists a, b. repeat split; reflexivity.
    + destruct (IH p j ltac:(lia) Hx) as (cj & pj & Hc & Hp & ->).
      exists cj, pj. repeat split; assumption.
Qed.

Lemma take_rows_rows (c p : frame) (idx : list nat) (sel : list R) :
  length c = length p ->
  take_rows (map row_norm (map (fun ab => point_sub (fst ab) (snd ab))
                               (combine c p))) idx = Some sel ->
  Forall (fun x => 0 <= x) sel
  /\ length sel = length idx
  /\ (Forall (fun x => x = 0) sel
      <-> forall j, In j idx -> nth_error c j = nth_error p j).
Proof.
  intros Hlen. revert sel.
  induction idx as [|j idx IH]; intros sel Hsel; simpl in Hsel.
  - injection Hsel as <-.
    split; [constructor|]. split; [reflexivity|].
    split; [intros _ j []|constructor].
  - destruct (nth_error _ j) as [x|] eqn:Hx; [|discriminate].
    destruct (take_rows _ idx) as [xs|]; [|discriminate].
    injection Hsel as <-.
    destruct (IH xs eq_refl) as (Hpos & Hl & Hiff).
    destruct (displacement_row c p j x Hlen Hx) as (cj & pj & Hc & Hp & ->).
    split; [constructor; [apply MotionEnergyFacts.row_norm_nonneg|exact Hpos]|].
    split; [simpl; congruence|].
    split.
    + intros Hall. apply Forall_cons in Hall as [Hz Hall].
      apply displacement_zero_iff in Hz. subst cj.
      intros k [<-|Hk]; [congruence|]. now apply Hiff.
    + intros Hsame. constructor.
      * apply displacement_zero_iff.
        pose proof (Hsame j (or_introl eq_refl)) as Hj. congruence.
      * apply Hiff. intros k Hk. apply Hsame. now right.
Qed.

(** X29. Between two detected frames with the same number (at least 25) of
    landmarks, the motion energy is computed and is not negative, and it is 0
    exactly when none of the eight key joints (shoulders, elbows, wrists,
    hips) has moved: the other landmarks, the legs among them, do not
    count. *)
Theorem energy_counts_key_joints (prev cur : frame) :
  length cur = length prev -> (25 <= length cur)%nat ->
  exists e,
    energy_at (Some prev) (Some cur) = Some e
    /\ 0 <= e
    /\ (e = 0 <-> forall j, In j key_joints ->
                    nth_error cur j = nth_error prev j).
Proof.
  intros Hlen Hrows. unfold energy_at, frame_sub.
  rewrite Hlen, Nat.eqb_refl.
  destruct (MotionEnergyFacts.take_rows_total
              (map row_norm (map (fun ab => point_sub (fst ab) (snd ab))
                                 (combine cur prev))) key_joints) as [sel Hsel].
  { rewrite !length_map, length_combine, Hlen, Nat.min_id.
    unfold key_joints. repeat constructor; lia. }
  rewrite Hsel.
  destruct (take_rows_rows cur prev key_joints sel Hlen Hsel)
    as (Hpos & Hl & Hiff).
  exists (mean sel * 100). split; [reflexivity|].
  pose proof (MotionEnergyFacts.Rsum_nonneg sel Hpos) as Hsum.
  unfold mean. rewrite Hl. simpl length.
  replace (INR 8) with 8 by (simpl; lra).
  split; [lra|].
  rewrite <- Hiff, <- (Rsum_zero_iff sel Hpos). split; intros; lra.
Qed.

Lemma energy_counts_key_joints_witness :
  exists e,
    energy_at (Some (repeat (0, 0, 0) 33))
              (Some (repeat (0, 0, 0) 25 ++ repeat (1, 1, 1) 8)) = Some e
    /\ 0 <= e
    /\ (e = 0 <-> forall j, In j key_joints ->
                    nth_error (repeat (0, 0, 0) 25 ++ repeat (1, 1, 1) 8) j
                    = nth_error (repeat (0, 0, 0) 33) j).
Proof.
  apply (energy_counts_key_joints (repeat (0, 0, 0) 33)
           (repeat (0, 0, 0) 25 ++ repeat (1, 1, 1) 8)).
  - reflexivity.
  - simpl. lia.
Defined.

End EnergyFacts.
